(** * crm-leparc: category codes, list pages, backend operations and schema

    A shallow embedding of the TypeScript sources (the category helper, the
    list pages, the detail and form pages) and of the SQL migrations, with the
    properties the specification states about them.

    Conventions.
    - A JavaScript string is a Rocq [string] holding the UTF-8 bytes of the
      text, as the source files do.  Equality, concatenation and the substring
      test agree with the UTF-16 ones on well-formed text.
    - [String.prototype.toLowerCase] belongs to the engine (it follows the
      Unicode tables); it is a section variable wherever it is called.
    - TypeScript types are erased at run time, so functions take and return
      run-time values ([JS.value]). *)

From Stdlib Require Import ZArith Lia DecimalString.
From stdpp Require Import base strings list gmap sorting.

(** ** JavaScript values *)

Module JS.

Set Warnings "-register-all".

(** Built-in objects that a property read on an object literal can reach
    through the prototype chain. *)
Inductive builtin : Type :=
  | ObjectPrototype                    (* the object [Object.prototype] *)
  | BuiltinFunction (name : string).   (* a native function, by its name *)

Inductive value : Type :=
  | VUndef
  | VNull
  | VBool (b : bool)
  | VNum (n : Z)
  | VStr (s : string)
  | VObj (fields : list (string * value))
  | VBuiltin (b : builtin).

(** ToBoolean. *)
Definition truthy (v : value) : bool :=
  match v with
  | VUndef | VNull => false
  | VBool b => b
  | VNum n => negb (n =? 0)%Z
  | VStr s => negb (String.eqb s "")
  | VObj _ | VBuiltin _ => true
  end.

(** [a || b] on values. *)
Definition or_else (a b : value) : value := if truthy a then a else b.

(** Decimal rendering of an integer-valued number (Number::toString for a
    safe integer). *)
Definition number_to_string (n : Z) : string :=
  DecimalString.NilZero.string_of_int (Z.to_int n).

Section ToString.

(** The text a native function prints as is [function] followed by an
    implementation-defined remainder (ECMA-262, NativeFunction). *)
Variable native_source_tail : string → string.

(** ToString, as template literals and property keys apply it. *)
Definition to_string (v : value) : string :=
  match v with
  | VUndef => "undefined"
  | VNull => "null"
  | VBool true => "true"
  | VBool false => "false"
  | VNum n => number_to_string n
  | VStr s => s
  | VObj _ => "[object Object]"
  | VBuiltin ObjectPrototype => "[object Object]"
  | VBuiltin (BuiltinFunction name) => "function" +:+ native_source_tail name
  end.

End ToString.

(** Own properties of an object literal, in insertion order. *)
Fixpoint own_property (fields : list (string * value)) (key : string) : option value :=
  match fields with
  | [] => None
  | (k, v) :: rest => if String.eqb k key then Some v else own_property rest key
  end.

(** The properties every object inherits from [Object.prototype]
    (ECMA-262 20.1.3 and B.2.2). *)
Definition object_prototype_functions : list string :=
  [ "constructor"; "hasOwnProperty"; "isPrototypeOf"; "propertyIsEnumerable";
    "toLocaleString"; "toString"; "valueOf";
    "__defineGetter__"; "__defineSetter__"; "__lookupGetter__"; "__lookupSetter__" ].

Definition inherited_property (key : string) : option value :=
  if String.eqb key "__proto__" then Some (VBuiltin ObjectPrototype)
  else if existsb (String.eqb key) object_prototype_functions
       then Some (VBuiltin (BuiltinFunction (if String.eqb key "constructor" then "Object" else key)))
       else None.

(** [o[key]] for an object literal [o]: own properties first, then the
    prototype chain, [undefined] when neither has the key. *)
Definition get (fields : list (string * value)) (key : string) : value :=
  match own_property fields key with
  | Some v => v
  | None => default VUndef (inherited_property key)
  end.

(** [a === b] on primitives.  Two object values written down separately are
    never the same object; the code modelled compares keys, which are
    primitives. *)
Definition strict_eq (a b : value) : bool :=
  match a, b with
  | VUndef, VUndef | VNull, VNull => true
  | VBool x, VBool y => Bool.eqb x y
  | VNum x, VNum y => (x =? y)%Z
  | VStr x, VStr y => String.eqb x y
  | _, _ => false
  end.

(** Writing a property: an existing key keeps its place, a new key goes
    last. *)
Fixpoint set_property (fields : list (string * value)) (key : string) (v : value)
  : list (string * value) :=
  match fields with
  | [] => [(key, v)]
  | (k, w) :: rest =>
      if String.eqb k key then (k, v) :: rest else (k, w) :: set_property rest key v
  end.

(** [s.includes(t)]: [t] occurs in [s] as a contiguous substring. *)
Fixpoint includes (s t : string) : bool :=
  String.prefix t s ||
  match s with
  | EmptyString => false
  | String _ s' => includes s' t
  end.

(** [t] is a prefix of [s] exactly when [s] is [t] followed by something. *)
Lemma prefix_spec t s :
  String.prefix t s = true ↔ ∃ post, s = t +:+ post.
Proof.
  revert t. induction s as [|b s IH]; intros [|a t]; simpl.
  - split; [by exists ""|done].
  - split; [done|]. intros [post [=]].
  - split; [intros _; by eexists|done].
  - destruct (Ascii.ascii_dec a b) as [->|Hne].
    + rewrite IH. split; intros [post H]; exists post; [by rewrite H|by injection H].
    + split; [done|]. intros [post [= ? _]]. by subst.
Qed.

(** [includes s t] holds exactly when [s] splits as [pre ++ t ++ post]. *)
Lemma includes_spec s t :
  includes s t = true ↔ ∃ pre post, s = pre +:+ t +:+ post.
Proof.
  induction s as [|a s IH]; cbn [includes].
  - rewrite orb_false_r, prefix_spec. split.
    + intros [post H]. by exists "", post.
    + intros [pre [post H]]. destruct pre; [by exists post | discriminate].
  - rewrite orb_true_iff, prefix_spec, IH. split.
    + intros [[post H]|[pre [post H]]].
      * by exists "", post.
      * exists (String a pre), post. simpl. by rewrite H.
    + intros [pre [post H]]. destruct pre as [|b pre].
      * left. by exists post.
      * right. simpl in H. injection H as _ H. by exists pre, post.
Qed.

Lemma includes_empty s : includes s "" = true.
Proof. apply includes_spec. by exists "", s. Qed.

Lemma includes_refl s : includes s s = true.
Proof.
  apply includes_spec. exists "", "". change (s = s +:+ "").
  induction s as [|a s IH]; [done|]. change (String a s = String a (s +:+ "")).
  by rewrite <- IH.
Qed.

End JS.

(** ** utils/categoryUtils.ts *)

Module CategoryUtils.
Import JS.

(** The object literal [categoryDiminutives], in source order. *)
Definition categoryDiminutives : list (string * value) :=
  [ ("Informatique", VStr "INF");
    ("Lumière", VStr "LUM");
    ("Vidéo-Photo", VStr "VID");
    ("Appareils-Numériques", VStr "NUM");
    ("Son", VStr "SON");
    ("Electro Ménager", VStr "ELE");
    ("Serveur-Stockage", VStr "SRV");
    ("périphérique", VStr "PRH");
    ("imprimante", VStr "IMP") ].

Section WithEngine.

Variable native_source_tail : string → string.
Variable toLowerCase : string → string.

(** [categoryDiminutives[category] || category].  The property key is
    ToString of the argument. *)
Definition getCategoryAbbreviation (category : value) : value :=
  or_else (get categoryDiminutives (to_string native_source_tail category)) category.

(** The template literal [`${getCategoryAbbreviation(category)}-${code}`]. *)
Definition getProductCode (category code : value) : string :=
  to_string native_source_tail (getCategoryAbbreviation category)
  +:+ "-" +:+ to_string native_source_tail code.

(** [Object.entries(categoryDiminutives)] keeps the own string-valued
    entries in insertion order (no key is an array index). *)
Definition entries : list (string * string) :=
  omap (λ kv, match kv.2 with VStr d => Some (kv.1, d) | _ => None end)
       categoryDiminutives.

Definition searchInCategoryAbbreviations (searchTerm : string) : list string :=
  let term := toLowerCase searchTerm in
  List.map fst
    (List.filter
       (λ '(category, diminutive),
          includes (toLowerCase category) term
          || includes (toLowerCase diminutive) term)
       entries).

(** *** Properties of the helper *)

Lemma own_property_In fields key v :
  own_property fields key = Some v → In (key, v) fields.
Proof.
  induction fields as [|[k w] rest IH]; simpl; [discriminate|].
  destruct (String.eqb k key) eqn:E.
  - apply String.eqb_eq in E. intros [= ->]. left. by subst.
  - intros H. right. by apply IH.
Qed.

(** Each of the nine labels is mapped to its abbreviation. *)
Lemma getCategoryAbbreviation_known category diminutive :
  In (category, diminutive) entries →
  getCategoryAbbreviation (VStr category) = VStr diminutive.
Proof.
  simpl. intros H.
  repeat (destruct H as [[= <- <-]|H]; [reflexivity|]).
  destruct H.
Qed.

(** A string that names neither an own nor an inherited property comes
    back unchanged. *)
Lemma getCategoryAbbreviation_unknown category :
  own_property categoryDiminutives category = None →
  inherited_property category = None →
  getCategoryAbbreviation (VStr category) = VStr category.
Proof.
  intros Hown Hinh. unfold getCategoryAbbreviation, get. simpl to_string.
  by rewrite Hown, Hinh.
Qed.

(** C1 (the code departs from the claim).  For the category string
    [constructor], which is not one of the nine keys, the lookup finds the
    property inherited from [Object.prototype]: the function returns the
    native function [Object], not the input string. *)
Theorem getCategoryAbbreviation_constructor :
  own_property categoryDiminutives "constructor" = None ∧
  getCategoryAbbreviation (VStr "constructor") = VBuiltin (BuiltinFunction "Object") ∧
  getCategoryAbbreviation (VStr "constructor") ≠ VStr "constructor".
Proof. split; [reflexivity|]. split; [reflexivity|discriminate]. Qed.

(** C2.  The product code is the abbreviation of the category, then the
    separator [-], then the item code; when the abbreviation is a string
    [a] the code is [a-code]. *)
Theorem getProductCode_concat (category code : string) :
  getProductCode (VStr category) (VStr code)
  = to_string native_source_tail (getCategoryAbbreviation (VStr category))
    +:+ "-" +:+ code
  ∧ (∀ a, getCategoryAbbreviation (VStr category) = VStr a →
          getProductCode (VStr category) (VStr code) = a +:+ "-" +:+ code)
  ∧ JS.includes (getProductCode (VStr category) (VStr code)) ("-" +:+ code) = true.
Proof.
  split; [reflexivity|]. split.
  - intros a Ha. unfold getProductCode. by rewrite Ha.
  - apply includes_spec.
    exists (to_string native_source_tail (getCategoryAbbreviation (VStr category))), "".
    unfold getProductCode. simpl to_string. f_equal.
    generalize ("-" +:+ code). intros s. clear.
    induction s as [|c s IH]; [done|].
    change (String c s = String c (s +:+ "")). by rewrite <- IH.
Qed.

(** No abbreviation, and no rendering of an inherited built-in, names a
    property of the mapping. *)
Lemma get_of_result_undefined v key :
  get categoryDiminutives key = v → truthy v = true →
  get categoryDiminutives (to_string native_source_tail v) = VUndef.
Proof.
  unfold get. destruct (own_property categoryDiminutives key) as [w|] eqn:Hown.
  - intros <- _. apply own_property_In in Hown. simpl in Hown.
    repeat (destruct Hown as [[= <- <-]|Hown]; [reflexivity|]).
    destruct Hown.
  - unfold inherited_property.
    destruct (String.eqb key "__proto__"); [by intros <- _|].
    destruct (existsb (String.eqb key) object_prototype_functions);
      [by intros <- _|by intros <-].
Qed.

(** C8.  [getCategoryAbbreviation] is idempotent on category strings. *)
Theorem getCategoryAbbreviation_idempotent (c : string) :
  getCategoryAbbreviation (getCategoryAbbreviation (VStr c))
  = getCategoryAbbreviation (VStr c).
Proof.
  assert (Hr : getCategoryAbbreviation (VStr c)
               = if truthy (get categoryDiminutives c)
                 then get categoryDiminutives c else VStr c) by reflexivity.
  destruct (truthy (get categoryDiminutives c)) eqn:Ht; rewrite Hr.
  - unfold getCategoryAbbreviation.
    by rewrite (get_of_result_undefined _ c eq_refl Ht).
  - exact Hr.
Qed.

(** Case-insensitive containment, as the search computes it: the
    lower-cased [s] splits around the lower-cased [t]. *)
Definition contains_ci (s t : string) : Prop :=
  ∃ pre post, toLowerCase s = pre +:+ toLowerCase t +:+ post.

Lemma search_sublist (f : string * string → bool) (l : list (string * string)) :
  sublist (List.map fst (List.filter f l)) (List.map fst l).
Proof.
  induction l as [|x l IH]; simpl; [constructor|].
  destruct (f x); simpl; by constructor.
Qed.

Lemma entries_keys_NoDup : NoDup (List.map fst entries).
Proof. apply (bool_decide_unpack _). by vm_compute. Qed.

(** C3.  The search returns exactly the labels whose label or abbreviation
    contains the term case-insensitively: membership is characterised, the
    labels come once each and in the order of the mapping, each is a key of
    the mapping, and terms that agree up to case give the same result. *)
Theorem searchInCategoryAbbreviations_spec (searchTerm : string) :
  (∀ category,
     category ∈ searchInCategoryAbbreviations searchTerm ↔
     ∃ diminutive, (category, diminutive) ∈ entries ∧
       (contains_ci category searchTerm ∨ contains_ci diminutive searchTerm))
  ∧ NoDup (searchInCategoryAbbreviations searchTerm)
  ∧ sublist (searchInCategoryAbbreviations searchTerm) (List.map fst entries)
  ∧ (∀ category, category ∈ searchInCategoryAbbreviations searchTerm →
       is_Some (own_property categoryDiminutives category))
  ∧ (∀ other, toLowerCase other = toLowerCase searchTerm →
       searchInCategoryAbbreviations other = searchInCategoryAbbreviations searchTerm).
Proof.
  assert (Hmem : ∀ category,
     category ∈ searchInCategoryAbbreviations searchTerm ↔
     ∃ diminutive, (category, diminutive) ∈ entries ∧
       (contains_ci category searchTerm ∨ contains_ci diminutive searchTerm)).
  { intros category. unfold searchInCategoryAbbreviations, contains_ci.
    rewrite list_elem_of_In, in_map_iff. split.
    - intros [[c d] [<- Hin]]. apply filter_In in Hin as [Hin Hf].
      exists d. rewrite list_elem_of_In. split; [done|].
      apply orb_true_iff in Hf. by rewrite !includes_spec in Hf.
    - intros [d [Hin Hf]]. exists (category, d). split; [done|].
      apply filter_In. rewrite list_elem_of_In in Hin. split; [done|].
      apply orb_true_iff. by rewrite !includes_spec. }
  split; [exact Hmem|].
  split; [exact (sublist_NoDup _ _ entries_keys_NoDup (search_sublist _ _))|].
  split; [apply search_sublist|].
  split.
  - intros category [d [Hin _]]%Hmem.
    apply list_elem_of_In in Hin. simpl in Hin.
    repeat (destruct Hin as [[= <- <-]|Hin]; [by eexists|]).
    destruct Hin.
  - intros other Heq. unfold searchInCategoryAbbreviations. by rewrite Heq.
Qed.

End WithEngine.

End CategoryUtils.

(** ** A concrete engine for worked examples *)

Module Engine.

(** V8's rendering of a native function after the word [function]. *)
Definition v8_source_tail (name : string) : string :=
  " " +:+ name +:+ "() { [native code] }".

(** Lower-casing of Basic Latin and of the Latin-1 letters (in UTF-8 the
    two-byte sequences led by [0xC3]); other text is left as it is. *)
Fixpoint latin_toLowerCase (s : string) : string :=
  match s with
  | EmptyString => EmptyString
  | String c rest =>
      let n := Ascii.nat_of_ascii c in
      if (65 <=? n)%nat && (n <=? 90)%nat
      then String (Ascii.ascii_of_nat (n + 32)) (latin_toLowerCase rest)
      else if (n =? 195)%nat
      then match rest with
           | EmptyString => String c EmptyString
           | String d rest' =>
               let m := Ascii.nat_of_ascii d in
               if (128 <=? m)%nat && (m <=? 158)%nat && negb (m =? 151)%nat
               then String c (String (Ascii.ascii_of_nat (m + 32)) (latin_toLowerCase rest'))
               else String c (latin_toLowerCase rest)
           end
      else String c (latin_toLowerCase rest)
  end.

End Engine.

(** ** Client-side sort of the list pages *)

Module ListSort.
Import JS.

(** A row of a fetched list: a JSON object. *)
Definition row : Type := list (string * value).

Inductive direction : Type := asc | desc.

(** [Array.prototype.sort(comparefn)].  ECMA-262 (since ES2019) requires a
    stable sort; the model is the stable insertion sort: each element moves
    left past the elements that compare greater than it.  The sorted prefix is
    kept reversed. *)
Section Sort.
Context {A : Type}.
Variable comparefn : A → A → Z.

Fixpoint insert (x : A) (prefix_rev : list A) : list A :=
  match prefix_rev with
  | [] => [x]
  | y :: rest =>
      if (comparefn y x >? 0)%Z then y :: insert x rest else x :: y :: rest
  end.

Definition sort (l : list A) : list A :=
  rev (fold_left (λ prefix_rev x, insert x prefix_rev) l []).
End Sort.

Section Comparator.

Variable toLowerCase : string → string.
(** The engine's relational comparison [a < b], true when it yields
    [true] (false also when it is undefined, as with [NaN]). *)
Variable less_than : value → value → bool.

(** [if (typeof v === 'string') v = v.toLowerCase()]. *)
Definition lower_if_string (v : value) : value :=
  match v with
  | VStr s => VStr (toLowerCase s)
  | _ => v
  end.

(** The comparator shared by the list pages. *)
Definition compareRows (sortField : string) (sortDirection : direction) (a b : row) : Z :=
  if negb (truthy (VStr sortField)) then 0%Z
  else
    let aValue := lower_if_string (get a sortField) in
    let bValue := lower_if_string (get b sortField) in
    if less_than aValue bValue
    then match sortDirection with asc => (-1)%Z | desc => 1%Z end
    else if less_than bValue aValue
    then match sortDirection with asc => 1%Z | desc => (-1)%Z end
    else 0%Z.

(** [[...filteredDevices].sort(...)] in Devices.tsx. *)
Definition sortedDevices (filteredDevices : list row)
    (sortField : string) (sortDirection : direction) : list row :=
  sort (compareRows sortField sortDirection) filteredDevices.

(** [[...filteredInterventions].sort(...)] in Interventions.tsx. *)
Definition sortedInterventions (filteredInterventions : list row)
    (sortField : string) (sortDirection : direction) : list row :=
  sort (compareRows sortField sortDirection) filteredInterventions.

(** [[...filteredQuotesInvoices].sort(...)] in QuotesInvoices.tsx. *)
Definition sortedQuotesInvoices (filteredQuotesInvoices : list row)
    (sortField : string) (sortDirection : direction) : list row :=
  sort (compareRows sortField sortDirection) filteredQuotesInvoices.

(** [handleSort]: a second click on the same column flips the direction,
    another column starts ascending. *)
Definition handleSort (state : string * direction) (field : string) : string * direction :=
  let '(sortField, sortDirection) := state in
  if String.eqb sortField field
  then (sortField, match sortDirection with asc => desc | desc => asc end)
  else (field, asc).

End Comparator.

(** *** Properties *)

Section SortFacts.
Context {A : Type}.
Variable comparefn : A → A → Z.

Lemma insert_Permutation x l : insert comparefn x l ≡ₚ x :: l.
Proof.
  induction l as [|y l IH]; simpl; [done|].
  destruct (comparefn y x >? 0)%Z; [|done].
  rewrite IH. apply Permutation_swap.
Qed.

Lemma fold_insert_Permutation l acc :
  fold_left (λ prefix_rev x, insert comparefn x prefix_rev) l acc ≡ₚ l ++ acc.
Proof.
  revert acc. induction l as [|x l IH]; intros acc; simpl; [done|].
  rewrite IH, insert_Permutation. by rewrite Permutation_middle.
Qed.

Lemma sort_Permutation l : sort comparefn l ≡ₚ l.
Proof.
  unfold sort. rewrite <- Permutation_rev, fold_insert_Permutation.
  by rewrite app_nil_r.
Qed.

(** When the comparator never answers "greater", nothing moves. *)
Lemma fold_insert_no_move l acc :
  (∀ x y, (comparefn x y <= 0)%Z) →
  fold_left (λ prefix_rev x, insert comparefn x prefix_rev) l acc = rev l ++ acc.
Proof.
  intros Hle. revert acc. induction l as [|x l IH]; intros acc; simpl; [done|].
  rewrite IH, <- app_assoc. simpl. f_equal.
  destruct acc as [|y acc]; simpl; [done|].
  destruct (Z.gtb_spec (comparefn y x) 0); [|done].
  specialize (Hle y x). lia.
Qed.

Lemma sort_no_move l :
  (∀ x y, (comparefn x y <= 0)%Z) → sort comparefn l = l.
Proof.
  intros Hle. unfold sort. rewrite fold_insert_no_move by done.
  by rewrite app_nil_r, rev_involutive.
Qed.
End SortFacts.

Section PageFacts.

Variable toLowerCase : string → string.
Variable less_than : value → value → bool.

Lemma compareRows_no_field sortDirection a b :
  compareRows toLowerCase less_than "" sortDirection a b = 0%Z.
Proof. reflexivity. Qed.

(** The comparator sees a string field only through its lower-casing. *)
Lemma compareRows_lower sortField sortDirection a a' b b' :
  lower_if_string toLowerCase (get a sortField)
    = lower_if_string toLowerCase (get a' sortField) →
  lower_if_string toLowerCase (get b sortField)
    = lower_if_string toLowerCase (get b' sortField) →
  compareRows toLowerCase less_than sortField sortDirection a b
  = compareRows toLowerCase less_than sortField sortDirection a' b'.
Proof. intros Ha Hb. unfold compareRows. by rewrite Ha, Hb. Qed.

(** C10.  On the three list pages the sorted list is a permutation of the
    filtered list, whatever the filtered list (hence whatever was fetched
    and however it was filtered), the sort field and the direction; with no
    sort field the sorted list is the filtered list itself, in its order;
    and rows whose string values in the sort field agree up to case are
    interchangeable for the comparator. *)
Theorem sorted_lists_permutation
    (filtered : list row) (sortField : string) (sortDirection : direction) :
  (sortedDevices toLowerCase less_than filtered sortField sortDirection ≡ₚ filtered
   ∧ sortedInterventions toLowerCase less_than filtered sortField sortDirection ≡ₚ filtered
   ∧ sortedQuotesInvoices toLowerCase less_than filtered sortField sortDirection ≡ₚ filtered)
  ∧ (sortedDevices toLowerCase less_than filtered "" sortDirection = filtered
     ∧ sortedInterventions toLowerCase less_than filtered "" sortDirection = filtered
     ∧ sortedQuotesInvoices toLowerCase less_than filtered "" sortDirection = filtered)
  ∧ (∀ (fetched : list row) (keep : row → bool),
       sortedDevices toLowerCase less_than (List.filter keep fetched) sortField sortDirection
         ⊆ fetched)
  ∧ (∀ a a' b s s',
       get a sortField = VStr s → get a' sortField = VStr s' →
       toLowerCase s = toLowerCase s' →
       compareRows toLowerCase less_than sortField sortDirection a b
       = compareRows toLowerCase less_than sortField sortDirection a' b
       ∧ compareRows toLowerCase less_than sortField sortDirection b a
         = compareRows toLowerCase less_than sortField sortDirection b a').
Proof.
  unfold sortedDevices, sortedInterventions, sortedQuotesInvoices.
  split; [by rewrite !sort_Permutation|].
  split.
  { rewrite sort_no_move; [done|]. intros x y. by rewrite compareRows_no_field. }
  split.
  { intros fetched keep r. rewrite sort_Permutation.
    rewrite !list_elem_of_In, filter_In. tauto. }
  intros a a' b s s' Ha Ha' Hs.
  split; apply compareRows_lower; rewrite ?Ha, ?Ha'; simpl; by rewrite ?Hs.
Qed.

End PageFacts.

End ListSort.

(** ** The backend client and the effects of a page operation *)

Module Backend.
Import JS.
Export ListSort(row).

(** An error object, as the client library returns or throws it. *)
Record error : Type := { message : string }.

(** One call of the fluent query builder; a query is the chain of calls, in
    source order. *)
Inductive call : Type :=
  | From (relation : string)
  | StorageFrom (bucket : string)
  | Select (columns : string)
  | SelectCount (columns : string)          (* select(cols, { count: 'exact' }) *)
  | Insert (payload : row)                  (* insert([payload]) *)
  | Update (payload : row)
  | Delete
  | Upload (path : string)
  | Remove (paths : list value)
  | Eq (column : string) (v : value)
  | Not (column operator : string) (v : value)
  | Or (filters : string)
  | Order (column : string) (ascending : bool)
  | Limit (n : nat)
  | Single.

Definition query : Type := list call.

(** What an awaited query resolves to: the object [{ data, error, count }]. *)
Record response (D : Type) : Type :=
  { data : option D; error_of : option error; count : option Z }.
Arguments data {D} _.
Arguments error_of {D} _.
Arguments count {D} _.

(** A promise settles: it is fulfilled with a response or it rejects. *)
Inductive settled (D : Type) : Type :=
  | Fulfilled (r : response D)
  | RejectedWith (e : error).
Arguments Fulfilled {D} _.
Arguments RejectedWith {D} _.

(** What surrounds an operation: the backend (any function from queries to
    settled promises; queries ending in [.single()] and storage uploads
    resolve to one object) and the user's answers to [confirm] dialogs.  One
    run of an operation sends each of its queries once, so a function of the
    query stands for any sequence of answers. *)
Record env : Type :=
  { backend : query → settled (list row);
    backend_single : query → settled row;
    confirm : string → bool }.

(** How a query sent by an operation came back. *)
Inductive answer : Type :=
  | Succeeded
  | ReturnedError (e : error)      (* fulfilled, with the [error] field set *)
  | Rejected (e : error).

Definition answer_of {D} (s : settled D) : answer :=
  match s with
  | Fulfilled r => match error_of r with Some e => ReturnedError e | None => Succeeded end
  | RejectedWith e => Rejected e
  end.

(** The observable effects of an operation, in order. *)
Inductive event : Type :=
  | Called (q : query) (a : answer)            (* a query was sent and came back *)
  | ConsoleError (label : string) (e : error)
  | ConsoleLog (label : string) (v : value)
  | Alert (msg : string)
  | Navigate (path : string)
  | SetRows (var : string) (rows : list row)   (* a list state is replaced *)
  | SetRecord (var : string) (r : option row)  (* a single-record state *)
  | SetFlag (var : string) (b : bool)          (* loading, uploadingFile, ... *)
  | SetError (msg : option string)             (* the page's error banner *)
  | SetDerived (var : string).                 (* a state written with a value
                                                  no property here reads *)

Definition trace : Type := list event.

Inductive outcome (A : Type) : Type :=
  | Returned (a : A)
  | Threw (e : error).
Arguments Returned {A} _.
Arguments Threw {A} _.

(** An asynchronous function body: it reads its surroundings, leaves a trace
    and returns or throws. *)
Definition M (A : Type) : Type := env → outcome A * trace.

Definition ret {A} (a : A) : M A := λ _, (Returned a, []).

Definition bind {A B} (m : M A) (k : A → M B) : M B :=
  λ w, match m w with
       | (Returned a, t) => let '(o, t') := k a w in (o, t ++ t')
       | (Threw e, t) => (Threw e, t)
       end.

#[global] Instance M_ret : MRet M := @ret.
#[global] Instance M_bind : MBind M := λ A B k m, bind m k.

Definition throw {A} (e : error) : M A := λ _, (Threw e, []).
Definition emit (ev : event) : M unit := λ _, (Returned (), [ev]).
Definition ask_confirm (question : string) : M bool :=
  λ w, (Returned (confirm w question), []).

Definition settle {D} (q : query) (s : settled D) : outcome (response D) * trace :=
  match s with
  | Fulfilled r => (Returned r, [Called q (answer_of s)])
  | RejectedWith e => (Threw e, [Called q (answer_of s)])
  end.

(** [await query]: the query is sent; a rejection is thrown at the [await]. *)
Definition await (q : query) : M (response (list row)) :=
  λ w, settle q (backend w q).

Definition await_single (q : query) : M (response row) :=
  λ w, settle q (backend_single w q).

(** [if (error) throw error]. *)
Definition throw_if_error {D} (r : response D) : M unit :=
  match error_of r with
  | Some e => throw e
  | None => ret ()
  end.

(** [try { body } catch (error) { handler } finally { finalizer }]. *)
Definition try_catch_finally (body : M unit) (handler : error → M unit)
    (finalizer : M unit) : M unit :=
  λ w,
    let '(o1, t1) := body w in
    let '(o2, t2) := match o1 with
                     | Returned _ => (Returned (), [])
                     | Threw e => handler e w
                     end in
    let '(o3, t3) := finalizer w in
    (match o3 with Threw e => Threw e | Returned _ => o2 end, t1 ++ t2 ++ t3).

Definition try_catch (body : M unit) (handler : error → M unit) : M unit :=
  try_catch_finally body handler (ret ()).

(** A call of an async function without [await]: it runs, and whatever it
    throws stays in its own promise. *)
Definition detached (m : M unit) : M unit :=
  λ w, (Returned (), (m w).2).

(** [Promise.all([p1, p2])]: both have started; the [await] throws when one
    of them rejected. *)
Definition both {A B} (m1 : M A) (m2 : M B) : M (A * B) :=
  λ w,
    let '(o1, t1) := m1 w in
    let '(o2, t2) := m2 w in
    (match o1, o2 with
     | Returned a, Returned b => Returned (a, b)
     | Threw e, _ => Threw e
     | _, Threw e => Threw e
     end, t1 ++ t2).

Fixpoint promise_all {A} (ms : list (M A)) : M (list A) :=
  match ms with
  | [] => ret []
  | m :: rest =>
      λ w, match both m (promise_all rest) w with
           | (Returned (a, l), t) => (Returned (a :: l), t)
           | (Threw e, t) => (Threw e, t)
           end
  end.

(** [Promise.resolve(p).catch(() => q)]: [q] runs when [p] rejects. *)
Definition recover {A} (m alternative : M A) : M A :=
  λ w, match m w with
       | (Threw _, t) => let '(o, t') := alternative w in (o, t ++ t')
       | done => done
       end.

Definition console_error (label : string) (e : error) : M unit :=
  emit (ConsoleError label e).

(** [data || []]. *)
Definition rows_or_empty (r : response (list row)) : list row :=
  default [] (data r).

(** [v?.key]. *)
Definition opt_get (v : value) (key : string) : value :=
  match v with
  | VObj fields => get fields key
  | _ => VUndef
  end.

(** [{ ...o, k1: v1, ..., kn: vn }]. *)
Definition spread_with (o : row) (updates : list (string * value)) : row :=
  fold_left (λ acc kv, set_property acc kv.1 kv.2) updates o.

(** The value of a list state after the effects of a trace: the last
    [set...] wins, and without one the state keeps its value. *)
Fixpoint rows_after (var : string) (current : list row) (t : trace) : list row :=
  match t with
  | [] => current
  | SetRows v rows :: t' =>
      rows_after var (if String.eqb v var then rows else current) t'
  | _ :: t' => rows_after var current t'
  end.

Definition run {A} (m : M A) (w : env) : outcome A * trace := m w.

(** Engine functions the pages call on strings. *)
Record runtime : Type :=
  { source_tail : string → string;      (* see [JS.to_string] *)
    trim : string → string;             (* String.prototype.trim *)
    parseInt : string → value;          (* parseInt(s) *)
    not_a_number : string → bool }.     (* isNaN(Number(s)) *)

(** What an operation closes over or receives: the route parameter [id],
    form states, the chosen file, the arguments of the handlers. *)
Record inputs : Type :=
  { rt : runtime;
    id : value;
    formData : row;
    clientFormData : row;
    file : option row;        (* event.target.files?.[0]: name, type, size *)
    fileId : value;
    clientId : value;
    searchTerm : string;
    clients : list row }.

End Backend.

(** ** The list pages *)

Module Devices.
Import JS Backend.

Definition devices_view : query :=
  [From "devices_with_relations"; Select "*"; Order "created_at" false].

Definition devices_table : query :=
  [From "devices"; Select "*"; Order "created_at" false].

(** [{ ...device, operator_name: null, intervention_count: 0,
       last_intervention_date: null }]. *)
Definition with_defaults (device : row) : row :=
  spread_with device
    [ ("operator_name", VNull); ("intervention_count", VNum 0);
      ("last_intervention_date", VNull) ].

Definition fetchDevices : M unit :=
  try_catch_finally
    (r ← await devices_view;
     throw_if_error r;;
     emit (SetRows "devices" (rows_or_empty r)))
    (λ error,
       console_error "Error fetching devices:" error;;
       try_catch
         (r ← await devices_table;
          throw_if_error r;;
          emit (SetRows "devices" (List.map with_defaults (rows_or_empty r))))
         (λ fallbackError,
            console_error "Fallback error:" fallbackError;;
            emit (SetRows "devices" [])))
    (emit (SetFlag "loading" false)).

Definition fetchOperators : M unit :=
  try_catch
    (r ← await [From "operators"; Select "id, full_name"];
     throw_if_error r;;
     emit (SetRows "operators" (rows_or_empty r)))
    (λ error, console_error "Error fetching operators:" error).

Definition fetchClients : M unit :=
  try_catch
    (r ← await [From "clients"; Select "id, name, first_name"];
     throw_if_error r;;
     emit (SetRows "clients" (rows_or_empty r)))
    (λ error, console_error "Error fetching clients:" error).

(** The handler registered on channel [devices_changes], table [devices]. *)
Definition on_change (payload : value) : M unit :=
  emit (ConsoleLog "Changement détecté:" payload);;
  detached fetchDevices.

End Devices.

Module Clients.
Import JS Backend.

Definition clients_view : query :=
  [From "clients_with_devices"; Select "*"; Order "created_at" false].

Definition clients_table : query :=
  [From "clients"; Select "*"; Order "created_at" false].

Definition fetchClients : M unit :=
  try_catch_finally
    (r ← await clients_view;
     throw_if_error r;;
     emit (SetRows "clients" (rows_or_empty r)))
    (λ error,
       console_error "Error fetching clients:" error;;
       try_catch
         (r ← await clients_table;
          throw_if_error r;;
          emit (SetRows "clients" (rows_or_empty r)))
         (λ fallbackError,
            console_error "Fallback error:" fallbackError;;
            emit (SetRows "clients" [])))
    (emit (SetFlag "loading" false)).

Definition fetchDevices : M unit :=
  try_catch
    (r ← await [From "devices"; Select "id, client_id, category";
                Not "client_id" "is" VNull];
     throw_if_error r;;
     emit (SetRows "devices" (rows_or_empty r)))
    (λ error, console_error "Error fetching devices:" error).

Definition delete_client (id : value) : query :=
  [From "clients"; Delete; Eq "id" id].

(** [handleDelete(id)], with [clients] the list the handler closed over. *)
Definition handleDelete (clients : list row) (id : value) : M unit :=
  confirmed ← ask_confirm "Êtes-vous sûr de vouloir supprimer ce client ?";
  if negb confirmed then ret ()
  else
    try_catch
      (r ← await (delete_client id);
       throw_if_error r;;
       emit (SetRows "clients"
               (List.filter (λ client, negb (strict_eq (get client "id") id)) clients)))
      (λ error,
         console_error "Error deleting client:" error;;
         emit (Alert "Erreur lors de la suppression du client")).

End Clients.

Module QuotesInvoices.
Import JS Backend.

Definition quotes_invoices_view : query :=
  [From "quotes_invoices_with_relations"; Select "*"; Order "created_at" false].

Definition fetchQuotesInvoices : M unit :=
  try_catch_finally
    (r ← await quotes_invoices_view;
     throw_if_error r;;
     emit (SetRows "quotesInvoices" (rows_or_empty r)))
    (λ error, console_error "Error fetching quotes and invoices:" error)
    (emit (SetFlag "loading" false)).

(** The handler registered on channel [quotes_invoices_changes]. *)
Definition on_change (payload : value) : M unit :=
  detached fetchQuotesInvoices.

End QuotesInvoices.

Module Interventions.
Import JS Backend.

(** The select list is written without the line breaks and indentation of
    the source (the client library strips white space). *)
Definition interventions_joined : query :=
  [From "interventions";
   Select "*,device:devices(id,brand,model,category,client_id,client:clients(id,name,first_name)),operator:operators(id,full_name)";
   Order "intervention_date" false].

(** The object built for each fetched intervention. *)
Definition flatten (intervention : row) : row :=
  let device := get intervention "device" in
  let operator := get intervention "operator" in
  let client := opt_get device "client" in
  spread_with intervention
    [ ("device_brand", or_else (opt_get device "brand") (VStr ""));
      ("device_model", or_else (opt_get device "model") (VStr ""));
      ("device_category", or_else (opt_get device "category") (VStr ""));
      ("operator_name", or_else (opt_get operator "full_name") (VStr ""));
      ("client_id", or_else (opt_get device "client_id") VNull);
      ("client_name", or_else (opt_get client "name") VNull);
      ("client_first_name", or_else (opt_get client "first_name") VNull) ].

Definition fetchInterventions : M unit :=
  try_catch_finally
    (r ← await interventions_joined;
     throw_if_error r;;
     emit (SetRows "interventions" (List.map flatten (rows_or_empty r))))
    (λ error,
       console_error "Error fetching interventions:" error;;
       emit (SetRows "interventions" []))
    (emit (SetFlag "loading" false)).

Definition fetchOperators : M unit :=
  try_catch
    (r ← await [From "operators"; Select "id, full_name"];
     throw_if_error r;;
     emit (SetRows "operators" (rows_or_empty r)))
    (λ error, console_error "Error fetching operators:" error).

Definition fetchClients : M unit :=
  try_catch
    (r ← await [From "clients"; Select "id, name, first_name"];
     throw_if_error r;;
     emit (SetRows "clients" (rows_or_empty r)))
    (λ error, console_error "Error fetching clients:" error).

(** The handler registered on channel [interventions_changes]. *)
Definition on_change (payload : value) : M unit :=
  detached fetchInterventions.

End Interventions.

Module Operators.
Import JS Backend.

(** The two counts fetched for one operator, and the row built from them:
    [{ ...operator, device_count: devicesResult.count || 0,
       intervention_count: interventionsResult.count || 0 }]. *)
Definition with_counts (operator : row) : M row :=
  '(devicesResult, interventionsResult) ←
     both (await [From "devices"; SelectCount "id"; Eq "operator_id" (get operator "id")])
          (await [From "interventions"; SelectCount "id"; Eq "operator_id" (get operator "id")]);
  mret (spread_with operator
          [ ("device_count", VNum (default 0%Z (count devicesResult)));
            ("intervention_count", VNum (default 0%Z (count interventionsResult))) ]).

Definition fetchOperators : M unit :=
  try_catch_finally
    (r ← await [From "operators"; Select "*"; Order "created_at" false];
     throw_if_error r;;
     operatorsWithCounts ← promise_all (List.map with_counts (rows_or_empty r));
     emit (SetRows "operators" operatorsWithCounts))
    (λ error, console_error "Error fetching operators:" error)
    (emit (SetFlag "loading" false)).

(** The handler registered on channel [operators_changes]. *)
Definition on_change (payload : value) : M unit :=
  detached fetchOperators.

End Operators.

(** ** The dashboard *)

Module Dashboard.
Import JS Backend.

(** [device && device.id && device.brand && device.model]. *)
Definition valid_device (device : row) : bool :=
  truthy (get device "id") && truthy (get device "brand") && truthy (get device "model").

(** [intervention && intervention.id && intervention.type &&
     intervention.device && intervention.operator]. *)
Definition valid_intervention (intervention : row) : bool :=
  truthy (get intervention "id") && truthy (get intervention "type")
  && truthy (get intervention "device") && truthy (get intervention "operator").

Definition reset_data : M unit :=
  emit (SetDerived "counts");;
  emit (SetRows "recentDevices" []);;
  emit (SetRows "recentInterventions" []).

Definition fetchDashboardData : M unit :=
  try_catch_finally
    (reset_data;;
     results ← promise_all
       [ recover (await [From "devices_with_relations"; Select "*"])
                 (await [From "devices"; Select "*"]);
         await [From "interventions"; Select "*"];
         await [From "clients"; SelectCount "id"];
         await [From "interventions"; Select "type"];
         await [From "interventions"; Select "status"];
         recover (await [From "devices_with_relations"; Select "*";
                         Order "entry_date" false; Limit 5])
                 (await [From "devices"; Select "*"; Order "entry_date" false; Limit 5]);
         await [From "interventions"; Select "*,device:devices(*),operator:operators(*)";
                Order "intervention_date" false; Limit 5] ];
     match results with
     | [_; _; _; _; _; recentDevicesResult; recentInterventionsData] =>
         emit (SetDerived "counts");;
         emit (SetRows "recentDevices"
                 (List.filter valid_device (rows_or_empty recentDevicesResult)));;
         emit (SetRows "recentInterventions"
                 (List.filter valid_intervention (rows_or_empty recentInterventionsData)))
     | _ => mret ()
     end)
    (λ error, console_error "Error fetching dashboard data:" error;; reset_data)
    (emit (SetFlag "loading" false)).

(** [isNaN(Number(searchTerm)) ? '0' : searchTerm]. *)
Definition id_filter (js : runtime) (searchTerm : string) : string :=
  if not_a_number js searchTerm then "0" else searchTerm.

Definition ilike (columns : list string) (searchTerm : string) : string :=
  fold_right (λ column acc, column +:+ ".ilike.%" +:+ searchTerm +:+ "%," +:+ acc) "" columns.

Definition search_filter (js : runtime) (columns : list string) (searchTerm : string) : string :=
  ilike columns searchTerm +:+ "id.eq." +:+ id_filter js searchTerm.

Definition performSearch (js : runtime) (searchTerm : string) : M unit :=
  if String.eqb searchTerm "" then mret ()
  else
    try_catch
      (_ ← promise_all
         [ await [From "devices"; Select "*";
                  Or (search_filter js ["brand"; "model"; "category"] searchTerm); Limit 5];
           await [From "interventions"; Select "*,device:devices(*),operator:operators(*)";
                  Or (search_filter js ["type"; "status"] searchTerm); Limit 5];
           await [From "clients"; Select "*";
                  Or (search_filter js ["name"; "first_name"; "company"; "email"] searchTerm);
                  Limit 5];
           await [From "operators"; Select "*";
                  Or (search_filter js ["full_name"; "role"] searchTerm); Limit 5] ];
       emit (SetDerived "searchResults"))
      (λ error,
         console_error "Error performing search:" error;;
         emit (SetDerived "searchResults")).

(** The handlers registered on channels [dashboard_devices] and
    [dashboard_interventions]. *)
Definition on_change (payload : value) : M unit :=
  detached fetchDashboardData.

End Dashboard.

(** ** The detail pages *)

Module DeviceDetail.
Import JS Backend.

Definition fetchDevice (id : value) : M unit :=
  try_catch_finally
    ('(deviceResult, interventionsResult) ←
       both (await_single [From "devices"; Select "*,operator:operators(id,full_name)";
                           Eq "id" id; Single])
            (await [From "interventions"; Select "id, type, status, intervention_date";
                    Eq "device_id" id; Order "intervention_date" false]);
     throw_if_error deviceResult;;
     emit (SetRecord "device" (data deviceResult));;
     emit (SetRows "interventions" (rows_or_empty interventionsResult)))
    (λ error, console_error "Error fetching device:" error)
    (emit (SetFlag "loading" false)).

Definition handleDelete (id : value) : M unit :=
  confirmed ← ask_confirm "Êtes-vous sûr de vouloir supprimer cet appareil ?";
  if negb confirmed then mret ()
  else
    try_catch
      (r ← await [From "devices"; Delete; Eq "id" id];
       throw_if_error r;;
       emit (Navigate "/devices"))
      (λ error, console_error "Error deleting device:" error).

End DeviceDetail.

Module ClientDetail.
Import JS Backend.

Definition fetchClient (id : value) : M unit :=
  try_catch_finally
    (r ← await_single [From "clients"; Select "*"; Eq "id" id; Single];
     throw_if_error r;;
     emit (SetRecord "client" (data r)))
    (λ error, console_error "Error fetching client:" error)
    (emit (SetFlag "loading" false)).

Definition fetchClientOrders (id : value) : M unit :=
  try_catch
    (r ← await [From "client_orders"; Select "*"; Eq "client_id" id;
                Order "order_date" false];
     throw_if_error r;;
     emit (SetRows "orders" (rows_or_empty r)))
    (λ error, console_error "Error fetching client orders:" error).

Definition fetchQuotesInvoices (id : value) : M unit :=
  try_catch
    (r ← await [From "quotes_invoices"; Select "*"; Eq "client_id" id;
                Order "issue_date" false];
     throw_if_error r;;
     emit (SetRows "quotesInvoices" (rows_or_empty r)))
    (λ error, console_error "Error fetching quotes and invoices:" error).

Definition fetchInterventions (id : value) : M unit :=
  try_catch
    (r ← await [From "interventions";
                Select "id,type,status,intervention_date,device:devices!inner(brand,model,client_id)";
                Eq "device.client_id" id; Order "intervention_date" false];
     throw_if_error r;;
     emit (SetRows "interventions" (rows_or_empty r)))
    (λ error, console_error "Error fetching interventions:" error).

Definition handleDelete (id : value) : M unit :=
  confirmed ← ask_confirm "Êtes-vous sûr de vouloir supprimer ce client ?";
  if negb confirmed then mret ()
  else
    try_catch
      (r ← await [From "clients"; Delete; Eq "id" id];
       throw_if_error r;;
       emit (Navigate "/clients"))
      (λ error, console_error "Error deleting client:" error).

End ClientDetail.

Module OperatorDetail.
Import JS Backend.

Definition fetchOperator (id : value) : M unit :=
  try_catch_finally
    ('(operatorResult, (devicesResult, interventionsResult)) ←
       both (await_single [From "operators"; Select "*"; Eq "id" id; Single])
         (both (await [From "devices"; Select "id, brand, model, category";
                       Eq "operator_id" id])
               (await [From "interventions";
                       Select "id,type,status,intervention_date,device:devices(brand,model)";
                       Eq "operator_id" id; Order "intervention_date" false]));
     throw_if_error operatorResult;;
     emit (SetRecord "operator" (data operatorResult));;
     emit (SetRows "devices" (rows_or_empty devicesResult));;
     emit (SetRows "interventions" (rows_or_empty interventionsResult)))
    (λ error, console_error "Error fetching operator:" error)
    (emit (SetFlag "loading" false)).

Definition handleDelete (id : value) : M unit :=
  confirmed ← ask_confirm "Êtes-vous sûr de vouloir supprimer cet opérateur ?";
  if negb confirmed then mret ()
  else
    try_catch
      (r ← await [From "operators"; Delete; Eq "id" id];
       throw_if_error r;;
       emit (Navigate "/operators"))
      (λ error, console_error "Error deleting operator:" error).

End OperatorDetail.

Module InterventionDetail.
Import JS Backend.

Definition fetchIntervention (id : value) : M unit :=
  try_catch_finally
    (r ← await_single
           [From "interventions";
            Select "*,device:devices(id,brand,model,category),operator:operators(id,full_name)";
            Eq "id" id; Single];
     throw_if_error r;;
     emit (SetRecord "intervention" (data r)))
    (λ error, console_error "Error fetching intervention:" error)
    (emit (SetFlag "loading" false)).

Definition handleDelete (id : value) : M unit :=
  confirmed ← ask_confirm "Êtes-vous sûr de vouloir supprimer cette intervention ?";
  if negb confirmed then mret ()
  else
    try_catch
      (r ← await [From "interventions"; Delete; Eq "id" id];
       throw_if_error r;;
       emit (Navigate "/interventions"))
      (λ error, console_error "Error deleting intervention:" error).

End InterventionDetail.

Module QuoteInvoiceDetail.
Import JS Backend.

Definition fetchQuoteInvoice (id : value) : M unit :=
  try_catch_finally
    (r ← await_single [From "quotes_invoices_with_relations"; Select "*"; Eq "id" id; Single];
     throw_if_error r;;
     emit (SetRecord "quoteInvoice" (data r)))
    (λ error, console_error "Error fetching quote/invoice:" error)
    (emit (SetFlag "loading" false)).

Definition handleDelete (id : value) : M unit :=
  confirmed ← ask_confirm "Êtes-vous sûr de vouloir supprimer ce document ?";
  if negb confirmed then mret ()
  else
    try_catch
      (r ← await [From "quotes_invoices"; Delete; Eq "id" id];
       throw_if_error r;;
       emit (Navigate "/quotes-invoices"))
      (λ error, console_error "Error deleting quote/invoice:" error).

End QuoteInvoiceDetail.

(** ** The form pages *)

Module DeviceForm.
Import JS Backend.

Definition empty_client_form : row :=
  [ ("name", VStr ""); ("first_name", VStr ""); ("company", VStr "");
    ("phone", VStr ""); ("email", VStr ""); ("address", VStr "");
    ("expectations", VStr ""); ("comments", VStr "") ].

Definition fetchClients : M unit :=
  try_catch
    (r ← await [From "clients"; Select "id, name, first_name, company"; Order "name" true];
     throw_if_error r;;
     emit (SetRows "clients" (rows_or_empty r)))
    (λ error, console_error "Error fetching clients:" error).

Definition fetchDevice (id : value) : M unit :=
  try_catch
    (r ← await_single [From "devices"; Select "*"; Eq "id" id; Single];
     throw_if_error r;;
     match data r with
     | Some d => emit (SetRecord "formData" (Some d))
     | None => mret ()
     end)
    (λ error,
       console_error "Error fetching device:" error;;
       emit (SetError (Some "Erreur lors du chargement de l'appareil"))).

Definition fetchDeviceFiles (id : value) : M unit :=
  if negb (truthy id) then mret ()
  else
    try_catch
      (r ← await [From "device_files"; Select "*"; Eq "device_id" id;
                  Order "created_at" false];
       throw_if_error r;;
       emit (SetRows "files" (rows_or_empty r)))
      (λ error, console_error "Error fetching device files:" error).

(** [`${id}/${file.name}`]. *)
Definition storage_path (js : runtime) (id : value) (file : row) : string :=
  to_string (source_tail js) id +:+ "/" +:+ to_string (source_tail js) (get file "name").

Definition handleFileUpload (js : runtime) (id : value) (file : option row) : M unit :=
  match file with
  | None => mret ()
  | Some file =>
      if negb (truthy id) then mret ()
      else
        emit (SetFlag "uploadingFile" true);;
        try_catch_finally
          (upload ← await_single [StorageFrom "device-files"; Upload (storage_path js id file)];
           throw_if_error upload;;
           r ← await
                 [From "device_files";
                  Insert [ ("device_id", parseInt js (to_string (source_tail js) id));
                           ("file_name", get file "name");
                           ("file_type", get file "type");
                           ("file_size", get file "size");
                           ("file_url",
                            or_else (from_option (λ d, get d "path") VUndef (data upload))
                                    (VStr (storage_path js id file))) ]];
           throw_if_error r;;
           detached (fetchDeviceFiles id))
          (λ error,
             console_error "Error uploading file:" error;;
             emit (SetError (Some "Erreur lors du téléchargement du fichier")))
          (emit (SetFlag "uploadingFile" false))
  end.

Definition handleDeleteFile (id fileId : value) : M unit :=
  confirmed ← ask_confirm "Êtes-vous sûr de vouloir supprimer ce fichier ?";
  if negb confirmed then mret ()
  else
    try_catch
      (fileData ← await_single [From "device_files"; Select "file_url"; Eq "id" fileId; Single];
       let file_url := from_option (λ d, get d "file_url") VUndef (data fileData) in
       (if truthy file_url
        then _ ← await [StorageFrom "device-files"; Remove [file_url]]; mret ()
        else mret ());;
       r ← await [From "device_files"; Delete; Eq "id" fileId];
       throw_if_error r;;
       detached (fetchDeviceFiles id))
      (λ error,
         console_error "Error deleting file:" error;;
         emit (SetError (Some "Erreur lors de la suppression du fichier"))).

Definition handleSaveClient (clientFormData : row) : M unit :=
  try_catch
    (r ← await_single [From "clients"; Insert clientFormData; Select "*"; Single];
     throw_if_error r;;
     fetchClients;;
     emit (SetDerived "formData");;
     emit (SetFlag "showClientForm" false);;
     emit (SetRecord "clientFormData" (Some empty_client_form)))
    (λ error,
       console_error "Error saving client:" error;;
       emit (SetError (Some "Erreur lors de l'enregistrement du client"))).

Definition handleDeleteClient (formData : row) : M unit :=
  if negb (truthy (get formData "client_id")) then mret ()
  else
    confirmed ← ask_confirm "Êtes-vous sûr de vouloir supprimer ce client ?";
    if negb confirmed then mret ()
    else
      try_catch
        (r ← await [From "clients"; Delete; Eq "id" (get formData "client_id")];
         throw_if_error r;;
         emit (SetDerived "formData");;
         fetchClients)
        (λ error,
           console_error "Error deleting client:" error;;
           emit (SetError (Some "Erreur lors de la suppression du client"))).

Definition handleSubmit (id : value) (formData : row) : M unit :=
  emit (SetFlag "loading" true);;
  emit (SetError None);;
  try_catch_finally
    ((if truthy id
      then r ← await [From "devices"; Update formData; Eq "id" id]; throw_if_error r
      else r ← await [From "devices"; Insert formData]; throw_if_error r);;
     emit (Navigate "/devices"))
    (λ error,
       console_error "Error saving device:" error;;
       emit (SetError (Some "Erreur lors de l'enregistrement")))
    (emit (SetFlag "loading" false)).

End DeviceForm.

Module InterventionForm.
Import JS Backend.

Definition empty_client_form : row :=
  [ ("name", VStr ""); ("first_name", VStr ""); ("company", VStr "");
    ("phone", VStr ""); ("email", VStr ""); ("address", VStr "");
    ("number", VStr ""); ("street", VStr ""); ("postal_code", VStr "");
    ("city", VStr ""); ("expectations", VStr ""); ("comments", VStr "") ].

Definition fetchDevices : M unit :=
  try_catch
    (r ← await [From "devices"; Select "id, brand, model"];
     throw_if_error r;;
     emit (SetRows "devices" (rows_or_empty r)))
    (λ error, console_error "Error fetching devices:" error).

Definition fetchOperators : M unit :=
  try_catch
    (r ← await [From "operators"; Select "id, full_name"];
     throw_if_error r;;
     emit (SetRows "operators" (rows_or_empty r)))
    (λ error, console_error "Error fetching operators:" error).

Definition fetchClients : M unit :=
  try_catch
    (r ← await [From "clients"; Select "id, name, first_name, company"; Order "name" true];
     throw_if_error r;;
     emit (SetRows "clients" (rows_or_empty r)))
    (λ error, console_error "Error fetching clients:" error).

(** [`${f.number} ${f.street}, ${f.postal_code} ${f.city}`.trim()]. *)
Definition full_address (js : runtime) (f : row) : string :=
  trim js
    (to_string (source_tail js) (get f "number") +:+ " "
     +:+ to_string (source_tail js) (get f "street") +:+ ", "
     +:+ to_string (source_tail js) (get f "postal_code") +:+ " "
     +:+ to_string (source_tail js) (get f "city")).

Definition handleSaveClient (js : runtime) (clientFormData : row) : M unit :=
  try_catch
    (let clientData :=
       spread_with clientFormData
         [ ("address", VStr (full_address js clientFormData));
           ("number", get clientFormData "number");
           ("street", get clientFormData "street");
           ("postal_code", get clientFormData "postal_code");
           ("city", get clientFormData "city") ] in
     r ← await_single [From "clients"; Insert clientData; Select "*"; Single];
     throw_if_error r;;
     fetchClients;;
     emit (SetFlag "showClientForm" false);;
     emit (SetRecord "clientFormData" (Some empty_client_form)))
    (λ error,
       console_error "Error saving client:" error;;
       emit (SetError (Some "Erreur lors de l'enregistrement du client"))).

Definition handleDeleteClient (clientId : value) : M unit :=
  confirmed ← ask_confirm "Êtes-vous sûr de vouloir supprimer ce client ?";
  if negb confirmed then mret ()
  else
    try_catch
      (r ← await [From "clients"; Delete; Eq "id" clientId];
       throw_if_error r;;
       fetchClients)
      (λ error,
         console_error "Error deleting client:" error;;
         emit (SetError (Some "Erreur lors de la suppression du client"))).

Definition fetchIntervention (id : value) : M unit :=
  try_catch
    (r ← await_single [From "interventions"; Select "*"; Eq "id" id; Single];
     throw_if_error r;;
     match data r with
     | Some d => emit (SetRecord "formData" (Some d))
     | None => mret ()
     end)
    (λ error,
       console_error "Error fetching intervention:" error;;
       emit (SetError (Some "Erreur lors du chargement de l'intervention"))).

Definition fetchInterventionFiles (id : value) : M unit :=
  if negb (truthy id) then mret ()
  else
    try_catch
      (r ← await [From "intervention_files"; Select "*"; Eq "intervention_id" id;
                  Order "created_at" false];
       throw_if_error r;;
       emit (SetRows "files" (rows_or_empty r)))
      (λ error, console_error "Error fetching intervention files:" error).

Definition handleFileUpload (js : runtime) (id : value) (file : option row) : M unit :=
  match file with
  | None => mret ()
  | Some file =>
      if negb (truthy id) then mret ()
      else
        emit (SetFlag "uploadingFile" true);;
        try_catch_finally
          (upload ← await_single
                      [StorageFrom "intervention-files";
                       Upload (DeviceForm.storage_path js id file)];
           throw_if_error upload;;
           r ← await
                 [From "intervention_files";
                  Insert [ ("intervention_id", parseInt js (to_string (source_tail js) id));
                           ("file_name", get file "name");
                           ("file_type", get file "type");
                           ("file_size", get file "size");
                           ("file_url", from_option (λ d, get d "path") VUndef (data upload)) ]];
           throw_if_error r;;
           detached (fetchInterventionFiles id))
          (λ error,
             console_error "Error uploading file:" error;;
             emit (SetError (Some "Erreur lors du téléchargement du fichier")))
          (emit (SetFlag "uploadingFile" false))
  end.

Definition handleDeleteFile (id fileId : value) : M unit :=
  confirmed ← ask_confirm "Êtes-vous sûr de vouloir supprimer ce fichier ?";
  if negb confirmed then mret ()
  else
    try_catch
      (_ ← await_single [From "intervention_files"; Select "file_url"; Eq "id" fileId; Single];
       r ← await [From "intervention_files"; Delete; Eq "id" fileId];
       throw_if_error r;;
       detached (fetchInterventionFiles id))
      (λ error,
         console_error "Error deleting file:" error;;
         emit (SetError (Some "Erreur lors de la suppression du fichier"))).

Definition handleSubmit (id : value) (formData : row) : M unit :=
  emit (SetFlag "loading" true);;
  emit (SetError None);;
  try_catch_finally
    ((if truthy id
      then r ← await [From "interventions"; Update formData; Eq "id" id]; throw_if_error r
      else r ← await [From "interventions"; Insert formData]; throw_if_error r);;
     emit (Navigate "/interventions"))
    (λ error,
       console_error "Error saving intervention:" error;;
       emit (SetError (Some "Erreur lors de l'enregistrement")))
    (emit (SetFlag "loading" false)).

End InterventionForm.

Module ClientForm.
Import JS Backend.

Definition fetchClient (id : value) : M unit :=
  try_catch
    (r ← await_single [From "clients"; Select "*"; Eq "id" id; Single];
     throw_if_error r;;
     match data r with
     | Some d =>
         emit (SetRecord "formData"
                 (Some (spread_with d
                          [ ("number", or_else (get d "number") (VStr ""));
                            ("street", or_else (get d "street") (VStr ""));
                            ("postal_code", or_else (get d "postal_code") (VStr ""));
                            ("city", or_else (get d "city") (VStr "")) ])))
     | None => mret ()
     end)
    (λ error,
       console_error "Error fetching client:" error;;
       emit (SetError (Some "Erreur lors du chargement du client"))).

Definition handleSubmit (js : runtime) (id : value) (formData : row) : M unit :=
  emit (SetFlag "loading" true);;
  emit (SetError None);;
  let submitData :=
    spread_with formData [("address", VStr (InterventionForm.full_address js formData))] in
  try_catch_finally
    ((if truthy id
      then r ← await [From "clients"; Update submitData; Eq "id" id]; throw_if_error r
      else r ← await [From "clients"; Insert submitData]; throw_if_error r);;
     emit (Navigate "/clients"))
    (λ error,
       console_error "Error saving client:" error;;
       emit (SetError (Some "Erreur lors de l'enregistrement")))
    (emit (SetFlag "loading" false)).

End ClientForm.

Module QuoteInvoiceForm.
Import JS Backend.

Definition fetchClients : M unit :=
  try_catch
    (r ← await [From "clients"; Select "id, name, first_name, company"; Order "name" true];
     throw_if_error r;;
     emit (SetRows "clients" (rows_or_empty r)))
    (λ error, console_error "Error fetching clients:" error).

Definition fetchQuoteInvoice (id : value) : M unit :=
  try_catch
    (r ← await_single [From "quotes_invoices"; Select "*"; Eq "id" id; Single];
     throw_if_error r;;
     match data r with
     | Some d =>
         emit (SetRecord "formData"
                 (Some (spread_with d
                          [ ("issue_date", or_else (get d "issue_date") (VStr ""));
                            ("payment_date", or_else (get d "payment_date") (VStr "")) ])))
     | None => mret ()
     end)
    (λ error,
       console_error "Error fetching quote/invoice:" error;;
       emit (SetError (Some "Erreur lors du chargement du document"))).

(** [`Erreur lors de l'enregistrement: ${error.message || 'Erreur inconnue'}`]. *)
Definition save_error_message (e : error) : string :=
  "Erreur lors de l'enregistrement: "
  +:+ (if String.eqb (message e) "" then "Erreur inconnue" else message e).

Definition handleSubmit (id : value) (formData : row) : M unit :=
  emit (SetFlag "loading" true);;
  emit (SetError None);;
  try_catch_finally
    (let submitData :=
       spread_with formData
         [("payment_date", or_else (get formData "payment_date") VNull)] in
     (if truthy id
      then r ← await [From "quotes_invoices"; Update submitData; Eq "id" id]; throw_if_error r
      else r ← await [From "quotes_invoices"; Insert submitData]; throw_if_error r);;
     emit (Navigate "/quotes-invoices"))
    (λ error,
       console_error "Error saving quote/invoice:" error;;
       emit (SetError (Some (save_error_message error))))
    (emit (SetFlag "loading" false)).

End QuoteInvoiceForm.

Module OperatorForm.
Import JS Backend.

Definition fetchOperator (id : value) : M unit :=
  try_catch
    (r ← await_single [From "operators"; Select "*"; Eq "id" id; Single];
     throw_if_error r;;
     match data r with
     | Some d => emit (SetRecord "formData" (Some d))
     | None => mret ()
     end)
    (λ error,
       console_error "Error fetching operator:" error;;
       emit (SetError (Some "Erreur lors du chargement de l'opérateur"))).

Definition handleSubmit (id : value) (formData : row) : M unit :=
  emit (SetFlag "loading" true);;
  emit (SetError None);;
  try_catch_finally
    ((if truthy id
      then r ← await [From "operators"; Update formData; Eq "id" id]; throw_if_error r
      else r ← await [From "operators"; Insert formData]; throw_if_error r);;
     emit (Navigate "/operators"))
    (λ error,
       console_error "Error saving operator:" error;;
       emit (SetError (Some "Erreur lors de l'enregistrement")))
    (emit (SetFlag "loading" false)).

End OperatorForm.

(** ** Every backend operation of the pages *)

Module Catalogue.
Import JS Backend.

(** An operation of a page, with what is to be checked about it: the label
    its [catch] block logs under, whether it inspects the [error] field of
    every response it awaits, and whether its [catch] block shows the user a
    message. *)
Record operation : Type :=
  { page : string;
    name : string;
    run_with : inputs → M unit;
    label : string;
    checks_all : bool;
    surfaces : bool }.

Definition op (page name : string) (run_with : inputs → M unit)
    (label : string) (checks_all surfaces : bool) : operation :=
  {| page := page; name := name; run_with := run_with; label := label;
     checks_all := checks_all; surfaces := surfaces |}.

Definition list_operations : list operation :=
  [ op "Devices" "fetchDevices" (λ _, Devices.fetchDevices)
       "Error fetching devices:" true false;
    op "Devices" "fetchOperators" (λ _, Devices.fetchOperators)
       "Error fetching operators:" true false;
    op "Devices" "fetchClients" (λ _, Devices.fetchClients)
       "Error fetching clients:" true false;
    op "Clients" "fetchClients" (λ _, Clients.fetchClients)
       "Error fetching clients:" true false;
    op "Clients" "fetchDevices" (λ _, Clients.fetchDevices)
       "Error fetching devices:" true false;
    op "Clients" "handleDelete" (λ i, Clients.handleDelete (clients i) (clientId i))
       "Error deleting client:" true true;
    op "QuotesInvoices" "fetchQuotesInvoices" (λ _, QuotesInvoices.fetchQuotesInvoices)
       "Error fetching quotes and invoices:" true false;
    op "Interventions" "fetchInterventions" (λ _, Interventions.fetchInterventions)
       "Error fetching interventions:" true false;
    op "Interventions" "fetchOperators" (λ _, Interventions.fetchOperators)
       "Error fetching operators:" true false;
    op "Interventions" "fetchClients" (λ _, Interventions.fetchClients)
       "Error fetching clients:" true false;
    op "Operators" "fetchOperators" (λ _, Operators.fetchOperators)
       "Error fetching operators:" false false;
    op "Dashboard" "fetchDashboardData" (λ _, Dashboard.fetchDashboardData)
       "Error fetching dashboard data:" false false;
    op "Dashboard" "performSearch" (λ i, Dashboard.performSearch (rt i) (searchTerm i))
       "Error performing search:" false false ].

Definition detail_operations : list operation :=
  [ op "DeviceDetail" "fetchDevice" (λ i, DeviceDetail.fetchDevice (id i))
       "Error fetching device:" false false;
    op "DeviceDetail" "handleDelete" (λ i, DeviceDetail.handleDelete (id i))
       "Error deleting device:" true false;
    op "ClientDetail" "fetchClient" (λ i, ClientDetail.fetchClient (id i))
       "Error fetching client:" true false;
    op "ClientDetail" "fetchClientOrders" (λ i, ClientDetail.fetchClientOrders (id i))
       "Error fetching client orders:" true false;
    op "ClientDetail" "fetchQuotesInvoices" (λ i, ClientDetail.fetchQuotesInvoices (id i))
       "Error fetching quotes and invoices:" true false;
    op "ClientDetail" "fetchInterventions" (λ i, ClientDetail.fetchInterventions (id i))
       "Error fetching interventions:" true false;
    op "ClientDetail" "handleDelete" (λ i, ClientDetail.handleDelete (id i))
       "Error deleting client:" true false;
    op "OperatorDetail" "fetchOperator" (λ i, OperatorDetail.fetchOperator (id i))
       "Error fetching operator:" false false;
    op "OperatorDetail" "handleDelete" (λ i, OperatorDetail.handleDelete (id i))
       "Error deleting operator:" true false;
    op "InterventionDetail" "fetchIntervention" (λ i, InterventionDetail.fetchIntervention (id i))
       "Error fetching intervention:" true false;
    op "InterventionDetail" "handleDelete" (λ i, InterventionDetail.handleDelete (id i))
       "Error deleting intervention:" true false;
    op "QuoteInvoiceDetail" "fetchQuoteInvoice" (λ i, QuoteInvoiceDetail.fetchQuoteInvoice (id i))
       "Error fetching quote/invoice:" true false;
    op "QuoteInvoiceDetail" "handleDelete" (λ i, QuoteInvoiceDetail.handleDelete (id i))
       "Error deleting quote/invoice:" true false ].

Definition form_operations : list operation :=
  [ op "DeviceForm" "fetchClients" (λ _, DeviceForm.fetchClients)
       "Error fetching clients:" true false;
    op "DeviceForm" "fetchDevice" (λ i, DeviceForm.fetchDevice (id i))
       "Error fetching device:" true true;
    op "DeviceForm" "fetchDeviceFiles" (λ i, DeviceForm.fetchDeviceFiles (id i))
       "Error fetching device files:" true false;
    op "DeviceForm" "handleFileUpload" (λ i, DeviceForm.handleFileUpload (rt i) (id i) (file i))
       "Error uploading file:" true true;
    op "DeviceForm" "handleDeleteFile" (λ i, DeviceForm.handleDeleteFile (id i) (fileId i))
       "Error deleting file:" false true;
    op "DeviceForm" "handleSaveClient" (λ i, DeviceForm.handleSaveClient (clientFormData i))
       "Error saving client:" true true;
    op "DeviceForm" "handleDeleteClient" (λ i, DeviceForm.handleDeleteClient (formData i))
       "Error deleting client:" true true;
    op "DeviceForm" "handleSubmit" (λ i, DeviceForm.handleSubmit (id i) (formData i))
       "Error saving device:" true true;
    op "InterventionForm" "fetchDevices" (λ _, InterventionForm.fetchDevices)
       "Error fetching devices:" true false;
    op "InterventionForm" "fetchOperators" (λ _, InterventionForm.fetchOperators)
       "Error fetching operators:" true false;
    op "InterventionForm" "fetchClients" (λ _, InterventionForm.fetchClients)
       "Error fetching clients:" true false;
    op "InterventionForm" "handleSaveClient"
       (λ i, InterventionForm.handleSaveClient (rt i) (clientFormData i))
       "Error saving client:" true true;
    op "InterventionForm" "handleDeleteClient"
       (λ i, InterventionForm.handleDeleteClient (clientId i))
       "Error deleting client:" true true;
    op "InterventionForm" "fetchIntervention" (λ i, InterventionForm.fetchIntervention (id i))
       "Error fetching intervention:" true true;
    op "InterventionForm" "fetchInterventionFiles"
       (λ i, InterventionForm.fetchInterventionFiles (id i))
       "Error fetching intervention files:" true false;
    op "InterventionForm" "handleFileUpload"
       (λ i, InterventionForm.handleFileUpload (rt i) (id i) (file i))
       "Error uploading file:" true true;
    op "InterventionForm" "handleDeleteFile"
       (λ i, InterventionForm.handleDeleteFile (id i) (fileId i))
       "Error deleting file:" false true;
    op "InterventionForm" "handleSubmit" (λ i, InterventionForm.handleSubmit (id i) (formData i))
       "Error saving intervention:" true true;
    op "ClientForm" "fetchClient" (λ i, ClientForm.fetchClient (id i))
       "Error fetching client:" true true;
    op "ClientForm" "handleSubmit" (λ i, ClientForm.handleSubmit (rt i) (id i) (formData i))
       "Error saving client:" true true;
    op "QuoteInvoiceForm" "fetchClients" (λ _, QuoteInvoiceForm.fetchClients)
       "Error fetching clients:" true false;
    op "QuoteInvoiceForm" "fetchQuoteInvoice" (λ i, QuoteInvoiceForm.fetchQuoteInvoice (id i))
       "Error fetching quote/invoice:" true true;
    op "QuoteInvoiceForm" "handleSubmit" (λ i, QuoteInvoiceForm.handleSubmit (id i) (formData i))
       "Error saving quote/invoice:" true true;
    op "OperatorForm" "fetchOperator" (λ i, OperatorForm.fetchOperator (id i))
       "Error fetching operator:" true true;
    op "OperatorForm" "handleSubmit" (λ i, OperatorForm.handleSubmit (id i) (formData i))
       "Error saving operator:" true true ].

Definition operations : list operation :=
  list_operations ++ detail_operations ++ form_operations.

(** What can be read off a trace. *)
Definition is_failed (ev : event) : bool :=
  match ev with
  | Called _ (ReturnedError _) | Called _ (Rejected _) => true
  | _ => false
  end.

Definition is_log (ev : event) : bool :=
  match ev with ConsoleError _ _ => true | _ => false end.

Definition is_log_under (label : string) (ev : event) : bool :=
  match ev with ConsoleError l _ => String.eqb l label | _ => false end.

Definition is_message (ev : event) : bool :=
  match ev with
  | Alert _ | SetError (Some _) => true
  | _ => false
  end.

(** Some query came back with an error or rejected. *)
Definition any_failed (t : trace) : bool := existsb is_failed t.
(** [console.error] was called. *)
Definition logged (t : trace) : bool := existsb is_log t.
Definition logged_under (label : string) (t : trace) : bool :=
  existsb (is_log_under label) t.
(** The user was shown a message: an alert or the error banner. *)
Definition shows_message (t : trace) : bool := existsb is_message t.

Definition returned {A} (o : outcome A) : bool :=
  match o with Returned _ => true | Threw _ => false end.

(** The error-handling contract of one run of an operation. *)
Definition handled (o : operation) (result : outcome unit * trace) : bool :=
  let t := result.2 in
  returned result.1
  && implb (logged t) (any_failed t)
  && implb (checks_all o) (implb (any_failed t) (logged t))
  && implb (shows_message t) (surfaces o)
  && implb (surfaces o) (implb (logged_under (label o) t) (shows_message t)).

End Catalogue.

(** ** Properties of the list pages *)

Module ListPageFacts.
Import JS Backend.

(** The error a settled query carries, if any: the rejection reason or the
    [error] field of the response. *)
Definition failure_of {D} (s : settled D) : option error :=
  match s with
  | RejectedWith e => Some e
  | Fulfilled r => error_of r
  end.

(** The rows of a settled query, [[]] when there are none. *)
Definition rows_of (s : settled (list row)) : list row :=
  match s with
  | Fulfilled r => rows_or_empty r
  | RejectedWith _ => []
  end.

Ltac run_op :=
  unfold run, try_catch, try_catch_finally, detached, await, await_single, settle,
    throw_if_error, console_error, emit, throw, ask_confirm,
    mbind, mret, M_bind, M_ret, bind, ret, failure_of, rows_of, answer_of;
  simpl.

(** What [fetchDevices] does, for every backend. *)
Lemma fetchDevices_trace (w : env) :
  run Devices.fetchDevices w =
  (Returned (),
   match failure_of (backend w Devices.devices_view) with
   | None =>
       [Called Devices.devices_view Succeeded;
        SetRows "devices" (rows_of (backend w Devices.devices_view));
        SetFlag "loading" false]
   | Some e =>
       [Called Devices.devices_view (answer_of (backend w Devices.devices_view));
        ConsoleError "Error fetching devices:" e;
        Called Devices.devices_table (answer_of (backend w Devices.devices_table))] ++
       match failure_of (backend w Devices.devices_table) with
       | None =>
           [SetRows "devices"
              (List.map Devices.with_defaults (rows_of (backend w Devices.devices_table)))]
       | Some e' => [ConsoleError "Fallback error:" e'; SetRows "devices" []]
       end ++ [SetFlag "loading" false]
   end).
Proof.
  unfold Devices.fetchDevices. run_op.
  destruct (backend w Devices.devices_view) as [[d [e|] c]|e]; simpl; try done;
    destruct (backend w Devices.devices_table) as [[d' [e'|] c']|e']; by simpl.
Qed.

Lemma fetchClients_trace (w : env) :
  run Clients.fetchClients w =
  (Returned (),
   match failure_of (backend w Clients.clients_view) with
   | None =>
       [Called Clients.clients_view Succeeded;
        SetRows "clients" (rows_of (backend w Clients.clients_view));
        SetFlag "loading" false]
   | Some e =>
       [Called Clients.clients_view (answer_of (backend w Clients.clients_view));
        ConsoleError "Error fetching clients:" e;
        Called Clients.clients_table (answer_of (backend w Clients.clients_table))] ++
       match failure_of (backend w Clients.clients_table) with
       | None => [SetRows "clients" (rows_of (backend w Clients.clients_table))]
       | Some e' => [ConsoleError "Fallback error:" e'; SetRows "clients" []]
       end ++ [SetFlag "loading" false]
   end).
Proof.
  unfold Clients.fetchClients. run_op.
  destruct (backend w Clients.clients_view) as [[d [e|] c]|e]; simpl; try done;
    destruct (backend w Clients.clients_table) as [[d' [e'|] c']|e']; by simpl.
Qed.

Lemma fetchQuotesInvoices_trace (w : env) :
  run QuotesInvoices.fetchQuotesInvoices w =
  (Returned (),
   match failure_of (backend w QuotesInvoices.quotes_invoices_view) with
   | None =>
       [Called QuotesInvoices.quotes_invoices_view Succeeded;
        SetRows "quotesInvoices" (rows_of (backend w QuotesInvoices.quotes_invoices_view));
        SetFlag "loading" false]
   | Some e =>
       [Called QuotesInvoices.quotes_invoices_view
          (answer_of (backend w QuotesInvoices.quotes_invoices_view));
        ConsoleError "Error fetching quotes and invoices:" e;
        SetFlag "loading" false]
   end).
Proof.
  unfold QuotesInvoices.fetchQuotesInvoices. run_op.
  by destruct (backend w QuotesInvoices.quotes_invoices_view) as [[d [e|] c]|e].
Qed.

Lemma fetchInterventions_trace (w : env) :
  run Interventions.fetchInterventions w =
  (Returned (),
   match failure_of (backend w Interventions.interventions_joined) with
   | None =>
       [Called Interventions.interventions_joined Succeeded;
        SetRows "interventions"
          (List.map Interventions.flatten
             (rows_of (backend w Interventions.interventions_joined)));
        SetFlag "loading" false]
   | Some e =>
       [Called Interventions.interventions_joined
          (answer_of (backend w Interventions.interventions_joined));
        ConsoleError "Error fetching interventions:" e;
        SetRows "interventions" [];
        SetFlag "loading" false]
   end).
Proof.
  unfold Interventions.fetchInterventions. run_op.
  by destruct (backend w Interventions.interventions_joined) as [[d [e|] c]|e].
Qed.

(** The queries a trace sent, in order. *)
Definition queries_sent (t : trace) : list query :=
  omap (λ ev, match ev with Called q _ => Some q | _ => None end) t.

(** The [order] calls of a query. *)
Definition ordering (q : query) : list call :=
  List.filter (λ c, match c with Order _ _ => true | _ => false end) q.

(** On the Devices and Clients pages a failing view query is followed by the
    query on the base table, ordered the same way, whose rows become the
    list. *)
Lemma view_failure_falls_back (w : env) (e : error) (current : list row) :
  (failure_of (backend w Devices.devices_view) = Some e →
   failure_of (backend w Devices.devices_table) = None →
   queries_sent (run Devices.fetchDevices w).2
   = [Devices.devices_view; Devices.devices_table] ∧
   rows_after "devices" current (run Devices.fetchDevices w).2
   = List.map Devices.with_defaults (rows_of (backend w Devices.devices_table)))
  ∧ (failure_of (backend w Clients.clients_view) = Some e →
     failure_of (backend w Clients.clients_table) = None →
     queries_sent (run Clients.fetchClients w).2
     = [Clients.clients_view; Clients.clients_table] ∧
     rows_after "clients" current (run Clients.fetchClients w).2
     = rows_of (backend w Clients.clients_table))
  ∧ ordering Devices.devices_table = ordering Devices.devices_view
  ∧ ordering Clients.clients_table = ordering Clients.clients_view.
Proof.
  rewrite fetchDevices_trace, fetchClients_trace.
  split; [|split; [|done]]; by intros -> ->.
Qed.

(** [fetchQuotesInvoices] sends one query only, whatever the backend
    answers. *)
Lemma fetchQuotesInvoices_single_query (w : env) :
  queries_sent (run QuotesInvoices.fetchQuotesInvoices w).2
  = [QuotesInvoices.quotes_invoices_view].
Proof. rewrite fetchQuotesInvoices_trace. simpl. by destruct (failure_of _). Qed.

Definition relation_missing : error :=
  {| message := "relation does not exist" |}.

(** A backend in which no convenience view exists (a query on a relation
    named [..._with_...] returns an error) and every base table holds
    [base]. *)
Definition without_views (base : list row) : env :=
  {| backend := λ q,
       match q with
       | From relation :: _ =>
           if includes relation "_with_"
           then Fulfilled {| data := None; error_of := Some relation_missing; count := None |}
           else Fulfilled {| data := Some base; error_of := None; count := None |}
       | _ => RejectedWith {| message := "malformed query" |}
       end;
     backend_single := λ _, RejectedWith {| message := "not used" |};
     confirm := λ _, true |}.

(** C4 (the code departs from the claim).  When the views are unavailable,
    the quotes and invoices page logs the error and stops: it sends no query
    to the base table and its list keeps the value it had, while the Devices
    and Clients pages, in the same situation, load their lists from the base
    tables. *)
Theorem fetchQuotesInvoices_no_fallback (base current : list row) :
  run QuotesInvoices.fetchQuotesInvoices (without_views base)
  = (Returned (),
     [Called QuotesInvoices.quotes_invoices_view (ReturnedError relation_missing);
      ConsoleError "Error fetching quotes and invoices:" relation_missing;
      SetFlag "loading" false])
  ∧ rows_after "quotesInvoices" current
      (run QuotesInvoices.fetchQuotesInvoices (without_views base)).2 = current
  ∧ rows_after "devices" current (run Devices.fetchDevices (without_views base)).2
    = List.map Devices.with_defaults base
  ∧ rows_after "clients" current (run Clients.fetchClients (without_views base)).2
    = base.
Proof.
  rewrite fetchQuotesInvoices_trace, fetchDevices_trace, fetchClients_trace.
  by repeat split.
Qed.

(** The dashboard's own fallback runs when the promise of the view query
    rejects, not when it is fulfilled with an error: without the views it
    sends no query to the base table [devices]. *)
Lemma dashboard_fallback_not_taken (base : list row) :
  queries_sent (run Dashboard.fetchDashboardData (without_views base)).2
  = [ [From "devices_with_relations"; Select "*"];
      [From "interventions"; Select "*"];
      [From "clients"; SelectCount "id"];
      [From "interventions"; Select "type"];
      [From "interventions"; Select "status"];
      [From "devices_with_relations"; Select "*"; Order "entry_date" false; Limit 5];
      [From "interventions"; Select "*,device:devices(*),operator:operators(*)";
       Order "intervention_date" false; Limit 5] ].
Proof. reflexivity. Qed.

(** A change subscription of a list page: channel, table, handler, and the
    list it serves (its fetch function, its list query, its state). *)
Record subscription : Type :=
  { channel : string;
    table : string;
    handler : value → M unit;
    refetch : M unit;
    list_query : query;
    list_state : string }.

Definition list_subscriptions : list subscription :=
  [ {| channel := "devices_changes"; table := "devices";
       handler := Devices.on_change; refetch := Devices.fetchDevices;
       list_query := Devices.devices_view; list_state := "devices" |};
    {| channel := "interventions_changes"; table := "interventions";
       handler := Interventions.on_change; refetch := Interventions.fetchInterventions;
       list_query := Interventions.interventions_joined; list_state := "interventions" |};
    {| channel := "quotes_invoices_changes"; table := "quotes_invoices";
       handler := QuotesInvoices.on_change; refetch := QuotesInvoices.fetchQuotesInvoices;
       list_query := QuotesInvoices.quotes_invoices_view; list_state := "quotesInvoices" |} ].

(** State-changing events. *)
Definition is_set (ev : event) : bool :=
  match ev with
  | SetRows _ _ | SetRecord _ _ | SetFlag _ _ | SetError _ | SetDerived _ => true
  | _ => false
  end.

(** C6.  On each of the three table channels the handler, whatever the
    payload, runs the page's list fetch and nothing else that touches the
    state: the full list query is sent again, the list ends up as the fetch
    leaves it, and two payloads lead to the same list. *)
Theorem change_notification_refetches :
  Forall
    (λ s, ∀ (payload : value) (w : env) (current : list row),
       (run (handler s payload) w).1 = Returned ()
       ∧ (∃ before, (run (handler s payload) w).2 = before ++ (run (refetch s) w).2
                    ∧ forallb (λ ev, negb (is_set ev)) before = true)
       ∧ list_query s ∈ queries_sent (run (handler s payload) w).2
       ∧ rows_after (list_state s) current (run (handler s payload) w).2
         = rows_after (list_state s) current (run (refetch s) w).2
       ∧ (∀ payload', rows_after (list_state s) current (run (handler s payload) w).2
          = rows_after (list_state s) current (run (handler s payload') w).2))
    list_subscriptions.
Proof.
  unfold list_subscriptions.
  repeat (apply Forall_cons; split); [| | |done];
    cbn [handler refetch list_query list_state]; intros payload w current;
    (split; [reflexivity|]).
  - split; [by exists [ConsoleLog "Changement détecté:" payload]|].
    split; [|split; [reflexivity|intros payload'; reflexivity]].
    change (run (Devices.on_change payload) w).2
      with (ConsoleLog "Changement détecté:" payload :: (run Devices.fetchDevices w).2).
    rewrite fetchDevices_trace. cbn [snd].
    destruct (failure_of _); simpl; [|apply list_elem_of_here].
    destruct (failure_of _); apply list_elem_of_here.
  - split; [by exists []|].
    split; [|split; [reflexivity|intros payload'; reflexivity]].
    change (run (Interventions.on_change payload) w).2
      with (run Interventions.fetchInterventions w).2.
    rewrite fetchInterventions_trace. cbn [snd].
    destruct (failure_of _); apply list_elem_of_here.
  - split; [by exists []|].
    split; [|split; [reflexivity|intros payload'; reflexivity]].
    change (run (QuotesInvoices.on_change payload) w).2
      with (run QuotesInvoices.fetchQuotesInvoices w).2.
    rewrite fetchQuotesInvoices_trace. cbn [snd].
    destruct (failure_of _); apply list_elem_of_here.
Qed.

(** The operators page and the dashboard subscribe in the same way: their
    handlers run the page's fetch and ignore the payload. *)
Lemma other_handlers_refetch (payload : value) (w : env) :
  run (Operators.on_change payload) w = (Returned (), (run Operators.fetchOperators w).2)
  ∧ run (Dashboard.on_change payload) w
    = (Returned (), (run Dashboard.fetchDashboardData w).2).
Proof. done. Qed.

Lemma List_filter_sublist {A} (f : A → bool) (l : list A) :
  sublist (List.filter f l) l.
Proof.
  induction l as [|x l IH]; simpl; [constructor|].
  destruct (f x); by constructor.
Qed.

(** C9.  Deleting a client on the list page: when the user confirms and the
    backend delete succeeds, the new list is the list the handler held with
    the entries whose id is the deleted id removed, the others kept in
    order; when the delete returns an error (or rejects) the list is not
    written and an alert is shown; when the user declines nothing happens. *)
Theorem handleDelete_list_update (w : env) (clients : list row) (id : value) :
  let question := "Êtes-vous sûr de vouloir supprimer ce client ?" in
  let effects := (run (Clients.handleDelete clients id) w).2 in
  let kept := List.filter (λ client, negb (strict_eq (get client "id") id)) clients in
  (run (Clients.handleDelete clients id) w).1 = Returned ()
  ∧ (confirm w question = true →
     failure_of (backend w (Clients.delete_client id)) = None →
     effects = [Called (Clients.delete_client id) Succeeded; SetRows "clients" kept]
     ∧ rows_after "clients" clients effects = kept)
  ∧ (∀ e, confirm w question = true →
     failure_of (backend w (Clients.delete_client id)) = Some e →
     effects = [Called (Clients.delete_client id)
                  (answer_of (backend w (Clients.delete_client id)));
                ConsoleError "Error deleting client:" e;
                Alert "Erreur lors de la suppression du client"]
     ∧ rows_after "clients" clients effects = clients)
  ∧ (confirm w question = false → effects = [])
  ∧ sublist kept clients
  ∧ (∀ client, client ∈ kept ↔ client ∈ clients ∧ strict_eq (get client "id") id = false).
Proof.
  intros question effects kept. subst effects.
  assert (Hkept : sublist kept clients
    ∧ (∀ client, client ∈ kept ↔ client ∈ clients ∧ strict_eq (get client "id") id = false)).
  { split; [apply List_filter_sublist|].
    intros client. unfold kept.
    rewrite !list_elem_of_In, filter_In, negb_true_iff. tauto. }
  unfold Clients.handleDelete. run_op. fold question. fold kept.
  destruct (confirm w question); simpl.
  - destruct (backend w (Clients.delete_client id)) as [[d [e|] c]|e]; simpl;
      (split; [done|]); (split; [by intros _ ?|]);
      (split; [by intros e0 _ [= <-] || by intros e0 _ ?|]); (split; [done|]);
      exact Hkept.
  - by repeat (split; [done|]).
Qed.

End ListPageFacts.

(** ** Error handling of the operations *)

Module ErrorHandling.
Import JS Backend Catalogue.

(** *** Computations that neither log nor show anything *)

(** A computation is quiet when it leaves no log and no message, and throws
    only after a query of its own failed. *)
Definition quiet {A} (m : M A) : Prop :=
  ∀ w, logged (m w).2 = false
       ∧ shows_message (m w).2 = false
       ∧ (returned (m w).1 = false → any_failed (m w).2 = true).

(** A computation is calm when, besides, it returns and sends nothing that
    fails. *)
Definition calm (m : M unit) : Prop :=
  ∀ w, (m w).1 = Returned ()
       ∧ logged (m w).2 = false
       ∧ shows_message (m w).2 = false
       ∧ any_failed (m w).2 = false.

Lemma existsb_app_false {A} (f : A → bool) l1 l2 :
  existsb f l1 = false → existsb f l2 = false → existsb f (l1 ++ l2) = false.
Proof. intros H1 H2. by rewrite existsb_app, H1, H2. Qed.

Lemma quiet_ret {A} (a : A) : quiet (mret a).
Proof. by intros w. Qed.

Lemma quiet_emit ev :
  is_log ev = false → is_message ev = false → quiet (emit ev).
Proof.
  intros Hl Hm w. unfold logged, shows_message. simpl. by rewrite Hl, Hm.
Qed.

Lemma quiet_await q : quiet (await q).
Proof. intros w. unfold await, settle. by destruct (backend w q) as [[d [e|] c]|e]. Qed.

Lemma quiet_bind {A B} (m : M A) (k : A → M B) :
  quiet m → (∀ a, quiet (k a)) → quiet (m ≫= k).
Proof.
  intros Hm Hk w. destruct (Hm w) as (Hl & Hs & Hf).
  unfold mbind, M_bind, bind. destruct (m w) as [[a|e] t]; simpl in *.
  - destruct (Hk a w) as (Hl' & Hs' & Hf').
    destruct (k a w) as [o t']; simpl in *.
    unfold logged, shows_message, any_failed in *.
    rewrite !existsb_app, Hl, Hs, Hl', Hs'. repeat split; try done.
    intros Ho. by rewrite (Hf' Ho), orb_true_r.
  - done.
Qed.

Lemma quiet_both {A B} (m1 : M A) (m2 : M B) :
  quiet m1 → quiet m2 → quiet (both m1 m2).
Proof.
  intros H1 H2 w. destruct (H1 w) as (Hl & Hs & Hf), (H2 w) as (Hl' & Hs' & Hf').
  unfold both. destruct (m1 w) as [o1 t1], (m2 w) as [o2 t2]; simpl in *.
  unfold logged, shows_message, any_failed in *.
  rewrite !existsb_app, Hl, Hs, Hl', Hs'. repeat split; try done.
  destruct o1, o2; simpl; intros Ho; try done;
    rewrite ?(Hf eq_refl), ?(Hf' eq_refl); by rewrite ?orb_true_r.
Qed.

Lemma quiet_promise_all {A} (ms : list (M A)) :
  Forall quiet ms → quiet (promise_all ms).
Proof.
  induction 1 as [|m ms Hm _ IH]; [by intros w|].
  intros w. destruct (quiet_both _ _ Hm IH w) as (Hl & Hs & Hf).
  cbn [promise_all]. destruct (both m (promise_all ms) w) as [[[a l]|e] t]; by simpl in *.
Qed.

Lemma quiet_recover {A} (m alternative : M A) :
  quiet m → quiet alternative → quiet (recover m alternative).
Proof.
  intros H1 H2 w. destruct (H1 w) as (Hl & Hs & Hf), (H2 w) as (Hl' & Hs' & Hf').
  unfold recover. destruct (m w) as [[a|e] t1]; simpl in *; [done|].
  destruct (alternative w) as [o t2]; simpl in *.
  unfold logged, shows_message, any_failed in *.
  rewrite !existsb_app, Hl, Hs, Hl', Hs'. repeat split; try done.
  intros _. by rewrite (Hf eq_refl).
Qed.

Lemma calm_emit ev :
  is_log ev = false → is_message ev = false → is_failed ev = false → calm (emit ev).
Proof.
  intros Hl Hm Hf w. unfold logged, shows_message, any_failed. simpl.
  by rewrite Hl, Hm, Hf.
Qed.

Lemma calm_bind (m : M unit) (k : unit → M unit) :
  calm m → (∀ a, calm (k a)) → calm (m ≫= k).
Proof.
  intros Hm Hk w. destruct (Hm w) as (Ho & Hl & Hs & Hf).
  unfold mbind, M_bind, bind. destruct (m w) as [o t]; simpl in *. subst o.
  destruct (Hk () w) as (Ho' & Hl' & Hs' & Hf').
  destruct (k () w) as [o' t']; simpl in *.
  unfold logged, shows_message, any_failed in *.
  by rewrite !existsb_app, Hl, Hs, Hf, Hl', Hs', Hf'.
Qed.

Lemma calm_ret : calm (mret ()).
Proof. by intros w. Qed.

(** A [catch] block that logs, shows nothing and does not throw. *)
Definition logs_only (handler : error → M unit) : Prop :=
  ∀ e w, (handler e w).1 = Returned ()
         ∧ logged (handler e w).2 = true
         ∧ shows_message (handler e w).2 = false.

(** A checked query followed by quiet code is quiet: the error that
    [throw_if_error] throws is the one the query came back with. *)
Lemma quiet_await_checked {B} q (k : response (list row) → M B) :
  (∀ r, quiet (k r)) → quiet (r ← await q; throw_if_error r;; k r).
Proof.
  intros Hk w. unfold mbind, M_bind, bind, await, settle, throw_if_error.
  destruct (backend w q) as [[d [e|] c]|e]; simpl; try done.
  destruct (Hk {| data := d; error_of := None; count := c |} w) as (Hl & Hm & Hf).
  destruct (k _ w) as [o t]; simpl in *. by repeat split.
Qed.

(** A quiet [try] block whose [catch] only logs, with a calm [finally],
    meets the contract of an operation that shows no message. *)
Lemma handled_quiet_try (o : operation) (body : M unit)
    (handler : error → M unit) (finalizer : M unit) (w : env) :
  surfaces o = false → checks_all o = false →
  quiet body → logs_only handler → calm finalizer →
  handled o (try_catch_finally body handler finalizer w) = true.
Proof.
  intros Hs Hc Hbody Hhandler Hfin.
  destruct (Hbody w) as (Hl & Hm & Hf).
  destruct (Hfin w) as (Ho2 & Hl2 & Hm2 & Hf2).
  unfold handled, try_catch_finally. rewrite Hs, Hc.
  destruct (body w) as [[[]|e] t]; simpl in *.
  - destruct (finalizer w) as [ofin tf]; simpl in *; subst.
    unfold logged, shows_message, any_failed in *.
    by rewrite !existsb_app, Hl, Hm, Hl2, Hm2.
  - destruct (Hhandler e w) as (Ho1 & Hl1 & Hm1).
    destruct (handler e w) as [oh th]; destruct (finalizer w) as [ofin tf];
      simpl in *; subst.
    unfold logged, shows_message, any_failed in *.
    rewrite !existsb_app, (Hf eq_refl), Hm, Hm1, Hm2. simpl.
    by destruct (_ || _).
Qed.

(** *** The operations, one by one *)

Definition meets_contract (o : operation) : Prop :=
  ∀ (i : inputs) (w : env), handled o (run (run_with o i) w) = true.

Lemma with_counts_quiet operator : quiet (Operators.with_counts operator).
Proof.
  unfold Operators.with_counts.
  apply quiet_bind; [apply quiet_both; apply quiet_await|].
  intros [devicesResult interventionsResult]. apply quiet_ret.
Qed.

Lemma fetchOperators_handled :
  meets_contract
    (op "Operators" "fetchOperators" (λ _, Operators.fetchOperators)
        "Error fetching operators:" false false).
Proof.
  intros i w. apply handled_quiet_try; [done|done| |done|by apply calm_emit].
  apply quiet_await_checked. intros r.
  apply quiet_bind.
  - apply quiet_promise_all, Forall_forall. intros m Hm.
    apply list_elem_of_In, in_map_iff in Hm as [operator [<- _]].
    apply with_counts_quiet.
  - intros rows. by apply quiet_emit.
Qed.

Lemma fetchDashboardData_handled :
  meets_contract
    (op "Dashboard" "fetchDashboardData" (λ _, Dashboard.fetchDashboardData)
        "Error fetching dashboard data:" false false).
Proof.
  intros i w. apply handled_quiet_try; [done|done| |done|by apply calm_emit].
  unfold Dashboard.reset_data.
  repeat (apply quiet_bind; [by apply quiet_emit|intros _]).
  apply quiet_bind.
  - apply quiet_promise_all.
    repeat first [apply Forall_nil_2 | apply Forall_cons_2];
      first [apply quiet_await | apply quiet_recover; apply quiet_await].
  - intros results.
    do 7 (destruct results as [|? results]; [apply quiet_ret|]).
    destruct results; [|apply quiet_ret].
    repeat (apply quiet_bind; [by apply quiet_emit|intros _]).
    by apply quiet_emit.
Qed.

Ltac unfold_monad :=
  cbv beta delta [run try_catch try_catch_finally detached await await_single settle
    throw_if_error console_error emit throw ask_confirm both promise_all recover
    mbind mret M_bind M_ret bind ret handled op
    page name run_with label checks_all surfaces].

Ltac case_step :=
  match goal with
  | |- context [backend ?w ?q] => destruct (backend w q) as [[? [?|] ?]|?]
  | |- context [backend_single ?w ?q] => destruct (backend_single w q) as [[[?|] [?|] ?]|?]
  | |- context [confirm ?w ?q] => destruct (confirm w q)
  | |- context [truthy ?v] => destruct (truthy v)
  | |- context [match file ?i with _ => _ end] => destruct (file i)
  | |- context [String.eqb (searchTerm ?i) ?s] => destruct (String.eqb (searchTerm i) s)
  end.

(** Case analysis on every answer of the backend and of the user. *)
Ltac by_cases := intros i w; unfold_monad; cbn; repeat (case_step; cbn); reflexivity.

Ltac each_operation tac :=
  repeat first [apply Forall_nil_2 | apply Forall_cons_2]; tac.

Lemma list_operations_handled : Forall meets_contract list_operations.
Proof.
  unfold list_operations.
  each_operation ltac:(first
    [ exact fetchOperators_handled
    | exact fetchDashboardData_handled
    | cbv delta [Devices.fetchDevices Devices.fetchOperators Devices.fetchClients
        Clients.fetchClients Clients.fetchDevices Clients.handleDelete
        QuotesInvoices.fetchQuotesInvoices Interventions.fetchInterventions
        Interventions.fetchOperators Interventions.fetchClients
        Dashboard.performSearch meets_contract]; by_cases ]).
Qed.

Lemma detail_operations_handled : Forall meets_contract detail_operations.
Proof.
  unfold detail_operations.
  each_operation ltac:(
    cbv delta [DeviceDetail.fetchDevice DeviceDetail.handleDelete
      ClientDetail.fetchClient ClientDetail.fetchClientOrders
      ClientDetail.fetchQuotesInvoices ClientDetail.fetchInterventions
      ClientDetail.handleDelete OperatorDetail.fetchOperator OperatorDetail.handleDelete
      InterventionDetail.fetchIntervention InterventionDetail.handleDelete
      QuoteInvoiceDetail.fetchQuoteInvoice QuoteInvoiceDetail.handleDelete
      meets_contract]; by_cases).
Qed.

Lemma form_operations_handled : Forall meets_contract form_operations.
Proof.
  unfold form_operations.
  each_operation ltac:(
    cbv delta [DeviceForm.fetchClients DeviceForm.fetchDevice DeviceForm.fetchDeviceFiles
      DeviceForm.handleFileUpload DeviceForm.handleDeleteFile DeviceForm.handleSaveClient
      DeviceForm.handleDeleteClient DeviceForm.handleSubmit
      InterventionForm.fetchDevices InterventionForm.fetchOperators
      InterventionForm.fetchClients InterventionForm.handleSaveClient
      InterventionForm.handleDeleteClient InterventionForm.fetchIntervention
      InterventionForm.fetchInterventionFiles InterventionForm.handleFileUpload
      InterventionForm.handleDeleteFile InterventionForm.handleSubmit
      ClientForm.fetchClient ClientForm.handleSubmit
      QuoteInvoiceForm.fetchClients QuoteInvoiceForm.fetchQuoteInvoice
      QuoteInvoiceForm.handleSubmit OperatorForm.fetchOperator OperatorForm.handleSubmit
      meets_contract]; by_cases).
Qed.

Lemma operations_handled : Forall meets_contract operations.
Proof.
  unfold operations. rewrite !Forall_app.
  split; [apply list_operations_handled|].
  split; [apply detail_operations_handled|apply form_operations_handled].
Qed.

(** The operations whose [catch] block shows the user a message. *)
Definition surfacing : list (string * string) :=
  [ ("Clients", "handleDelete");
    ("DeviceForm", "fetchDevice"); ("DeviceForm", "handleFileUpload");
    ("DeviceForm", "handleDeleteFile"); ("DeviceForm", "handleSaveClient");
    ("DeviceForm", "handleDeleteClient"); ("DeviceForm", "handleSubmit");
    ("InterventionForm", "handleSaveClient"); ("InterventionForm", "handleDeleteClient");
    ("InterventionForm", "fetchIntervention"); ("InterventionForm", "handleFileUpload");
    ("InterventionForm", "handleDeleteFile"); ("InterventionForm", "handleSubmit");
    ("ClientForm", "fetchClient"); ("ClientForm", "handleSubmit");
    ("QuoteInvoiceForm", "fetchQuoteInvoice"); ("QuoteInvoiceForm", "handleSubmit");
    ("OperatorForm", "fetchOperator"); ("OperatorForm", "handleSubmit") ].

(** The operations that await a response without reading its [error]
    field. *)
Definition unchecked : list (string * string) :=
  [ ("Operators", "fetchOperators");
    ("Dashboard", "fetchDashboardData"); ("Dashboard", "performSearch");
    ("DeviceDetail", "fetchDevice"); ("OperatorDetail", "fetchOperator");
    ("DeviceForm", "handleDeleteFile"); ("InterventionForm", "handleDeleteFile") ].

Lemma operations_classified :
  List.map (λ o, (page o, name o)) (List.filter surfaces operations) = surfacing
  ∧ List.map (λ o, (page o, name o)) (List.filter (λ o, negb (checks_all o)) operations)
    = unchecked
  ∧ NoDup (List.map (λ o, (page o, name o)) operations)
  ∧ length operations = 51.
Proof.
  split; [reflexivity|]. split; [reflexivity|]. split; [|reflexivity].
  apply (bool_decide_unpack _). by vm_compute.
Qed.

(** C5, as the code has it.  For each of the 51 backend operations of the
    pages and every behaviour of the backend and of the user: the operation
    returns (no backend error or rejection escapes it); it logs only when a
    query failed; when it reads the [error] field of every response (all
    operations but the seven [unchecked] ones), a failed query is logged; it
    shows a message (alert or error banner) only if it is one of the nineteen
    [surfacing] operations, and those show a message whenever their own
    [catch] block logged. *)
Theorem backend_errors_caught_and_logged :
  Forall
    (λ o, ∀ (i : inputs) (w : env),
       let result := run (run_with o i) w in
       result.1 = Returned ()
       ∧ (logged result.2 = true → any_failed result.2 = true)
       ∧ (checks_all o = true → any_failed result.2 = true → logged result.2 = true)
       ∧ (shows_message result.2 = true → surfaces o = true)
       ∧ (surfaces o = true → logged_under (label o) result.2 = true →
          shows_message result.2 = true))
    operations
  ∧ List.map (λ o, (page o, name o)) (List.filter surfaces operations) = surfacing
  ∧ List.map (λ o, (page o, name o)) (List.filter (λ o, negb (checks_all o)) operations)
    = unchecked
  ∧ NoDup (List.map (λ o, (page o, name o)) operations)
  ∧ length operations = 51.
Proof.
  split; [|exact operations_classified].
  eapply Forall_impl; [apply operations_handled|].
  intros o Ho i w result. specialize (Ho i w). fold result in Ho.
  unfold handled in Ho. destruct result as [[[]|e] t]; simpl in *; [|done].
  destruct (logged t), (any_failed t), (checks_all o), (shows_message t),
    (surfaces o), (logged_under (label o) t); simpl in Ho; try done.
Qed.

Definition permission_denied : error := {| message := "permission denied" |}.

(** A backend that answers every query with an error, and a user who
    confirms. *)
Definition refusing : env :=
  {| backend := λ _, Fulfilled {| data := None; error_of := Some permission_denied;
                                  count := None |};
     backend_single := λ _, Fulfilled {| data := None; error_of := Some permission_denied;
                                         count := None |};
     confirm := λ _, true |}.

(** C5 as stated fails: deleting a quote or invoice against a backend that
    returns an error logs the error and shows the user nothing. *)
Lemma quote_invoice_delete_error_not_shown :
  run (QuoteInvoiceDetail.handleDelete (VStr "7")) refusing
  = (Returned (),
     [Called [From "quotes_invoices"; Delete; Eq "id" (VStr "7")]
        (ReturnedError permission_denied);
      ConsoleError "Error deleting quote/invoice:" permission_denied])
  ∧ any_failed (run (QuoteInvoiceDetail.handleDelete (VStr "7")) refusing).2 = true
  ∧ shows_message (run (QuoteInvoiceDetail.handleDelete (VStr "7")) refusing).2 = false.
Proof. by repeat split. Qed.

(** An error in a response whose [error] field is not read leaves no
    trace at all: the device page drops a failure of its interventions
    query. *)
Lemma fetchDevice_drops_interventions_error (device : row) :
  let w := {| backend := backend refusing;
              backend_single := λ _, Fulfilled {| data := Some device; error_of := None;
                                                  count := None |};
              confirm := confirm refusing |} in
  any_failed (run (DeviceDetail.fetchDevice (VStr "7")) w).2 = true
  ∧ logged (run (DeviceDetail.fetchDevice (VStr "7")) w).2 = false
  ∧ rows_after "interventions" [device] (run (DeviceDetail.fetchDevice (VStr "7")) w).2 = [].
Proof. by repeat split. Qed.

End ErrorHandling.

(** ** The schema: foreign keys of the migrations *)

(** The tables [devices], [operators], [clients], [interventions] and
    [intervention_history] with the foreign keys the migrations leave in
    place:
    - [devices.operator_id] and [devices.client_id]: nullable,
      [ON DELETE SET NULL];
    - [interventions.device_id] and [interventions.operator_id]: [NOT NULL],
      [ON DELETE CASCADE];
    - [intervention_history.device_id], [.operator_id], [.intervention_id]:
      [NOT NULL], [ON DELETE CASCADE].
    The constraints are created on truncated tables.  A statement is executed
    as PostgreSQL executes it under these constraints. *)

Module Schema.

(** The rows, reduced to their keys.  Column names as in the migrations. *)
Record device : Type :=
  { device_operator_id : option Z;     (* devices.operator_id, nullable *)
    device_client_id : option Z }.     (* devices.client_id, nullable *)

Record intervention : Type :=
  { device_id : Z;                     (* NOT NULL *)
    operator_id : Z }.                 (* NOT NULL *)

Record history : Type :=
  { history_device_id : Z;
    history_operator_id : Z;
    history_intervention_id : Z }.

(** A database state: each table maps primary keys to rows. *)
Record db : Type :=
  { devices : gmap Z device;
    operators : gset Z;
    clients : gset Z;
    interventions : gmap Z intervention;
    intervention_history : gmap Z history }.

Definition empty : db :=
  {| devices := ∅; operators := ∅; clients := ∅;
     interventions := ∅; intervention_history := ∅ |}.

Inductive statement : Type :=
  | InsertOperator (id : Z)
  | DeleteOperator (id : Z)
  | InsertClient (id : Z)
  | DeleteClient (id : Z)
  | InsertDevice (id : Z) (row : device)
  | UpdateDevice (id : Z) (row : device)
  | DeleteDevice (id : Z)
  | InsertIntervention (id : Z) (row : intervention)
  | UpdateIntervention (id : Z) (row : intervention)
  | DeleteIntervention (id : Z)
  | InsertHistory (id : Z) (row : history)
  | DeleteHistory (id : Z)
  | RekeyOperator (id new_id : Z)          (* UPDATE operators SET id = new_id *)
  | RekeyClient (id new_id : Z)
  | RekeyDevice (id new_id : Z)
  | RekeyIntervention (id new_id : Z).

(** A nullable foreign key is satisfied by NULL or by an existing key. *)
Definition refers_or_null (key : option Z) (keys : gset Z) : bool :=
  match key with
  | None => true
  | Some k => bool_decide (k ∈ keys)
  end.

(** The foreign keys of [devices], [interventions] and
    [intervention_history], as the insert or update of a row checks them. *)
Definition device_ok (s : db) (row : device) : bool :=
  refers_or_null (device_operator_id row) (operators s)
  && refers_or_null (device_client_id row) (clients s).

Definition intervention_ok (s : db) (row : intervention) : bool :=
  bool_decide (device_id row ∈ dom (devices s))
  && bool_decide (operator_id row ∈ operators s).

Definition history_ok (s : db) (row : history) : bool :=
  bool_decide (history_device_id row ∈ dom (devices s))
  && bool_decide (history_operator_id row ∈ operators s)
  && bool_decide (history_intervention_id row ∈ dom (interventions s)).

(** [DELETE FROM devices WHERE id = ...].  interventions_device_id_fkey
    and intervention_history_device_id_fkey are [ON DELETE CASCADE]: the
    interventions and the history rows of the device go, and with the
    interventions (intervention_history_intervention_id_fkey, [ON DELETE
    CASCADE]) their history rows. *)
Definition delete_device (s : db) (id : Z) : db :=
  let removed := filter (λ kv, device_id kv.2 = id) (interventions s) in
  {| devices := delete id (devices s);
     operators := operators s;
     clients := clients s;
     interventions := filter (λ kv, device_id kv.2 ≠ id) (interventions s);
     intervention_history :=
       filter (λ kv, history_device_id kv.2 ≠ id
                     ∧ history_intervention_id kv.2 ∉ dom removed)
              (intervention_history s) |}.

(** [DELETE FROM operators]: [devices.operator_id] is [ON DELETE SET NULL],
    the other references are [ON DELETE CASCADE]. *)
Definition delete_operator (s : db) (id : Z) : db :=
  let removed := filter (λ kv, operator_id kv.2 = id) (interventions s) in
  {| devices :=
       (λ row, if decide (device_operator_id row = Some id)
               then {| device_operator_id := None;
                       device_client_id := device_client_id row |}
               else row) <$> devices s;
     operators := operators s ∖ {[id]};
     clients := clients s;
     interventions := filter (λ kv, operator_id kv.2 ≠ id) (interventions s);
     intervention_history :=
       filter (λ kv, history_operator_id kv.2 ≠ id
                     ∧ history_intervention_id kv.2 ∉ dom removed)
              (intervention_history s) |}.

(** [DELETE FROM clients]: [devices.client_id] is [ON DELETE SET NULL]. *)
Definition delete_client (s : db) (id : Z) : db :=
  {| devices :=
       (λ row, if decide (device_client_id row = Some id)
               then {| device_operator_id := device_operator_id row;
                       device_client_id := None |}
               else row) <$> devices s;
     operators := operators s;
     clients := clients s ∖ {[id]};
     interventions := interventions s;
     intervention_history := intervention_history s |}.

(** [DELETE FROM interventions]: the history rows of the intervention go
    with it. *)
Definition delete_intervention (s : db) (id : Z) : db :=
  {| devices := devices s;
     operators := operators s;
     clients := clients s;
     interventions := delete id (interventions s);
     intervention_history :=
       filter (λ kv, history_intervention_id kv.2 ≠ id) (intervention_history s) |}.

(** No row refers to the key: what [ON UPDATE NO ACTION] (the default of
    every foreign key here) requires before a primary key may change. *)
Definition operator_unreferenced (s : db) (id : Z) : bool :=
  bool_decide (map_Forall (λ _ row, device_operator_id row ≠ Some id) (devices s))
  && bool_decide (map_Forall (λ _ row, operator_id row ≠ id) (interventions s))
  && bool_decide (map_Forall (λ _ row, history_operator_id row ≠ id)
                    (intervention_history s)).

Definition client_unreferenced (s : db) (id : Z) : bool :=
  bool_decide (map_Forall (λ _ row, device_client_id row ≠ Some id) (devices s)).

Definition device_unreferenced (s : db) (id : Z) : bool :=
  bool_decide (map_Forall (λ _ row, device_id row ≠ id) (interventions s))
  && bool_decide (map_Forall (λ _ row, history_device_id row ≠ id)
                    (intervention_history s)).

Definition intervention_unreferenced (s : db) (id : Z) : bool :=
  bool_decide (map_Forall (λ _ row, history_intervention_id row ≠ id)
                 (intervention_history s)).

(** One statement.  [None]: the statement is rejected (a primary key is
    taken, a foreign key has no target, or rows refer to a key that would
    change) and changes nothing.  An update or delete of a row that does not
    exist changes nothing. *)
Definition exec (s : db) (st : statement) : option db :=
  match st with
  | InsertOperator id =>
      if decide (id ∈ operators s) then None
      else Some {| devices := devices s; operators := {[id]} ∪ operators s;
                   clients := clients s; interventions := interventions s;
                   intervention_history := intervention_history s |}
  | DeleteOperator id => Some (delete_operator s id)
  | InsertClient id =>
      if decide (id ∈ clients s) then None
      else Some {| devices := devices s; operators := operators s;
                   clients := {[id]} ∪ clients s; interventions := interventions s;
                   intervention_history := intervention_history s |}
  | DeleteClient id => Some (delete_client s id)
  | InsertDevice id row =>
      if decide (id ∈ dom (devices s)) then None
      else if device_ok s row
      then Some {| devices := <[id := row]> (devices s); operators := operators s;
                   clients := clients s; interventions := interventions s;
                   intervention_history := intervention_history s |}
      else None
  | UpdateDevice id row =>
      if decide (id ∈ dom (devices s))
      then if device_ok s row
           then Some {| devices := <[id := row]> (devices s); operators := operators s;
                        clients := clients s; interventions := interventions s;
                        intervention_history := intervention_history s |}
           else None
      else Some s
  | DeleteDevice id => Some (delete_device s id)
  | InsertIntervention id row =>
      if decide (id ∈ dom (interventions s)) then None
      else if intervention_ok s row
      then Some {| devices := devices s; operators := operators s; clients := clients s;
                   interventions := <[id := row]> (interventions s);
                   intervention_history := intervention_history s |}
      else None
  | UpdateIntervention id row =>
      if decide (id ∈ dom (interventions s))
      then if intervention_ok s row
           then Some {| devices := devices s; operators := operators s;
                        clients := clients s;
                        interventions := <[id := row]> (interventions s);
                        intervention_history := intervention_history s |}
           else None
      else Some s
  | DeleteIntervention id => Some (delete_intervention s id)
  | InsertHistory id row =>
      if decide (id ∈ dom (intervention_history s)) then None
      else if history_ok s row
      then Some {| devices := devices s; operators := operators s; clients := clients s;
                   interventions := interventions s;
                   intervention_history := <[id := row]> (intervention_history s) |}
      else None
  | DeleteHistory id =>
      Some {| devices := devices s; operators := operators s; clients := clients s;
              interventions := interventions s;
              intervention_history := delete id (intervention_history s) |}
  | RekeyOperator id new_id =>
      if decide (id ∈ operators s ∧ new_id ≠ id)
      then if decide (new_id ∈ operators s) then None
           else if operator_unreferenced s id
           then Some {| devices := devices s;
                        operators := {[new_id]} ∪ operators s ∖ {[id]};
                        clients := clients s; interventions := interventions s;
                        intervention_history := intervention_history s |}
           else None
      else Some s
  | RekeyClient id new_id =>
      if decide (id ∈ clients s ∧ new_id ≠ id)
      then if decide (new_id ∈ clients s) then None
           else if client_unreferenced s id
           then Some {| devices := devices s; operators := operators s;
                        clients := {[new_id]} ∪ clients s ∖ {[id]};
                        interventions := interventions s;
                        intervention_history := intervention_history s |}
           else None
      else Some s
  | RekeyDevice id new_id =>
      match devices s !! id with
      | Some row =>
          if decide (new_id = id) then Some s
          else if decide (new_id ∈ dom (devices s)) then None
          else if device_unreferenced s id
          then Some {| devices := <[new_id := row]> (delete id (devices s));
                       operators := operators s; clients := clients s;
                       interventions := interventions s;
                       intervention_history := intervention_history s |}
          else None
      | None => Some s
      end
  | RekeyIntervention id new_id =>
      match interventions s !! id with
      | Some row =>
          if decide (new_id = id) then Some s
          else if decide (new_id ∈ dom (interventions s)) then None
          else if intervention_unreferenced s id
          then Some {| devices := devices s; operators := operators s;
                       clients := clients s;
                       interventions := <[new_id := row]> (delete id (interventions s));
                       intervention_history := intervention_history s |}
          else None
      | None => Some s
      end
  end.

(** A session: the statements run in order, a rejected one leaving the
    state as it was. *)
Definition run_statements (sts : list statement) (s : db) : db :=
  fold_left (λ s st, default s (exec s st)) sts s.

(** Referential integrity. *)
Definition referential_integrity (s : db) : Prop :=
  (∀ id row, devices s !! id = Some row →
     device_ok s row = true)
  ∧ (∀ id row, interventions s !! id = Some row →
       device_id row ∈ dom (devices s) ∧ operator_id row ∈ operators s)
  ∧ (∀ id row, intervention_history s !! id = Some row →
       history_device_id row ∈ dom (devices s)
       ∧ history_operator_id row ∈ operators s
       ∧ history_intervention_id row ∈ dom (interventions s)).

End Schema.

(** *** Referential integrity is an invariant *)

Module SchemaFacts.
Import Schema.

Lemma refers_or_null_spec key keys :
  refers_or_null key keys = true ↔ ∀ k, key = Some k → k ∈ keys.
Proof.
  destruct key as [k|]; simpl.
  - rewrite bool_decide_eq_true. split; [by intros ? ? [= <-]|auto].
  - split; [done|auto].
Qed.

Lemma device_ok_spec s row :
  device_ok s row = true ↔
  (∀ k, device_operator_id row = Some k → k ∈ operators s)
  ∧ (∀ k, device_client_id row = Some k → k ∈ clients s).
Proof. unfold device_ok. by rewrite andb_true_iff, !refers_or_null_spec. Qed.

Lemma intervention_ok_spec s row :
  intervention_ok s row = true ↔
  device_id row ∈ dom (devices s) ∧ operator_id row ∈ operators s.
Proof. unfold intervention_ok. by rewrite andb_true_iff, !bool_decide_eq_true. Qed.

Lemma history_ok_spec s row :
  history_ok s row = true ↔
  history_device_id row ∈ dom (devices s)
  ∧ history_operator_id row ∈ operators s
  ∧ history_intervention_id row ∈ dom (interventions s).
Proof.
  unfold history_ok. rewrite !andb_true_iff, !bool_decide_eq_true. tauto.
Qed.

Lemma elem_of_dom_filter {A} (P : Z * A → Prop) `{!∀ x, Decision (P x)}
    (m : gmap Z A) (i : Z) :
  i ∈ dom (filter P m) ↔ ∃ x, m !! i = Some x ∧ P (i, x).
Proof.
  rewrite elem_of_dom. unfold is_Some.
  by setoid_rewrite map_lookup_filter_Some.
Qed.

Lemma empty_integrity : referential_integrity empty.
Proof. by repeat split. Qed.

Lemma delete_device_integrity s id :
  referential_integrity s → referential_integrity (delete_device s id).
Proof.
  intros (Hd & Hi & Hh).
  unfold referential_integrity, delete_device; simpl. split; [|split].
  - intros id0 row [_ Hrow]%lookup_delete_Some. exact (Hd _ _ Hrow).
  - intros id0 row [Hrow Hne]%map_lookup_filter_Some. simpl in Hne.
    destruct (Hi _ _ Hrow) as [Hdev Hop]. split; [|done].
    rewrite dom_delete_L. by apply elem_of_difference; rewrite elem_of_singleton.
  - intros id0 row [Hrow [Hne Hkept]]%map_lookup_filter_Some. simpl in *.
    destruct (Hh _ _ Hrow) as (Hdev & Hop & Hint).
    split; [rewrite dom_delete_L; by apply elem_of_difference; rewrite elem_of_singleton|].
    split; [done|].
    apply elem_of_dom in Hint as [i Hi'].
    apply elem_of_dom_filter. exists i. split; [done|]. simpl.
    intros Heq. apply Hkept, elem_of_dom_filter. by exists i.
Qed.

Lemma delete_intervention_integrity s id :
  referential_integrity s → referential_integrity (delete_intervention s id).
Proof.
  intros (Hd & Hi & Hh).
  unfold referential_integrity, delete_intervention; simpl. split; [|split].
  - intros id0 row Hrow. exact (Hd _ _ Hrow).
  - intros id0 row [_ Hrow]%lookup_delete_Some. exact (Hi _ _ Hrow).
  - intros id0 row [Hrow Hne]%map_lookup_filter_Some. simpl in *.
    destruct (Hh _ _ Hrow) as (Hdev & Hop & Hint).
    repeat split; try done. rewrite dom_delete_L.
    by apply elem_of_difference; rewrite elem_of_singleton.
Qed.

Lemma delete_client_integrity s id :
  referential_integrity s → referential_integrity (delete_client s id).
Proof.
  intros (Hd & Hi & Hh).
  unfold referential_integrity, delete_client; simpl.
  split; [|split]; [|by setoid_rewrite dom_fmap_L..].
  intros id0 row. rewrite lookup_fmap, fmap_Some. intros (old & Hold & ->).
  apply Hd, device_ok_spec in Hold as [Hop Hcl].
  apply device_ok_spec; simpl. case_decide as Hc; simpl; split; try done.
  intros k Hk. specialize (Hcl k Hk).
  apply elem_of_difference. split; [done|]. rewrite elem_of_singleton. congruence.
Qed.

Lemma delete_operator_integrity s id :
  referential_integrity s → referential_integrity (delete_operator s id).
Proof.
  intros (Hd & Hi & Hh).
  unfold referential_integrity, delete_operator; simpl. split; [|split].
  - intros id0 row. rewrite lookup_fmap, fmap_Some. intros (old & Hold & ->).
    apply Hd, device_ok_spec in Hold as [Hop Hcl].
    apply device_ok_spec; simpl. case_decide as Hc; simpl; split; try done.
    intros k Hk. specialize (Hop k Hk).
    apply elem_of_difference. split; [done|]. rewrite elem_of_singleton. congruence.
  - intros id0 row [Hrow Hne]%map_lookup_filter_Some. simpl in Hne.
    destruct (Hi _ _ Hrow) as [Hdev Hop]. rewrite dom_fmap_L. split; [done|].
    by apply elem_of_difference; rewrite elem_of_singleton.
  - intros id0 row [Hrow [Hne Hkept]]%map_lookup_filter_Some. simpl in *.
    destruct (Hh _ _ Hrow) as (Hdev & Hop & Hint).
    rewrite dom_fmap_L. split; [done|].
    split; [by apply elem_of_difference; rewrite elem_of_singleton|].
    apply elem_of_dom in Hint as [i Hi'].
    apply elem_of_dom_filter. exists i. split; [done|]. simpl.
    intros Heq. apply Hkept, elem_of_dom_filter. by exists i.
Qed.

Lemma exec_preserves s st s' :
  referential_integrity s → exec s st = Some s' → referential_integrity s'.
Proof.
  intros Hs Hexec. pose proof Hs as (Hd & Hi & Hh).
  destruct st; simpl in Hexec.
  - (* InsertOperator *)
    case_decide; [done|]. injection Hexec as <-.
    unfold referential_integrity; simpl. split; [|split].
    + intros id0 row Hrow. apply Hd, device_ok_spec in Hrow as [Hop Hcl].
      apply device_ok_spec; simpl. split; [|done].
      intros k Hk. apply elem_of_union_r. eauto.
    + intros id0 row Hrow. destruct (Hi _ _ Hrow). split; [done|by apply elem_of_union_r].
    + intros id0 row Hrow. destruct (Hh _ _ Hrow) as (? & ? & ?).
      repeat split; try done. by apply elem_of_union_r.
  - injection Hexec as <-. by apply delete_operator_integrity.
  - (* InsertClient *)
    case_decide; [done|]. injection Hexec as <-.
    unfold referential_integrity; simpl. split; [|done].
    intros id0 row Hrow. apply Hd, device_ok_spec in Hrow as [Hop Hcl].
    apply device_ok_spec; simpl. split; [done|].
    intros k Hk. apply elem_of_union_r. eauto.
  - injection Hexec as <-. by apply delete_client_integrity.
  - (* InsertDevice *)
    case_decide; [done|]. destruct (device_ok s row) eqn:Hok; [|done].
    injection Hexec as <-. unfold referential_integrity; simpl. split; [|split].
    + intros id0 row0 [[_ <-]|[_ Hrow]]%lookup_insert_Some; [done|exact (Hd _ _ Hrow)].
    + intros id0 row0 Hrow. destruct (Hi _ _ Hrow). split; [|done].
      rewrite dom_insert_L. by apply elem_of_union_r.
    + intros id0 row0 Hrow. destruct (Hh _ _ Hrow) as (? & ? & ?).
      repeat split; try done. rewrite dom_insert_L. by apply elem_of_union_r.
  - (* UpdateDevice *)
    case_decide; [|by injection Hexec as <-].
    destruct (device_ok s row) eqn:Hok; [|done].
    injection Hexec as <-. unfold referential_integrity; simpl. split; [|split].
    + intros id0 row0 [[_ <-]|[_ Hrow]]%lookup_insert_Some; [done|exact (Hd _ _ Hrow)].
    + intros id0 row0 Hrow. destruct (Hi _ _ Hrow). split; [|done].
      rewrite dom_insert_L. by apply elem_of_union_r.
    + intros id0 row0 Hrow. destruct (Hh _ _ Hrow) as (? & ? & ?).
      repeat split; try done. rewrite dom_insert_L. by apply elem_of_union_r.
  - injection Hexec as <-. by apply delete_device_integrity.
  - (* InsertIntervention *)
    case_decide; [done|]. destruct (intervention_ok s row) eqn:Hok; [|done].
    apply intervention_ok_spec in Hok.
    injection Hexec as <-. unfold referential_integrity; simpl. split; [done|split].
    + intros id0 row0 [[_ <-]|[_ Hrow]]%lookup_insert_Some; [done|exact (Hi _ _ Hrow)].
    + intros id0 row0 Hrow. destruct (Hh _ _ Hrow) as (? & ? & ?).
      repeat split; try done. rewrite dom_insert_L. by apply elem_of_union_r.
  - (* UpdateIntervention *)
    case_decide; [|by injection Hexec as <-].
    destruct (intervention_ok s row) eqn:Hok; [|done].
    apply intervention_ok_spec in Hok.
    injection Hexec as <-. unfold referential_integrity; simpl. split; [done|split].
    + intros id0 row0 [[_ <-]|[_ Hrow]]%lookup_insert_Some; [done|exact (Hi _ _ Hrow)].
    + intros id0 row0 Hrow. destruct (Hh _ _ Hrow) as (? & ? & ?).
      repeat split; try done. rewrite dom_insert_L. by apply elem_of_union_r.
  - injection Hexec as <-. by apply delete_intervention_integrity.
  - (* InsertHistory *)
    case_decide; [done|]. destruct (history_ok s row) eqn:Hok; [|done].
    apply history_ok_spec in Hok.
    injection Hexec as <-. unfold referential_integrity; simpl.
    split; [done|split; [done|]].
    intros id0 row0 [[_ <-]|[_ Hrow]]%lookup_insert_Some; [done|exact (Hh _ _ Hrow)].
  - (* DeleteHistory *)
    injection Hexec as <-. unfold referential_integrity; simpl.
    split; [done|split; [done|]].
    intros id0 row0 [_ Hrow]%lookup_delete_Some. exact (Hh _ _ Hrow).
  - (* RekeyOperator *)
    case_decide; [|by injection Hexec as <-].
    case_decide; [done|].
    destruct (operator_unreferenced s id) eqn:Hun; [|done].
    unfold operator_unreferenced in Hun.
    rewrite !andb_true_iff, !bool_decide_eq_true in Hun.
    destruct Hun as [[Hund Huni] Hunh].
    injection Hexec as <-. unfold referential_integrity; simpl.
    assert (Hmove : ∀ k, k ∈ operators s → k ≠ id →
              k ∈ {[new_id]} ∪ operators s ∖ {[id]}).
    { intros k Hk Hne. apply elem_of_union_r, elem_of_difference.
      by rewrite elem_of_singleton. }
    split; [|split].
    + intros id0 row Hrow. pose proof (Hund _ _ Hrow) as Hne.
      apply Hd, device_ok_spec in Hrow as [Hop Hcl].
      apply device_ok_spec; simpl. split; [|done].
      intros k Hk. apply Hmove; [eauto|congruence].
    + intros id0 row Hrow. destruct (Hi _ _ Hrow).
      split; [done|]. apply Hmove; [done|exact (Huni _ _ Hrow)].
    + intros id0 row Hrow. destruct (Hh _ _ Hrow) as (? & ? & ?).
      repeat split; try done. apply Hmove; [done|exact (Hunh _ _ Hrow)].
  - (* RekeyClient *)
    case_decide; [|by injection Hexec as <-].
    case_decide; [done|].
    destruct (client_unreferenced s id) eqn:Hun; [|done].
    unfold client_unreferenced in Hun. rewrite bool_decide_eq_true in Hun.
    injection Hexec as <-. unfold referential_integrity; simpl.
    split; [|done].
    intros id0 row Hrow. pose proof (Hun _ _ Hrow) as Hne.
    apply Hd, device_ok_spec in Hrow as [Hop Hcl].
    apply device_ok_spec; simpl. split; [done|].
    intros k Hk. apply elem_of_union_r, elem_of_difference.
    rewrite elem_of_singleton. split; [eauto|congruence].
  - (* RekeyDevice *)
    destruct (devices s !! id) as [row|] eqn:Hrow; [|by injection Hexec as <-].
    case_decide; [by injection Hexec as <-|].
    case_decide; [done|].
    destruct (device_unreferenced s id) eqn:Hun; [|done].
    unfold device_unreferenced in Hun.
    rewrite andb_true_iff, !bool_decide_eq_true in Hun. destruct Hun as [Huni Hunh].
    injection Hexec as <-. unfold referential_integrity; simpl.
    assert (Hmove : ∀ k, k ∈ dom (devices s) → k ≠ id →
              k ∈ dom (<[new_id := row]> (delete id (devices s)))).
    { intros k Hk Hne. rewrite dom_insert_L, dom_delete_L.
      apply elem_of_union_r, elem_of_difference. by rewrite elem_of_singleton. }
    split; [|split].
    + intros id0 row0 [[_ <-]|[_ [_ Hrow0]%lookup_delete_Some]]%lookup_insert_Some.
      * exact (Hd _ _ Hrow).
      * exact (Hd _ _ Hrow0).
    + intros id0 row0 Hrow0. destruct (Hi _ _ Hrow0).
      split; [|done]. apply Hmove; [done|exact (Huni _ _ Hrow0)].
    + intros id0 row0 Hrow0. destruct (Hh _ _ Hrow0) as (? & ? & ?).
      repeat split; try done. apply Hmove; [done|exact (Hunh _ _ Hrow0)].
  - (* RekeyIntervention *)
    destruct (interventions s !! id) as [row|] eqn:Hrow; [|by injection Hexec as <-].
    case_decide; [by injection Hexec as <-|].
    case_decide; [done|].
    destruct (intervention_unreferenced s id) eqn:Hun; [|done].
    unfold intervention_unreferenced in Hun. rewrite bool_decide_eq_true in Hun.
    injection Hexec as <-. unfold referential_integrity; simpl.
    split; [done|split].
    + intros id0 row0 [[_ <-]|[_ [_ Hrow0]%lookup_delete_Some]]%lookup_insert_Some.
      * exact (Hi _ _ Hrow).
      * exact (Hi _ _ Hrow0).
    + intros id0 row0 Hrow0. destruct (Hh _ _ Hrow0) as (? & ? & ?).
      repeat split; try done. rewrite dom_insert_L, dom_delete_L.
      apply elem_of_union_r, elem_of_difference. rewrite elem_of_singleton.
      split; [done|exact (Hun _ _ Hrow0)].
Qed.

Lemma run_statements_integrity sts s :
  referential_integrity s → referential_integrity (run_statements sts s).
Proof.
  revert s. induction sts as [|st sts IH]; intros s Hs; [done|].
  simpl. apply IH. destruct (exec s st) as [s'|] eqn:Hexec; simpl; [|done].
  by eapply exec_preserves.
Qed.

(** What [DELETE FROM devices WHERE id = ...] leaves behind. *)
Lemma delete_device_rows (s : db) (id : Z) :
  devices (delete_device s id) = delete id (devices s)
  ∧ (∀ i row, interventions (delete_device s id) !! i = Some row ↔
       interventions s !! i = Some row ∧ device_id row ≠ id)
  ∧ (∀ h row, intervention_history (delete_device s id) !! h = Some row ↔
       intervention_history s !! h = Some row
       ∧ history_device_id row ≠ id
       ∧ ∀ irow, interventions s !! history_intervention_id row = Some irow →
                 device_id irow ≠ id).
Proof.
  split; [done|]. split.
  - intros i row. unfold delete_device; simpl. by rewrite map_lookup_filter_Some.
  - intros h row. unfold delete_device; simpl.
    rewrite map_lookup_filter_Some. simpl. rewrite elem_of_dom_filter. simpl.
    split.
    + intros (Hrow & Hne & Hkept). repeat split; try done.
      intros irow Hirow Heq. apply Hkept. by exists irow.
    + intros (Hrow & Hne & Hkept). repeat split; try done.
      intros (irow & Hirow & Heq). by apply (Hkept irow).
Qed.

(** C7.  Starting from the empty tables on which the migrations create the
    constraints, after any sequence of inserts, updates and deletes (those
    that violate a key are rejected): every intervention refers to an
    existing device, and every history row to an existing device and
    intervention; deleting a device is accepted whatever refers to it, and
    removes exactly the interventions of the device and the history rows of
    the device or of those interventions, so that integrity still holds.  The
    application does none of this itself: its delete handler sends the one
    [delete] on [devices]. *)
Theorem device_references_maintained (sts : list statement) (id : Z) :
  let s := run_statements sts empty in
  referential_integrity s
  ∧ (∀ i row, interventions s !! i = Some row → device_id row ∈ dom (devices s))
  ∧ exec s (DeleteDevice id) = Some (delete_device s id)
  ∧ (id ∉ dom (devices (delete_device s id)))
  ∧ (∀ i row, interventions (delete_device s id) !! i = Some row ↔
       interventions s !! i = Some row ∧ device_id row ≠ id)
  ∧ (∀ h row, intervention_history (delete_device s id) !! h = Some row ↔
       intervention_history s !! h = Some row
       ∧ history_device_id row ≠ id
       ∧ ∀ irow, interventions s !! history_intervention_id row = Some irow →
                 device_id irow ≠ id)
  ∧ referential_integrity (delete_device s id)
  ∧ (∀ (w : Backend.env) (target : JS.value),
       ListPageFacts.queries_sent (Backend.run (DeviceDetail.handleDelete target) w).2
       = if Backend.confirm w "Êtes-vous sûr de vouloir supprimer cet appareil ?"
         then [[Backend.From "devices"; Backend.Delete; Backend.Eq "id" target]]
         else []).
Proof.
  intros s.
  assert (Hs : referential_integrity s)
    by apply run_statements_integrity, empty_integrity.
  destruct (delete_device_rows s id) as (Hdev & Hint & Hhist).
  split; [done|].
  split; [intros i row Hrow; by destruct Hs as (_ & Hi & _), (Hi _ _ Hrow)|].
  split; [done|].
  split; [rewrite Hdev, dom_delete_L; apply not_elem_of_difference; right;
          by apply elem_of_singleton|].
  split; [done|]. split; [done|].
  split; [by apply delete_device_integrity|].
  intros w target.
  unfold DeviceDetail.handleDelete, Backend.run, Backend.ask_confirm, Backend.try_catch,
    Backend.try_catch_finally, Backend.await, Backend.settle, Backend.throw_if_error,
    Backend.console_error, Backend.emit, Backend.throw,
    mbind, mret, Backend.M_bind, Backend.M_ret, Backend.bind, Backend.ret.
  simpl. destruct (Backend.confirm w _); simpl; [|done].
  by destruct (Backend.backend w _) as [[d [e|] c]|e].
Qed.

End SchemaFacts.

(** ** Worked examples *)

Module Examples.
Import JS CategoryUtils Engine ListSort Backend.

(** The comparison of two strings (by code units) and of two integers; the
    other pairs of operands are not needed here. *)
Definition less_than_sample (a b : value) : bool :=
  match a, b with
  | VStr s, VStr t => String.ltb s t
  | VNum m, VNum n => (m <? n)%Z
  | _, _ => false
  end.

Example abbreviation_of_a_key :
  getCategoryAbbreviation v8_source_tail (VStr "Vidéo-Photo") = VStr "VID".
Proof. reflexivity. Qed.

Example abbreviation_of_an_unknown_label :
  getCategoryAbbreviation v8_source_tail (VStr "Drone") = VStr "Drone".
Proof. reflexivity. Qed.

Example abbreviation_of_toString :
  getCategoryAbbreviation v8_source_tail (VStr "toString")
  = VBuiltin (BuiltinFunction "toString").
Proof. reflexivity. Qed.

Example product_code_of_a_key :
  getProductCode v8_source_tail (VStr "Son") (VStr "B") = "SON-B".
Proof. reflexivity. Qed.

Example product_code_of_constructor :
  getProductCode v8_source_tail (VStr "constructor") (VStr "B")
  = "function Object() { [native code] }-B".
Proof. reflexivity. Qed.

Example search_by_abbreviation :
  searchInCategoryAbbreviations latin_toLowerCase "inf" = ["Informatique"]
  ∧ searchInCategoryAbbreviations latin_toLowerCase "INF" = ["Informatique"]
  ∧ searchInCategoryAbbreviations latin_toLowerCase "prh" = ["périphérique"].
Proof. by repeat split. Qed.

Example search_with_an_accent :
  searchInCategoryAbbreviations latin_toLowerCase "É"
  = ["Vidéo-Photo"; "Appareils-Numériques"; "Electro Ménager"; "périphérique"].
Proof. reflexivity. Qed.

Example search_without_a_match :
  searchInCategoryAbbreviations latin_toLowerCase "xyz" = [].
Proof. reflexivity. Qed.

Definition hp : row := [("id", VNum 1); ("brand", VStr "HP")].
Definition dell : row := [("id", VNum 2); ("brand", VStr "dell")].
Definition apple : row := [("id", VNum 3); ("brand", VStr "Apple")].
Definition hp_again : row := [("id", VNum 4); ("brand", VStr "hp")].

Example sort_by_brand :
  sortedDevices latin_toLowerCase less_than_sample [hp; dell; apple; hp_again] "brand" asc
  = [apple; dell; hp; hp_again]
  ∧ sortedDevices latin_toLowerCase less_than_sample [hp; dell; apple; hp_again] "brand" desc
    = [hp; hp_again; dell; apple]
  ∧ sortedDevices latin_toLowerCase less_than_sample [hp; dell; apple; hp_again] "id" desc
    = [hp_again; apple; dell; hp]
  ∧ sortedDevices latin_toLowerCase less_than_sample [hp; dell; apple; hp_again] "" desc
    = [hp; dell; apple; hp_again].
Proof. by repeat split. Qed.

Example brands_equal_up_to_case :
  compareRows latin_toLowerCase less_than_sample "brand" asc hp hp_again = 0%Z.
Proof. reflexivity. Qed.

Example sort_click_twice :
  handleSort (handleSort ("", asc) "brand") "brand" = ("brand", desc).
Proof. reflexivity. Qed.

(** A backend that accepts everything and returns [rows]. *)
Definition accepting (rows : list row) : env :=
  {| backend := λ _, Fulfilled {| data := Some rows; error_of := None; count := None |};
     backend_single := λ _, Fulfilled {| data := None; error_of := None; count := None |};
     confirm := λ _, true |}.

Example delete_second_client :
  rows_after "clients" [hp; dell; apple]
    (run (Clients.handleDelete [hp; dell; apple] (VNum 2)) (accepting [])).2
  = [hp; apple].
Proof. reflexivity. Qed.

Example delete_refused_keeps_list :
  run (Clients.handleDelete [hp; dell; apple] (VNum 2)) ErrorHandling.refusing
  = (Returned (),
     [Called (Clients.delete_client (VNum 2)) (ReturnedError ErrorHandling.permission_denied);
      ConsoleError "Error deleting client:" ErrorHandling.permission_denied;
      Alert "Erreur lors de la suppression du client"]).
Proof. reflexivity. Qed.

Example intervention_flattened :
  Interventions.flatten
    [ ("id", VNum 1);
      ("device", VObj [("brand", VStr "HP"); ("client", VNull)]);
      ("operator", VObj [("full_name", VStr "Ana")]) ]
  = [ ("id", VNum 1);
      ("device", VObj [("brand", VStr "HP"); ("client", VNull)]);
      ("operator", VObj [("full_name", VStr "Ana")]);
      ("device_brand", VStr "HP"); ("device_model", VStr "");
      ("device_category", VStr ""); ("operator_name", VStr "Ana");
      ("client_id", VNull); ("client_name", VNull); ("client_first_name", VNull) ].
Proof. reflexivity. Qed.

Import Schema.
Local Open Scope Z_scope.

Definition session : list statement :=
  [ InsertOperator 1;
    InsertDevice 10 {| device_operator_id := Some 1; device_client_id := None |};
    InsertDevice 11 {| device_operator_id := None; device_client_id := None |};
    InsertIntervention 100 {| device_id := 10; operator_id := 1 |};
    InsertIntervention 101 {| device_id := 11; operator_id := 1 |};
    InsertIntervention 102 {| device_id := 12; operator_id := 1 |};   (* rejected *)
    InsertHistory 1000 {| history_device_id := 11; history_operator_id := 1;
                          history_intervention_id := 100 |};
    InsertHistory 1001 {| history_device_id := 11; history_operator_id := 1;
                          history_intervention_id := 101 |} ].

Example session_interventions :
  let s := run_statements session empty in
  interventions s !! 100 = Some {| device_id := 10; operator_id := 1 |}
  ∧ interventions s !! 101 = Some {| device_id := 11; operator_id := 1 |}
  ∧ interventions s !! 102 = None
  ∧ size (interventions s) = 2%nat
  ∧ size (intervention_history s) = 2%nat.
Proof. by vm_compute. Qed.

Example delete_device_10_cascades :
  let s := delete_device (run_statements session empty) 10 in
  devices s !! 10 = None
  ∧ interventions s !! 100 = None
  ∧ interventions s !! 101 = Some {| device_id := 11; operator_id := 1 |}
  ∧ intervention_history s !! 1000 = None
  ∧ intervention_history s !! 1001
    = Some {| history_device_id := 11; history_operator_id := 1;
              history_intervention_id := 101 |}.
Proof. by vm_compute. Qed.

End Examples.

(** ** Method calls that can throw *)

(** Calls on a field of a fetched row.  A row is parsed JSON, so none of its
    properties is callable: calling a method a value does not have throws a
    [TypeError], which is [None] here. *)

Module JSMethods.
Import JS.

Section WithEngine.

Variable native_source_tail : string → string.
Variable toLowerCase : string → string.

(** [v.toLowerCase()]: only a string has the method. *)
Definition toLowerCase_of (v : value) : option string :=
  match v with
  | VStr s => Some (toLowerCase s)
  | _ => None
  end.

(** [v.toString()].  [undefined] and [null] have no properties; an object
    whose own [toString] is JSON data has nothing to call. *)
Definition toString_of (v : value) : option string :=
  match v with
  | VUndef | VNull => None
  | VObj fields =>
      match own_property fields "toString" with
      | Some _ => None
      | None => Some "[object Object]"
      end
  | _ => Some (to_string native_source_tail v)
  end.

(** [v?.toString()]. *)
Definition optional_toString (v : value) : option value :=
  match v with
  | VUndef | VNull => Some VUndef
  | _ => VStr <$> toString_of v
  end.

(** [`${v}`]: ToString; an object goes through its [toString], as above. *)
Definition template_of (v : value) : option string :=
  match v with
  | VUndef | VNull => Some (to_string native_source_tail v)
  | _ => toString_of v
  end.

End WithEngine.

(** [a || b] and [a && b] where the operands can throw: the right operand
    is evaluated only when the left one does not decide. *)
Definition or_lazy (a b : option bool) : option bool :=
  x ← a; if x : bool then Some true else b.

Definition and_lazy (a b : option bool) : option bool :=
  x ← a; if x : bool then b else Some false.

(** [array.filter(callback)] and [array.some(callback)]: the callback runs
    on the elements in order, and what it throws ends the call. *)
Fixpoint filterM {A} (callback : A → option bool) (array : list A) : option (list A) :=
  match array with
  | [] => Some []
  | x :: rest =>
      keep ← callback x;
      kept ← filterM callback rest;
      Some (if keep : bool then x :: kept else kept)
  end.

Fixpoint someM {A} (callback : A → option bool) (array : list A) : option bool :=
  match array with
  | [] => Some false
  | x :: rest => found ← callback x; if found : bool then Some true else someM callback rest
  end.

(** [array.includes(v)] for an array of strings. *)
Definition array_includes (array : list string) (v : value) : bool :=
  existsb (λ s, strict_eq (VStr s) v) array.

End JSMethods.

(** ** The filters of the list pages *)

Module ListFilters.
Import JS JSMethods CategoryUtils.
Export ListSort(row).

Section WithEngine.

Variable native_source_tail : string → string.
Variable toLowerCase : string → string.
Variable less_than : value → value → bool.

(** [v.toLowerCase().includes(searchTerm.toLowerCase())]. *)
Definition lower_includes (v : value) (searchTerm : string) : option bool :=
  s ← toLowerCase_of toLowerCase v;
  Some (includes s (toLowerCase searchTerm)).

(** [!selected || actual === selected]. *)
Definition matches_selected (selected : string) (actual : value) : bool :=
  negb (truthy (VStr selected)) || strict_eq actual (VStr selected).

(** [!selected || v?.toString() === selected]. *)
Definition matches_selected_id (selected : string) (v : value) : option bool :=
  if negb (truthy (VStr selected)) then Some true
  else s ← optional_toString native_source_tail v; Some (strict_eq s (VStr selected)).

(** *** Devices.tsx *)

Section Devices.

Variables searchTerm selectedCategory selectedCondition selectedGrade
  selectedCode selectedOperator selectedClient : string.

Definition deviceMatchesSearch (device : row) : option bool :=
  let matchingCategories := searchInCategoryAbbreviations toLowerCase searchTerm in
  or_lazy (lower_includes (get device "brand") searchTerm)
  (or_lazy (lower_includes (get device "model") searchTerm)
  (or_lazy (lower_includes (get device "code") searchTerm)
  (or_lazy (s ← toString_of native_source_tail (get device "id");
            Some (includes s searchTerm))
  (or_lazy (lower_includes (get device "category") searchTerm)
  (or_lazy (Some (array_includes matchingCategories (get device "category")))
  (or_lazy (lower_includes
              (getCategoryAbbreviation native_source_tail (get device "category"))
              searchTerm)
           (Some (includes
                    (toLowerCase (getProductCode native_source_tail
                                    (get device "category") (get device "code")))
                    (toLowerCase searchTerm))))))))).

(** The callback of [devices.filter]. *)
Definition keepDevice (device : row) : option bool :=
  matchesSearch ← deviceMatchesSearch device;
  let matchesCategory := matches_selected selectedCategory (get device "category") in
  let matchesCondition :=
    matches_selected selectedCondition (get device "external_condition") in
  let matchesGrade := matches_selected selectedGrade (get device "grade") in
  let matchesCode := matches_selected selectedCode (get device "code") in
  matchesOperator ← matches_selected_id selectedOperator (get device "operator_id");
  matchesClient ← matches_selected_id selectedClient (get device "client_id");
  Some (matchesSearch && matchesCategory && matchesCondition && matchesGrade
        && matchesCode && matchesOperator && matchesClient).

Definition filteredDevices (devices : list row) : option (list row) :=
  filterM keepDevice devices.

End Devices.

(** *** Clients.tsx *)

Section Clients.

Variables searchTerm companyFilter cityFilter deviceFilter deviceCategoryFilter : string.
(** The state [devices] of the page: the devices that have a client. *)
Variable devices : list row.

Definition clientMatchesSearch (client : row) : option bool :=
  or_lazy (s ← toString_of native_source_tail (get client "id");
           Some (includes s searchTerm))
  (or_lazy (lower_includes (get client "name") searchTerm)
  (or_lazy (lower_includes (get client "first_name") searchTerm)
  (or_lazy (lower_includes (get client "email") searchTerm)
           (and_lazy (Some (truthy (get client "company")))
                     (lower_includes (get client "company") searchTerm))))).

(** [(client.device_count || 0)]. *)
Definition device_count_of (client : row) : value :=
  or_else (get client "device_count") (VNum 0).

(** [v > 0].  The comparison converts an object to a primitive through its
    [valueOf] and [toString]; as in a template literal, that throws when the
    object's own [toString] is data. *)
Definition greater_than_zero (v : value) : option bool :=
  _ ← template_of native_source_tail v; Some (less_than (VNum 0) v).

Definition matchesDeviceFilter (client : row) : option bool :=
  or_lazy (Some (negb (truthy (VStr deviceFilter))))
  (or_lazy (and_lazy (Some (String.eqb deviceFilter "with_devices"))
                     (greater_than_zero (device_count_of client)))
           (Some (String.eqb deviceFilter "without_devices"
                  && strict_eq (device_count_of client) (VNum 0)))).

(** [devices.some(device => device.client_id.toString() === client.id
                            && device.category === deviceCategoryFilter)]. *)
Definition hasDeviceOfCategory (client : row) : option bool :=
  someM (λ device,
           s ← toString_of native_source_tail (get device "client_id");
           Some (strict_eq (VStr s) (get client "id")
                 && strict_eq (get device "category") (VStr deviceCategoryFilter)))
        devices.

(** The callback of [clients.filter]. *)
Definition keepClient (client : row) : option bool :=
  and_lazy (clientMatchesSearch client)
  (and_lazy (Some (matches_selected companyFilter (get client "company")))
  (and_lazy (Some (matches_selected cityFilter (get client "city")))
  (and_lazy (matchesDeviceFilter client)
            (or_lazy (Some (negb (truthy (VStr deviceCategoryFilter))))
                     (hasDeviceOfCategory client))))).

Definition filteredClients (clients : list row) : option (list row) :=
  filterM keepClient clients.

End Clients.

(** *** The pages that search one string built from the row *)

(** [`${f1} ${f2} ... ${fn}`]: the parts joined by single spaces. *)
Fixpoint joined (parts : list (option string)) : option string :=
  match parts with
  | [] => Some ""
  | [p] => p
  | p :: rest => s ← p; t ← joined rest; Some (s +:+ " " +:+ t)
  end.

Definition template (item : row) (fields : list string) : list (option string) :=
  List.map (λ f, template_of native_source_tail (get item f)) fields.

(** [searchString.toLowerCase().includes(searchTerm.toLowerCase())]. *)
Definition searchString_matches (searchString : option string) (searchTerm : string)
  : option bool :=
  s ← searchString; Some (includes (toLowerCase s) (toLowerCase searchTerm)).

(** QuotesInvoices.tsx. *)
Definition keepQuoteInvoice (searchTerm selectedType selectedStatus : string)
    (item : row) : option bool :=
  matchesSearch ←
    searchString_matches
      (joined [ template_of native_source_tail (get item "id");
                template_of native_source_tail (get item "client_name");
                template_of native_source_tail (get item "client_first_name");
                template_of native_source_tail
                  (or_else (get item "client_company") (VStr ""));
                template_of native_source_tail (get item "document_type") ])
      searchTerm;
  let matchesType := matches_selected selectedType (get item "document_type") in
  let matchesStatus := matches_selected selectedStatus (get item "status") in
  Some (matchesSearch && matchesType && matchesStatus).

Definition filteredQuotesInvoices (searchTerm selectedType selectedStatus : string)
    (quotesInvoices : list row) : option (list row) :=
  filterM (keepQuoteInvoice searchTerm selectedType selectedStatus) quotesInvoices.

(** Operators.tsx. *)
Definition keepOperator (searchTerm selectedRole selectedAccessLevel : string)
    (operator : row) : option bool :=
  matchesSearch ←
    searchString_matches (joined (template operator ["id"; "full_name"; "role"])) searchTerm;
  let matchesRole := matches_selected selectedRole (get operator "role") in
  let matchesAccessLevel :=
    matches_selected selectedAccessLevel (get operator "access_level") in
  Some (matchesSearch && matchesRole && matchesAccessLevel).

Definition filteredOperators (searchTerm selectedRole selectedAccessLevel : string)
    (operators : list row) : option (list row) :=
  filterM (keepOperator searchTerm selectedRole selectedAccessLevel) operators.

(** Interventions.tsx. *)
Definition keepIntervention
    (searchTerm selectedType selectedStatus selectedOperator selectedClient : string)
    (intervention : row) : option bool :=
  matchesSearch ←
    searchString_matches
      (joined (template intervention
                 ["id"; "type"; "device_brand"; "device_model"; "operator_name"]))
      searchTerm;
  let matchesType := matches_selected selectedType (get intervention "type") in
  let matchesStatus := matches_selected selectedStatus (get intervention "status") in
  matchesOperator ← matches_selected_id selectedOperator (get intervention "operator_id");
  matchesClient ← matches_selected_id selectedClient (get intervention "client_id");
  Some (matchesSearch && matchesType && matchesStatus && matchesOperator && matchesClient).

Definition filteredInterventions
    (searchTerm selectedType selectedStatus selectedOperator selectedClient : string)
    (interventions : list row) : option (list row) :=
  filterM (keepIntervention searchTerm selectedType selectedStatus
             selectedOperator selectedClient) interventions.

End WithEngine.

End ListFilters.

Module ListFilterFacts.
Import JS JSMethods CategoryUtils ListFilters.

(** *** [filter] with a callback that can throw *)

Section FilterM.
Context {A : Type}.
Variable callback : A → option bool.

Lemma filterM_sublist array kept :
  filterM callback array = Some kept → sublist kept array.
Proof.
  revert kept. induction array as [|x rest IH]; intros kept; simpl.
  - intros [= <-]. constructor.
  - destruct (callback x) as [keep|]; [|done]. simpl.
    destruct (filterM callback rest) as [kept'|]; [|done]. simpl.
    intros [= <-]. destruct keep; constructor; by apply IH.
Qed.

Lemma filterM_elem_of array kept x :
  filterM callback array = Some kept →
  x ∈ kept ↔ x ∈ array ∧ callback x = Some true.
Proof.
  revert kept. induction array as [|y rest IH]; intros kept; simpl.
  - intros [= <-]. split; [by intros ?%elem_of_nil|by intros [?%elem_of_nil _]].
  - destruct (callback y) as [keep|] eqn:Hy; [|done]. simpl.
    destruct (filterM callback rest) as [kept'|]; [|done]. simpl.
    intros [= <-]. specialize (IH kept' eq_refl).
    destruct keep.
    + rewrite !elem_of_cons, IH.
      split; [intros [->|[? ?]]; auto|intros [[->|?] ?]; auto].
    + rewrite IH, elem_of_cons.
      split; [intros [? ?]; auto|intros [[->|?] ?]; [congruence|auto]].
Qed.

Lemma filterM_all array :
  Forall (λ x, callback x = Some true) array → filterM callback array = Some array.
Proof.
  induction 1 as [|x rest Hx _ IH]; simpl; [done|]. by rewrite Hx, IH.
Qed.

Lemma filterM_none array kept :
  (∀ x, x ∈ array → callback x ≠ Some true) →
  filterM callback array = Some kept → kept = [].
Proof.
  intros Hnone Hkept. destruct kept as [|x kept]; [done|].
  assert (Hx : x ∈ x :: kept) by apply list_elem_of_here.
  apply (filterM_elem_of _ _ _ Hkept) in Hx as [Hin Hcb]. by destruct (Hnone x Hin).
Qed.

Lemma filterM_is_Some array :
  Forall (λ x, is_Some (callback x)) array → is_Some (filterM callback array).
Proof.
  induction 1 as [|x rest [keep Hx] _ [kept IH]]; simpl; [by eexists|].
  rewrite Hx, IH. simpl. by eexists.
Qed.

End FilterM.

Lemma strict_eq_VStr v s : strict_eq v (VStr s) = true → v = VStr s.
Proof. destruct v; simpl; try done. by intros ->%String.eqb_eq. Qed.

Lemma truthy_VStr s : truthy (VStr s) = false ↔ s = "".
Proof.
  simpl. rewrite negb_false_iff. split; [by intros ?%String.eqb_eq|by intros ->].
Qed.

Section WithEngine.

Variable native_source_tail : string → string.
Variable toLowerCase : string → string.
Variable less_than : value → value → bool.


Lemma matches_selected_spec selected actual :
  matches_selected selected actual = true →
  selected ≠ "" → actual = VStr selected.
Proof.
  unfold matches_selected. intros [Hno|Heq]%orb_true_iff Hsel.
  - apply negb_true_iff, truthy_VStr in Hno. done.
  - by apply strict_eq_VStr.
Qed.

Lemma matches_selected_id_spec selected v :
  matches_selected_id native_source_tail selected v = Some true →
  selected ≠ "" → toString_of native_source_tail v = Some selected.
Proof.
  unfold matches_selected_id. destruct (negb (truthy (VStr selected))) eqn:Hno.
  - apply negb_true_iff, truthy_VStr in Hno. done.
  - intros H _.
    destruct (optional_toString native_source_tail v) as [s|] eqn:Hs; [|done].
    injection H as H. apply strict_eq_VStr in H as ->.
    unfold optional_toString in Hs.
    destruct v; try discriminate; by apply fmap_Some in Hs as (x & Hx & [= <-]).
Qed.

(** X1.  On the Devices page the rows shown are rows of the fetched list, in
    its order, and each of them passes every selection made: its category,
    condition, grade and code are the selected ones, and its operator and
    client ids print as the selected ids. *)
Theorem filteredDevices_sound
    (searchTerm selectedCategory selectedCondition selectedGrade
       selectedCode selectedOperator selectedClient : string)
    (devices shown : list row) :
  filteredDevices native_source_tail toLowerCase searchTerm selectedCategory selectedCondition selectedGrade
    selectedCode selectedOperator selectedClient devices = Some shown →
  sublist shown devices
  ∧ ∀ device, device ∈ shown →
      (selectedCategory ≠ "" → get device "category" = VStr selectedCategory)
      ∧ (selectedCondition ≠ "" →
         get device "external_condition" = VStr selectedCondition)
      ∧ (selectedGrade ≠ "" → get device "grade" = VStr selectedGrade)
      ∧ (selectedCode ≠ "" → get device "code" = VStr selectedCode)
      ∧ (selectedOperator ≠ "" →
         toString_of native_source_tail (get device "operator_id") = Some selectedOperator)
      ∧ (selectedClient ≠ "" →
         toString_of native_source_tail (get device "client_id") = Some selectedClient).
Proof.
  intros Hshown. split; [exact (filterM_sublist _ _ _ Hshown)|].
  intros device [_ Hkeep]%(filterM_elem_of _ _ _ _ Hshown).
  unfold ListFilters.keepDevice in Hkeep.
  destruct (deviceMatchesSearch native_source_tail toLowerCase searchTerm device) as [matchesSearch|]; [|done].
  simpl in Hkeep.
  destruct (matches_selected_id _ selectedOperator _) as [matchesOperator|] eqn:Hop;
    [|done].
  simpl in Hkeep.
  destruct (matches_selected_id _ selectedClient _) as [matchesClient|] eqn:Hcl;
    [|done].
  simpl in Hkeep. injection Hkeep as Hkeep.
  repeat (apply andb_true_iff in Hkeep as [Hkeep ?]). subst.
  repeat split; eauto using matches_selected_spec, matches_selected_id_spec.
Qed.

Lemma or_lazy_true_l a b : a = Some true → or_lazy a b = Some true.
Proof. by intros ->. Qed.

Lemma or_lazy_defined a b c :
  a = Some c → b = Some true → or_lazy a b = Some true.
Proof. intros -> ->. by destruct c. Qed.

Lemma lower_includes_VStr s searchTerm :
  lower_includes toLowerCase (VStr s) searchTerm
  = Some (includes (toLowerCase s) (toLowerCase searchTerm)).
Proof. reflexivity. Qed.

(** X2.  With an empty search box and nothing selected, the Devices page shows
    every fetched device whose brand is a string, and the Clients page every
    fetched client whose id prints, in the fetched order. *)
Theorem no_filter_shows_all (devices clients clientDevices : list row) :
  toLowerCase "" = "" →
  Forall (λ device, ∃ brand, get device "brand" = VStr brand) devices →
  Forall (λ client, is_Some (toString_of native_source_tail (get client "id"))) clients →
  filteredDevices native_source_tail toLowerCase "" "" "" "" "" "" "" devices = Some devices
  ∧ filteredClients native_source_tail toLowerCase less_than "" "" "" "" "" clientDevices clients = Some clients.
Proof.
  intros Hlower Hdevices Hclients. split; apply filterM_all.
  - eapply Forall_impl; [exact Hdevices|]. intros device [brand Hbrand].
    unfold ListFilters.keepDevice, ListFilters.deviceMatchesSearch.
    rewrite Hbrand, lower_includes_VStr, Hlower, includes_empty. reflexivity.
  - eapply Forall_impl; [exact Hclients|]. intros client [s Hs].
    unfold keepClient, clientMatchesSearch. rewrite Hs. simpl.
    by rewrite includes_empty.
Qed.

Lemma joined_cons p q rest :
  joined (p :: q :: rest) = (s ← p; t ← joined (q :: rest); Some (s +:+ " " +:+ t)).
Proof. reflexivity. Qed.

Lemma joined_is_Some parts :
  Forall is_Some parts → is_Some (joined parts).
Proof.
  induction 1 as [|p rest [s ->] Hrest [t IH]]; [by eexists|].
  destruct rest as [|q rest]; [by eexists|].
  rewrite joined_cons, IH. by eexists.
Qed.

(** A field prints in a template literal unless it is an object with a
    [toString] entry of its own. *)
Definition prints (item : row) (field : string) : Prop :=
  is_Some (template_of native_source_tail (get item field)).

Lemma template_is_Some item fields :
  Forall (prints item) fields →
  is_Some (joined (template native_source_tail item fields)).
Proof.
  intros H. apply joined_is_Some, Forall_fmap.
  eapply Forall_impl; [exact H|]. by intros f.
Qed.

Lemma searchString_matches_empty searchString :
  toLowerCase "" = "" → is_Some searchString →
  searchString_matches toLowerCase searchString "" = Some true.
Proof.
  intros Hlower [s ->]. unfold searchString_matches. simpl.
  by rewrite Hlower, includes_empty.
Qed.

Lemma or_else_prints v d :
  is_Some (template_of native_source_tail v) →
  is_Some (template_of native_source_tail d) →
  is_Some (template_of native_source_tail (or_else v d)).
Proof. unfold or_else. by destruct (truthy v). Qed.

(** X3.  With an empty search box and nothing selected, the quotes and
    invoices page, the operators page and the interventions page show every
    fetched row whose searched fields print, in the fetched order. *)
Theorem no_filter_shows_all_rows (quotesInvoices operators interventions : list row) :
  toLowerCase "" = "" →
  Forall (λ item, Forall (prints item)
            ["id"; "client_name"; "client_first_name"; "client_company"; "document_type"])
    quotesInvoices →
  Forall (λ item, Forall (prints item) ["id"; "full_name"; "role"]) operators →
  Forall (λ item, Forall (prints item)
            ["id"; "type"; "device_brand"; "device_model"; "operator_name"])
    interventions →
  filteredQuotesInvoices native_source_tail toLowerCase "" "" "" quotesInvoices = Some quotesInvoices
  ∧ filteredOperators native_source_tail toLowerCase "" "" "" operators = Some operators
  ∧ filteredInterventions native_source_tail toLowerCase "" "" "" "" "" interventions = Some interventions.
Proof.
  intros Hlower Hq Ho Hi. repeat split; apply filterM_all.
  - eapply Forall_impl; [exact Hq|]. intros item Hitem.
    unfold keepQuoteInvoice. rewrite searchString_matches_empty; [done|done|].
    apply joined_is_Some.
    apply Forall_cons in Hitem as [H1 Hitem]. apply Forall_cons in Hitem as [H2 Hitem].
    apply Forall_cons in Hitem as [H3 Hitem]. apply Forall_cons in Hitem as [H4 Hitem].
    apply Forall_cons in Hitem as [H5 _].
    repeat (apply Forall_cons; split); try done.
    apply or_else_prints; [done|by eexists].
  - eapply Forall_impl; [exact Ho|]. intros item Hitem.
    unfold keepOperator.
    by rewrite searchString_matches_empty by (done || by apply template_is_Some).
  - eapply Forall_impl; [exact Hi|]. intros item Hitem.
    unfold keepIntervention.
    by rewrite searchString_matches_empty by (done || by apply template_is_Some).
Qed.

(** X4.  Typing a device's product code, in any letter case, into the search
    box of the Devices page finds the device: a device with string brand,
    model, code and category, whose category has a string abbreviation, is
    shown when the term equals its product code up to case and nothing is
    selected. *)
Theorem product_code_finds_device
    (searchTerm brand model code category abbreviation : string)
    (device : row) (devices shown : list row) :
  get device "brand" = VStr brand →
  get device "model" = VStr model →
  get device "code" = VStr code →
  get device "category" = VStr category →
  is_Some (toString_of native_source_tail (get device "id")) →
  getCategoryAbbreviation native_source_tail (VStr category) = VStr abbreviation →
  toLowerCase searchTerm = toLowerCase (abbreviation +:+ "-" +:+ code) →
  device ∈ devices →
  filteredDevices native_source_tail toLowerCase searchTerm "" "" "" "" "" "" devices = Some shown →
  getProductCode native_source_tail (get device "category") (get device "code")
  = abbreviation +:+ "-" +:+ code
  ∧ device ∈ shown.
Proof.
  intros Hbrand Hmodel Hcode Hcategory [id Hid] Habbr Hterm Hin Hshown.
  assert (Hpc : getProductCode native_source_tail (get device "category") (get device "code")
                = abbreviation +:+ "-" +:+ code).
  { rewrite Hcategory, Hcode. unfold CategoryUtils.getProductCode. by rewrite Habbr. }
  split; [done|].
  apply (filterM_elem_of _ _ _ _ Hshown). split; [done|].
  unfold ListFilters.keepDevice, ListFilters.deviceMatchesSearch.
  rewrite Hpc, Hbrand, Hmodel, Hcode, Hcategory, Hid, Habbr, !lower_includes_VStr.
  rewrite Hterm, includes_refl. simpl.
  repeat match goal with |- context [if ?b then _ else _] => destruct b; simpl end;
    reflexivity.
Qed.

(** X5.  The category search adds nothing to the device search: when the
    labels found by [searchInCategoryAbbreviations] include a device's
    category, that category is a string with a string abbreviation, and the
    term already occurs, case-insensitively, in the category or in its
    abbreviation (two of the other tests of the same filter). *)
Theorem category_search_subsumed (searchTerm : string) (category : value) :
  array_includes (searchInCategoryAbbreviations toLowerCase searchTerm) category = true →
  ∃ label abbreviation,
    category = VStr label
    ∧ getCategoryAbbreviation native_source_tail category = VStr abbreviation
    ∧ (lower_includes toLowerCase category searchTerm = Some true
       ∨ lower_includes toLowerCase (getCategoryAbbreviation native_source_tail category) searchTerm = Some true).
Proof.
  unfold array_includes. rewrite existsb_exists.
  intros (label & Hin & Heq).
  assert (category = VStr label) as ->.
  { destruct category; try discriminate. by apply String.eqb_eq in Heq as ->. }
  unfold searchInCategoryAbbreviations in Hin.
  apply in_map_iff in Hin as ([c d] & Hc & Hin). simpl in Hc. subst c.
  apply filter_In in Hin as [Hin Hf].
  exists label, d. split; [done|].
  assert (Habbr : getCategoryAbbreviation native_source_tail (VStr label) = VStr d)
    by exact (getCategoryAbbreviation_known native_source_tail label d Hin).
  split; [done|]. rewrite Habbr, !lower_includes_VStr.
  apply orb_true_iff in Hf as [->| ->]; auto.
Qed.

(** X6.  On the Clients page the device-category filter compares the
    decimal text of a device's [client_id] with the client's [id] by [===].
    When the ids of the fetched clients are numbers (as a [BIGSERIAL] column
    arrives), no client passes: with any category chosen the page shows no
    client at all, whatever the devices are. *)
Theorem clients_category_filter_shows_none
    (searchTerm companyFilter cityFilter deviceFilter deviceCategoryFilter : string)
    (devices clients : list row) :
  deviceCategoryFilter ≠ "" →
  Forall (λ client, ∃ n, get client "id" = VNum n) clients →
  (∀ shown,
     filteredClients native_source_tail toLowerCase less_than searchTerm companyFilter cityFilter deviceFilter
       deviceCategoryFilter devices clients = Some shown → shown = [])
  ∧ (Forall (λ client, ∃ name first_name email,
               get client "name" = VStr name ∧ get client "first_name" = VStr first_name
               ∧ get client "email" = VStr email
               ∧ (truthy (get client "company") = true →
                  ∃ company, get client "company" = VStr company)
               ∧ prints client "device_count") clients →
     Forall (λ device, is_Some (toString_of native_source_tail (get device "client_id"))) devices →
     filteredClients native_source_tail toLowerCase less_than searchTerm companyFilter cityFilter deviceFilter
       deviceCategoryFilter devices clients = Some []).
Proof.
  intros Hfilter Hids.
  assert (Hsome : ∀ client n, get client "id" = VNum n →
    ∀ b, hasDeviceOfCategory native_source_tail deviceCategoryFilter devices client
         = Some b → b = false).
  { intros client n Hid. unfold hasDeviceOfCategory. rewrite Hid.
    induction devices as [|device rest IH]; [by intros b [= <-]|].
    cbn [someM]. destruct (toString_of native_source_tail (get device "client_id"));
      [exact IH|done]. }
  assert (Hnone : ∀ client, client ∈ clients →
    keepClient native_source_tail toLowerCase less_than searchTerm companyFilter
      cityFilter deviceFilter deviceCategoryFilter devices client ≠ Some true).
  { intros client Hin Hkeep.
    rewrite Forall_forall in Hids. destruct (Hids client Hin) as [n Hid].
    unfold keepClient, and_lazy, or_lazy in Hkeep. simpl in Hkeep.
    destruct (clientMatchesSearch _ _ _ _) as [[]|]; simpl in Hkeep; try done.
    destruct (matches_selected companyFilter _); simpl in Hkeep; try done.
    destruct (matches_selected cityFilter _); simpl in Hkeep; try done.
    destruct (matchesDeviceFilter _ _ _ _) as [[]|]; simpl in Hkeep; try done.
    destruct (String.eqb deviceCategoryFilter "") eqn:He;
      [by apply String.eqb_eq in He|].
    simpl in Hkeep. by specialize (Hsome client n Hid true Hkeep). }
  split; [intros shown; by apply filterM_none|].
  intros Htyped Hdevices.
  destruct (filterM_is_Some
              (keepClient native_source_tail toLowerCase less_than searchTerm
                 companyFilter cityFilter deviceFilter deviceCategoryFilter devices)
              clients) as [shown Hshown].
  { rewrite Forall_forall in Hids, Htyped. apply Forall_forall. intros client Hin.
    destruct (Hids client Hin) as [n Hid].
    destruct (Htyped client Hin) as (name & first & email & Hn & Hf & He & Hc & Hcount).
    assert (Hfilter' : is_Some (matchesDeviceFilter native_source_tail less_than
                                  deviceFilter client)).
    { unfold matchesDeviceFilter, greater_than_zero, device_count_of.
      destruct (or_else_prints _ (VNum 0) Hcount) as [s' ->]; [by eexists|]. simpl.
      repeat (match goal with |- context [if ?c then _ else _] => destruct c end; simpl);
        by eexists. }
    destruct Hfilter' as [f Hf'].
    unfold keepClient, clientMatchesSearch, and_lazy, or_lazy.
    rewrite Hid, Hn, Hf, He, Hf'. simpl.
    assert (Hhas : is_Some (hasDeviceOfCategory native_source_tail deviceCategoryFilter
                              devices client)).
    { unfold hasDeviceOfCategory. rewrite Hid. clear -Hdevices.
      induction Hdevices as [|device rest [s Hs] _ IH]; simpl; [by eexists|].
      rewrite Hs. simpl. exact IH. }
    destruct Hhas as [b Hb]. rewrite Hb.
    destruct (truthy (get client "company")) eqn:Ht.
    - destruct (Hc eq_refl) as [company ->]. rewrite lower_includes_VStr. simpl.
      repeat (match goal with |- context [if ?c then _ else _] => destruct c end; simpl);
        by eexists.
    - simpl.
      repeat (match goal with |- context [if ?c then _ else _] => destruct c end; simpl);
        by eexists. }
  unfold filteredClients. rewrite Hshown. f_equal.
  by apply (filterM_none _ _ _ Hnone Hshown).
Qed.

End WithEngine.

(** *** The filters at work *)

Definition laptop : row :=
  [ ("id", VNum 1); ("category", VStr "Informatique"); ("code", VStr "A");
    ("brand", VStr "Dell"); ("model", VStr "XPS 13");
    ("external_condition", VStr "Bon état"); ("grade", VStr "A");
    ("operator_id", VNum 3); ("client_id", VNum 7) ].

Definition speaker : row :=
  [ ("id", VNum 2); ("category", VStr "Son"); ("code", VStr "B");
    ("brand", VStr "Bose"); ("model", VStr "S1");
    ("external_condition", VStr "Comme neuf"); ("grade", VStr "A+");
    ("operator_id", VNull); ("client_id", VNum 7) ].

Definition martin : row :=
  [ ("id", VNum 7); ("name", VStr "Martin"); ("first_name", VStr "Léa");
    ("company", VNull); ("email", VStr "lea@example.org"); ("city", VStr "Lyon");
    ("device_count", VNum 2) ].

Definition invoice : row :=
  [ ("id", VNum 40); ("client_name", VStr "Martin"); ("client_first_name", VStr "Léa");
    ("client_company", VNull); ("document_type", VStr "Facture");
    ("status", VStr "Payé") ].

Definition technician : row :=
  [ ("id", VNum 3); ("full_name", VStr "Ana Silva"); ("role", VStr "Technicien");
    ("access_level", VStr "admin") ].

Definition repair : row :=
  Interventions.flatten
    [ ("id", VNum 100); ("type", VStr "Réparation"); ("status", VStr "En cours");
      ("operator_id", VNum 3);
      ("device", VObj [("brand", VStr "Dell"); ("model", VStr "XPS 13");
                       ("client_id", VNum 7)]);
      ("operator", VObj [("full_name", VStr "Ana Silva")]) ].

Lemma filteredDevices_sound_witness :
  filteredDevices Engine.v8_source_tail Engine.latin_toLowerCase
    "" "Informatique" "" "" "" "3" "" [laptop; speaker] = Some [laptop]
  ∧ sublist [laptop] [laptop; speaker]
  ∧ ∀ device, device ∈ [laptop] →
      get device "category" = VStr "Informatique"
      ∧ toString_of Engine.v8_source_tail (get device "operator_id") = Some "3".
Proof.
  assert (H : filteredDevices Engine.v8_source_tail Engine.latin_toLowerCase
                "" "Informatique" "" "" "" "3" "" [laptop; speaker] = Some [laptop])
    by reflexivity.
  split; [exact H|].
  destruct (filteredDevices_sound _ _ _ _ _ _ _ _ _ _ _ H) as [Hsub Hall].
  split; [exact Hsub|]. intros device Hin.
  destruct (Hall device Hin) as (Hc & _ & _ & _ & Ho & _).
  split; [by apply Hc|by apply Ho].
Defined.

Lemma no_filter_shows_all_witness :
  filteredDevices Engine.v8_source_tail Engine.latin_toLowerCase
    "" "" "" "" "" "" "" [laptop; speaker] = Some [laptop; speaker]
  ∧ filteredClients Engine.v8_source_tail Engine.latin_toLowerCase
      Examples.less_than_sample "" "" "" "" "" [laptop; speaker] [martin]
    = Some [martin].
Proof.
  apply no_filter_shows_all; [reflexivity| |].
  - repeat constructor; by eexists.
  - repeat constructor; by eexists.
Defined.

Lemma no_filter_shows_all_rows_witness :
  filteredQuotesInvoices Engine.v8_source_tail Engine.latin_toLowerCase "" "" "" [invoice]
  = Some [invoice]
  ∧ filteredOperators Engine.v8_source_tail Engine.latin_toLowerCase "" "" "" [technician]
    = Some [technician]
  ∧ filteredInterventions Engine.v8_source_tail Engine.latin_toLowerCase
      "" "" "" "" "" [repair] = Some [repair].
Proof.
  apply no_filter_shows_all_rows; [reflexivity| | |];
    repeat constructor; by eexists.
Defined.

Lemma product_code_finds_device_witness :
  getProductCode Engine.v8_source_tail (get laptop "category") (get laptop "code")
  = "INF-A"
  ∧ laptop ∈ [laptop].
Proof.
  apply (product_code_finds_device Engine.v8_source_tail Engine.latin_toLowerCase
           "inf-a" "Dell" "XPS 13" "A" "Informatique" "INF" laptop [speaker; laptop]);
    try reflexivity.
  - by eexists.
  - apply list_elem_of_further, list_elem_of_here.
Defined.

Lemma category_search_subsumed_witness :
  ∃ label abbreviation,
    VStr "Informatique" = VStr label
    ∧ getCategoryAbbreviation Engine.v8_source_tail (VStr "Informatique")
      = VStr abbreviation
    ∧ (lower_includes Engine.latin_toLowerCase (VStr "Informatique") "inf" = Some true
       ∨ lower_includes Engine.latin_toLowerCase
           (getCategoryAbbreviation Engine.v8_source_tail (VStr "Informatique")) "inf"
         = Some true).
Proof.
  apply (category_search_subsumed Engine.v8_source_tail Engine.latin_toLowerCase
           "inf" (VStr "Informatique")).
  reflexivity.
Defined.

(** Martin owns the laptop and the speaker; with the category [Son] chosen
    the Clients page shows nobody. *)
Lemma clients_category_filter_shows_none_witness :
  filteredClients Engine.v8_source_tail Engine.latin_toLowerCase
    Examples.less_than_sample "" "" "" "" "Son" [laptop; speaker] [martin] = Some [].
Proof.
  apply (clients_category_filter_shows_none Engine.v8_source_tail
           Engine.latin_toLowerCase Examples.less_than_sample
           "" "" "" "" "Son" [laptop; speaker] [martin]).
  - discriminate.
  - repeat constructor. by eexists.
  - repeat constructor. exists "Martin", "Léa", "lea@example.org".
    repeat split; [discriminate|by eexists].
  - repeat constructor; by eexists.
Defined.

End ListFilterFacts.

(** ** The order of the sorted lists *)

Module SortOrder.
Import JS ListSort.

(** [[...filteredOperators].sort(...)] in Operators.tsx. *)
Definition sortedOperators (toLowerCase : string → string)
    (less_than : value → value → bool) (filteredOperators : list row)
    (sortField : string) (sortDirection : direction) : list row :=
  sort (compareRows toLowerCase less_than sortField sortDirection) filteredOperators.

(** *** The insertion sort, for a comparator that is consistent on the
    elements sorted *)

Section InOrder.
Context {A : Type}.
Variable comparefn : A → A → Z.

(** [x] may stand before [y]. *)
Definition in_order (x y : A) : Prop := (comparefn x y <= 0)%Z.

(** The elements being sorted. *)
Variable sorted_here : A → Prop.

Hypothesis comparefn_opposite :
  ∀ x y, sorted_here x → sorted_here y → (comparefn y x > 0)%Z → in_order x y.
Hypothesis in_order_trans :
  ∀ x y z, sorted_here x → sorted_here y → sorted_here z →
           in_order x y → in_order y z → in_order x z.

Lemma insert_in_order x prefix_rev :
  sorted_here x → Forall sorted_here prefix_rev →
  StronglySorted (flip in_order) prefix_rev →
  StronglySorted (flip in_order) (insert comparefn x prefix_rev).
Proof.
  intros Hx Hall Hsorted.
  induction Hsorted as [|y rest Hsorted IH Hy]; simpl; [by repeat constructor|].
  apply Forall_cons in Hall as [Py Hall].
  destruct (Z.gtb_spec (comparefn y x) 0) as [Hgt|Hle].
  - constructor; [by apply IH|].
    rewrite insert_Permutation. constructor; [|done].
    apply comparefn_opposite; [done..|lia].
  - constructor; [by constructor|].
    constructor; [exact Hle|].
    rewrite Forall_forall in Hy, Hall. apply Forall_forall. intros z Hz.
    exact (in_order_trans z y x (Hall z Hz) Py Hx (Hy z Hz) Hle).
Qed.

Lemma fold_insert_in_order l prefix_rev :
  Forall sorted_here l → Forall sorted_here prefix_rev →
  StronglySorted (flip in_order) prefix_rev →
  StronglySorted (flip in_order)
    (fold_left (λ prefix_rev x, insert comparefn x prefix_rev) l prefix_rev).
Proof.
  intros Hl. revert prefix_rev.
  induction Hl as [|x l Hx _ IH]; intros prefix_rev Hall Hsorted; simpl; [done|].
  apply IH.
  - rewrite insert_Permutation. by constructor.
  - by apply insert_in_order.
Qed.

Lemma StronglySorted_rev (R : A → A → Prop) l :
  StronglySorted (flip R) l → StronglySorted R (rev l).
Proof.
  induction 1 as [|x l _ IH Hx]; simpl; [constructor|].
  apply StronglySorted_app_2; [|done|by repeat constructor].
  intros x1 x2 Hx1 ->%list_elem_of_singleton.
  rewrite Forall_forall in Hx. apply Hx.
  apply list_elem_of_In, in_rev. by apply list_elem_of_In.
Qed.

Lemma sort_in_order l :
  Forall sorted_here l → StronglySorted in_order (sort comparefn l).
Proof.
  intros Hl. apply StronglySorted_rev.
  apply fold_insert_in_order; [done|constructor|constructor].
Qed.

End InOrder.

Section AlreadyInOrder.
Context {A : Type}.
Variable comparefn : A → A → Z.

Lemma fold_insert_in_place l prefix_rev :
  StronglySorted (in_order comparefn) l →
  (∀ x y, x ∈ l → y ∈ prefix_rev → in_order comparefn y x) →
  fold_left (λ prefix_rev x, insert comparefn x prefix_rev) l prefix_rev
  = rev l ++ prefix_rev.
Proof.
  intros Hl. revert prefix_rev.
  induction Hl as [|x l _ IH Hx]; intros prefix_rev Hacc; simpl; [done|].
  assert (Hins : insert comparefn x prefix_rev = x :: prefix_rev).
  { destruct prefix_rev as [|y rest]; simpl; [done|].
    destruct (Z.gtb_spec (comparefn y x) 0) as [Hgt|Hle]; [|done].
    specialize (Hacc x y (list_elem_of_here _ _) (list_elem_of_here _ _)).
    unfold in_order in Hacc. lia. }
  rewrite Hins, IH, <- app_assoc; [done|].
  intros x' y Hx' [->|Hy]%elem_of_cons.
  - rewrite Forall_forall in Hx. by apply Hx.
  - apply Hacc; [by apply list_elem_of_further|done].
Qed.

(** A list already in order is left as it is. *)
Lemma sort_in_place l :
  StronglySorted (in_order comparefn) l → sort comparefn l = l.
Proof.
  intros Hl. unfold sort. rewrite fold_insert_in_place; [|done|].
  - by rewrite app_nil_r, rev_involutive.
  - by intros x y _ ?%elem_of_nil.
Qed.

End AlreadyInOrder.

(** *** The comparator of the pages *)

Section Pages.

Variable toLowerCase : string → string.
Variable less_than : value → value → bool.

(** The value the comparator reads in a row. *)
Definition sort_key (sortField : string) (r : row) : value :=
  lower_if_string toLowerCase (get r sortField).

(** [less_than] orders the keys of [rows] consistently: never both ways,
    and "not less" is transitive. *)
Definition consistent_on (sortField : string) (rows : list row) : Prop :=
  (∀ a b, a ∈ rows → b ∈ rows →
     less_than (sort_key sortField a) (sort_key sortField b) = true →
     less_than (sort_key sortField b) (sort_key sortField a) = false)
  ∧ (∀ a b c, a ∈ rows → b ∈ rows → c ∈ rows →
       less_than (sort_key sortField a) (sort_key sortField b) = false →
       less_than (sort_key sortField b) (sort_key sortField c) = false →
       less_than (sort_key sortField a) (sort_key sortField c) = false).

(** No later row has a smaller key (ascending) or a greater one
    (descending). *)
Definition ordered_by (sortField : string) (sortDirection : direction) (a b : row) : Prop :=
  match sortDirection with
  | asc => less_than (sort_key sortField b) (sort_key sortField a) = false
  | desc => less_than (sort_key sortField a) (sort_key sortField b) = false
  end.

Lemma compareRows_le sortField sortDirection a b :
  sortField ≠ "" →
  ordered_by sortField sortDirection a b →
  in_order (compareRows toLowerCase less_than sortField sortDirection) a b.
Proof.
  intros Hfield Hord. unfold in_order, compareRows.
  destruct (negb (truthy (VStr sortField))); [done|].
  fold (sort_key sortField a). fold (sort_key sortField b).
  destruct sortDirection; simpl in Hord; rewrite Hord; case_match; lia.
Qed.

Lemma compareRows_ordered sortField sortDirection rows a b :
  sortField ≠ "" → consistent_on sortField rows → a ∈ rows → b ∈ rows →
  in_order (compareRows toLowerCase less_than sortField sortDirection) a b →
  ordered_by sortField sortDirection a b.
Proof.
  intros Hfield [Hasym _] Ha Hb. unfold in_order, compareRows.
  destruct (negb (truthy (VStr sortField))) eqn:Hno.
  { apply negb_true_iff, ListFilterFacts.truthy_VStr in Hno. done. }
  fold (sort_key sortField a). fold (sort_key sortField b).
  pose proof (Hasym a b Ha Hb) as Hab. pose proof (Hasym b a Hb Ha) as Hba.
  destruct sortDirection; simpl;
    destruct (less_than (sort_key sortField a) (sort_key sortField b)),
             (less_than (sort_key sortField b) (sort_key sortField a));
    try done; try lia; auto.
Qed.

Lemma sort_ordered sortField sortDirection rows :
  sortField ≠ "" → consistent_on sortField rows →
  StronglySorted (ordered_by sortField sortDirection)
    (sort (compareRows toLowerCase less_than sortField sortDirection) rows).
Proof.
  intros Hfield Hcons.
  set (comparefn := compareRows toLowerCase less_than sortField sortDirection).
  assert (Hsorted : StronglySorted (in_order comparefn) (sort comparefn rows)).
  { apply (sort_in_order comparefn (λ r, r ∈ rows)).
    - intros x y Hx Hy Hgt. apply compareRows_le; [done|].
      assert (Hyx : ¬ in_order comparefn y x) by (unfold in_order; lia).
      destruct Hcons as [Hasym Hneg].
      pose proof (Hasym x y Hx Hy) as Hab. pose proof (Hasym y x Hy Hx) as Hba.
      unfold in_order, comparefn, compareRows in Hyx.
      destruct (negb (truthy (VStr sortField))); [lia|].
      fold (sort_key sortField x) in Hyx. fold (sort_key sortField y) in Hyx.
      destruct sortDirection; simpl;
        destruct (less_than (sort_key sortField x) (sort_key sortField y)),
                 (less_than (sort_key sortField y) (sort_key sortField x));
        try done; try lia; auto.
    - intros x y z Hx Hy Hz Hxy Hyz. apply compareRows_le; [done|].
      apply (compareRows_ordered _ _ rows) in Hxy; [|done..].
      apply (compareRows_ordered _ _ rows) in Hyz; [|done..].
      destruct Hcons as [_ Hneg].
      destruct sortDirection; simpl in *; eauto.
    - by apply Forall_forall. }
  assert (Hin : Forall (λ r, r ∈ rows) (sort comparefn rows)).
  { apply Forall_forall. intros r Hr. by rewrite sort_Permutation in Hr. }
  induction Hsorted as [|x l Hsorted IH Hx]; [constructor|].
  apply Forall_cons in Hin as [Hx_in Hin].
  constructor; [by apply IH|].
  rewrite Forall_forall in Hx, Hin. apply Forall_forall. intros y Hy.
  apply (compareRows_ordered _ _ rows); auto.
Qed.

(** X7.  With a sort column chosen and keys that the engine's [<] orders
    consistently (strings among themselves, numbers among themselves), the
    list each page shows is in order: no row comes after a row with a greater
    key when ascending, none after a row with a smaller key when descending. *)
Theorem sorted_lists_in_order
    (filtered : list row) (sortField : string) (sortDirection : direction) :
  sortField ≠ "" →
  consistent_on sortField filtered →
  StronglySorted (ordered_by sortField sortDirection)
    (sortedDevices toLowerCase less_than filtered sortField sortDirection)
  ∧ StronglySorted (ordered_by sortField sortDirection)
      (sortedInterventions toLowerCase less_than filtered sortField sortDirection)
  ∧ StronglySorted (ordered_by sortField sortDirection)
      (sortedQuotesInvoices toLowerCase less_than filtered sortField sortDirection)
  ∧ StronglySorted (ordered_by sortField sortDirection)
      (sortedOperators toLowerCase less_than filtered sortField sortDirection).
Proof.
  intros Hfield Hcons.
  unfold sortedDevices, sortedInterventions, sortedQuotesInvoices, sortedOperators.
  repeat split; by apply sort_ordered.
Qed.

(** X8.  The sort never reshuffles a list that is already in order: such a
    list comes back as it is, rows with equal keys included, and sorting the
    shown list again (same column, same direction) changes nothing. *)
Theorem sorted_lists_stay_put
    (filtered : list row) (sortField : string) (sortDirection : direction) :
  sortField ≠ "" →
  consistent_on sortField filtered →
  (StronglySorted (ordered_by sortField sortDirection) filtered →
   sortedDevices toLowerCase less_than filtered sortField sortDirection = filtered)
  ∧ sortedDevices toLowerCase less_than
      (sortedDevices toLowerCase less_than filtered sortField sortDirection)
      sortField sortDirection
    = sortedDevices toLowerCase less_than filtered sortField sortDirection.
Proof.
  intros Hfield Hcons.
  assert (Hplace : ∀ l, StronglySorted (ordered_by sortField sortDirection) l →
            sortedDevices toLowerCase less_than l sortField sortDirection = l).
  { intros l Hl. apply sort_in_place.
    induction Hl as [|x l Hl IH Hx]; constructor; [done|].
    eapply Forall_impl; [exact Hx|]. intros y Hy. by apply compareRows_le. }
  split; [apply Hplace|]. apply Hplace. by apply sort_ordered.
Qed.

End Pages.

(** Three brands, compared as the page compares them. *)
Lemma brands_consistent :
  consistent_on Engine.latin_toLowerCase Examples.less_than_sample "brand"
    [Examples.hp; Examples.dell; Examples.apple].
Proof.
  split.
  - intros a b Ha Hb.
    repeat (apply elem_of_cons in Ha as [->|Ha]); [| | |by apply elem_of_nil in Ha];
      (repeat (apply elem_of_cons in Hb as [->|Hb]); [| | |by apply elem_of_nil in Hb]);
      by vm_compute.
  - intros a b c Ha Hb Hc.
    repeat (apply elem_of_cons in Ha as [->|Ha]); [| | |by apply elem_of_nil in Ha];
      (repeat (apply elem_of_cons in Hb as [->|Hb]); [| | |by apply elem_of_nil in Hb]);
      (repeat (apply elem_of_cons in Hc as [->|Hc]); [| | |by apply elem_of_nil in Hc]);
      by vm_compute.
Qed.

Lemma sorted_lists_in_order_witness :
  StronglySorted (ordered_by Engine.latin_toLowerCase Examples.less_than_sample "brand" desc)
    (sortedDevices Engine.latin_toLowerCase Examples.less_than_sample
       [Examples.hp; Examples.dell; Examples.apple] "brand" desc)
  ∧ StronglySorted
      (ordered_by Engine.latin_toLowerCase Examples.less_than_sample "brand" desc)
      (sortedInterventions Engine.latin_toLowerCase Examples.less_than_sample
         [Examples.hp; Examples.dell; Examples.apple] "brand" desc)
  ∧ StronglySorted
      (ordered_by Engine.latin_toLowerCase Examples.less_than_sample "brand" desc)
      (sortedQuotesInvoices Engine.latin_toLowerCase Examples.less_than_sample
         [Examples.hp; Examples.dell; Examples.apple] "brand" desc)
  ∧ StronglySorted
      (ordered_by Engine.latin_toLowerCase Examples.less_than_sample "brand" desc)
      (sortedOperators Engine.latin_toLowerCase Examples.less_than_sample
         [Examples.hp; Examples.dell; Examples.apple] "brand" desc).
Proof.
  apply sorted_lists_in_order; [discriminate|exact brands_consistent].
Defined.

Lemma sorted_lists_stay_put_witness :
  sortedDevices Engine.latin_toLowerCase Examples.less_than_sample
    (sortedDevices Engine.latin_toLowerCase Examples.less_than_sample
       [Examples.hp; Examples.dell; Examples.apple] "brand" asc)
    "brand" asc
  = sortedDevices Engine.latin_toLowerCase Examples.less_than_sample
      [Examples.hp; Examples.dell; Examples.apple] "brand" asc.
Proof.
  apply (sorted_lists_stay_put Engine.latin_toLowerCase Examples.less_than_sample
           [Examples.hp; Examples.dell; Examples.apple] "brand" asc);
    [discriminate|exact brands_consistent].
Defined.

(** X9.  A click on a column header makes that column the sort column; the
    first click on a new column sorts ascending, and each further click on it
    flips the direction, so that two more clicks restore the order. *)
Theorem handleSort_toggles (state : string * direction) (field other : string) :
  (handleSort state field).1 = field
  ∧ (state.1 ≠ field → handleSort state field = (field, asc))
  ∧ handleSort (handleSort state field) field
    = (field, match (handleSort state field).2 with asc => desc | desc => asc end)
  ∧ handleSort (handleSort (handleSort state field) field) field = handleSort state field
  ∧ (other ≠ field → handleSort (handleSort state field) other = (other, asc)).
Proof.
  destruct state as [sortField sortDirection]. unfold handleSort. simpl.
  destruct (String.eqb_spec sortField field) as [->|Hne]; simpl;
    rewrite ?String.eqb_refl; simpl; rewrite ?String.eqb_refl.
  - repeat split; [done|by destruct sortDirection|].
    intros Hother. by destruct (String.eqb_spec field other) as [->|].
  - repeat split.
    intros Hother. by destruct (String.eqb_spec field other) as [->|].
Qed.

End SortOrder.

(** ** The figures of the dashboard *)

Module DashboardCounts.
Import JS JSMethods.
Export ListSort(row).

(** [array.reduce(callback, initial)] with a callback that can throw. *)
Fixpoint reduce {A B} (callback : B → A → option B) (array : list A) (initial : B)
  : option B :=
  match array with
  | [] => Some initial
  | x :: rest => acc ← callback initial x; reduce callback rest acc
  end.

Section WithEngine.

Variable native_source_tail : string → string.

(** [(current || 0) + 1]: a number is incremented; [true] counts as 1; any
    other truthy value is printed and [1] is appended to the text. *)
Definition increment (current : value) : option value :=
  match or_else current (VNum 0) with
  | VNum n => Some (VNum (n + 1))
  | VBool _ => Some (VNum 2)
  | VUndef | VNull => Some (VNum 1)      (* not reached: replaced by 0 *)
  | v => s ← template_of native_source_tail v; Some (VStr (s +:+ "1"))
  end.

(** [acc[key] = v] for a primitive [v]: an own property is written, except
    under the key [__proto__], the prototype accessor, which ignores a
    primitive. *)
Definition assign (acc : list (string * value)) (key : string) (v : value)
  : list (string * value) :=
  if String.eqb key "__proto__" then acc else set_property acc key v.

(** The callback of the four [reduce] calls:
    [if (!item[field]) return acc;
     acc[item[field]] = (acc[item[field]] || 0) + 1; return acc]. *)
Definition count_step (field : string) (acc : list (string * value)) (item : row)
  : option (list (string * value)) :=
  let v := get item field in
  if negb (truthy v) then Some acc
  else
    key ← template_of native_source_tail v;
    updated ← increment (get acc key);
    Some (assign acc key updated).

Definition tally (field : string) (rows : list row) : option (list (string * value)) :=
  reduce (count_step field) rows [].

(** [validDevices.reduce(...)] by category and by condition. *)
Definition devicesByCategory (validDevices : list row) := tally "category" validDevices.
Definition devicesByCondition (validDevices : list row) :=
  tally "external_condition" validDevices.

(** [result.data?.reduce(...) || {}]. *)
Definition interventionsByType (data : option (list row)) :=
  match data with
  | Some rows => tally "type" rows
  | None => Some []
  end.

Definition interventionsByStatus (data : option (list row)) :=
  match data with
  | Some rows => tally "status" rows
  | None => Some []
  end.

(** [validDevices.filter(d => d.in_stock).length || 0]. *)
Definition devicesInStock (validDevices : list row) : Z :=
  Z.of_nat (length (List.filter (λ d, truthy (get d "in_stock")) validDevices)).

(** [validInterventions.filter(i => i.status === 'En cours').length || 0]. *)
Definition activeInterventions (validInterventions : list row) : Z :=
  Z.of_nat (length (List.filter (λ i, strict_eq (get i "status") (VStr "En cours"))
                      validInterventions)).

End WithEngine.

End DashboardCounts.

Module DashboardFacts.
Import JS JSMethods DashboardCounts.

Lemma own_property_set_property fields key v key' :
  own_property (set_property fields key v) key'
  = if String.eqb key key' then Some v else own_property fields key'.
Proof.
  induction fields as [|[k w] rest IH]; simpl.
  - by destruct (String.eqb key key').
  - destruct (String.eqb_spec k key) as [Heq|Hne]; simpl.
    + subst k. by destruct (String.eqb key key').
    + rewrite IH. destruct (String.eqb_spec key key') as [Heq|Hne'].
      * subst key'. by apply String.eqb_neq in Hne as ->.
      * done.
Qed.

Section WithEngine.

Variable native_source_tail : string → string.

(** The row counts under [label]: its field is truthy and prints as
    [label]. *)
Definition counts_under (field label : string) (item : row) : bool :=
  truthy (get item field)
  && bool_decide (template_of native_source_tail (get item field) = Some label).

Definition occurrences (field label : string) (rows : list row) : nat :=
  length (List.filter (counts_under field label) rows).

(** What the accumulator holds under [label] after [n] occurrences. *)
Definition holds (acc : list (string * value)) (label : string) (n : nat) : Prop :=
  own_property acc label = if (n =? 0)%nat then None else Some (VNum (Z.of_nat n)).

Lemma count_step_holds field acc item acc' label n :
  inherited_property label = None →
  count_step native_source_tail field acc item = Some acc' →
  holds acc label n →
  holds acc' label (n + if counts_under field label item then 1 else 0).
Proof.
  intros Hinh Hstep Hacc. unfold count_step in Hstep. unfold counts_under.
  destruct (truthy (get item field)); simpl in *;
    [|injection Hstep as <-; by rewrite Nat.add_0_r].
  destruct (template_of native_source_tail (get item field)) as [key|]; [|done].
  simpl in Hstep.
  destruct (increment native_source_tail (get acc key)) as [updated|] eqn:Hinc; [|done].
  injection Hstep as <-.
  assert (Hproto : String.eqb label "__proto__" = false).
  { destruct (String.eqb_spec label "__proto__") as [->|]; [done|done]. }
  unfold assign. destruct (decide (key = label)) as [->|Hne].
  - rewrite bool_decide_eq_true_2 by done. rewrite Hproto.
    unfold holds in *. rewrite own_property_set_property, String.eqb_refl.
    replace (n + 1 =? 0)%nat with false by (symmetry; apply Nat.eqb_neq; lia).
    unfold increment, get in Hinc. rewrite Hacc, Hinh in Hinc.
    destruct (Nat.eqb_spec n 0) as [->|Hn]; simpl in Hinc.
    + by injection Hinc as <-.
    + unfold or_else in Hinc. simpl in Hinc.
      replace (Z.of_nat n =? 0)%Z with false in Hinc
        by (symmetry; apply Z.eqb_neq; lia).
      simpl in Hinc. injection Hinc as <-. do 2 f_equal. lia.
  - rewrite bool_decide_eq_false_2 by congruence. rewrite Nat.add_0_r.
    unfold holds in *. destruct (String.eqb key "__proto__"); [done|].
    rewrite own_property_set_property.
    by apply String.eqb_neq in Hne as ->.
Qed.

Lemma reduce_holds field rows acc acc' label n :
  inherited_property label = None →
  reduce (count_step native_source_tail field) rows acc = Some acc' →
  holds acc label n →
  holds acc' label (n + occurrences field label rows).
Proof.
  intros Hinh. revert acc n. induction rows as [|item rows IH]; intros acc n; simpl.
  - intros [= <-] Hacc. unfold occurrences. simpl. by rewrite Nat.add_0_r.
  - destruct (count_step native_source_tail field acc item) as [acc1|] eqn:Hstep;
      [|done].
    simpl. intros Hrest Hacc.
    pose proof (count_step_holds _ _ _ _ _ _ Hinh Hstep Hacc) as Hacc1.
    specialize (IH _ _ Hrest Hacc1). unfold occurrences in *. simpl.
    destruct (counts_under field label item); simpl;
      [by rewrite <- Nat.add_assoc in IH|by rewrite Nat.add_0_r in IH].
Qed.

(** The accumulator holds numbers and texts only. *)
Definition primitive (v : value) : Prop :=
  match v with VNum _ | VStr _ => True | _ => False end.

Lemma increment_primitive current :
  primitive current ∨ (∃ b, current = VBuiltin b) ∨ current = VUndef →
  ∃ updated, increment native_source_tail current = Some updated ∧ primitive updated.
Proof.
  unfold increment, or_else.
  intros [Hp|[[b ->]| ->]]; [destruct current; try done| |]; simpl.
  - destruct (n =? 0)%Z; by eexists.
  - destruct (String.eqb s ""); simpl; by eexists.
  - destruct b; simpl; by eexists.
  - by eexists.
Qed.

Lemma get_primitive acc key :
  Forall (λ kv, primitive kv.2) acc →
  primitive (get acc key) ∨ (∃ b, get acc key = VBuiltin b) ∨ get acc key = VUndef.
Proof.
  intros Hacc. unfold get.
  destruct (own_property acc key) as [v|] eqn:Hown.
  - left. apply CategoryUtils.own_property_In in Hown.
    rewrite Forall_forall in Hacc. apply (Hacc (key, v)). by apply list_elem_of_In.
  - right. unfold inherited_property.
    destruct (String.eqb key "__proto__"); [left; by eexists|].
    destruct (existsb _ _); [left; by eexists|by right].
Qed.

Lemma set_property_primitive acc key v :
  Forall (λ kv, primitive kv.2) acc → primitive v →
  Forall (λ kv, primitive kv.2) (set_property acc key v).
Proof.
  intros Hacc Hv. induction acc as [|[k w] rest IH]; simpl; [by repeat constructor|].
  apply Forall_cons in Hacc as [Hw Hrest].
  destruct (String.eqb k key); constructor; auto.
Qed.

Lemma reduce_is_Some field rows acc :
  Forall (λ item, is_Some (template_of native_source_tail (get item field))) rows →
  Forall (λ kv, primitive kv.2) acc →
  is_Some (reduce (count_step native_source_tail field) rows acc).
Proof.
  intros Hrows. revert acc.
  induction Hrows as [|item rows [key Hkey] _ IH]; intros acc Hacc; simpl; [by eexists|].
  unfold count_step. destruct (negb (truthy (get item field))); simpl; [by apply IH|].
  rewrite Hkey. simpl.
  destruct (increment_primitive _ (get_primitive acc key Hacc)) as (updated & -> & Hp).
  simpl. apply IH. unfold assign. destruct (String.eqb key "__proto__"); [done|].
  by apply set_property_primitive.
Qed.

Lemma tally_get field label rows counts :
  inherited_property label = None →
  tally native_source_tail field rows = Some counts →
  get counts label
  = if (occurrences field label rows =? 0)%nat then VUndef
    else VNum (Z.of_nat (occurrences field label rows)).
Proof.
  intros Hinh Hcounts.
  assert (Hempty : holds [] label 0) by reflexivity.
  pose proof (reduce_holds _ _ _ _ _ _ Hinh Hcounts Hempty) as H.
  unfold holds in H. simpl in H. unfold get. rewrite H, Hinh.
  by destruct (_ =? 0)%nat.
Qed.

(** X10.  The four breakdowns of the dashboard (devices by category and by
    condition, interventions by type and by status) count right: under every
    label that is not a member of [Object.prototype], the tally holds the
    number of rows whose field is that label, and nothing when there is no
    such row; it is computed whenever the fields print. *)
Theorem tally_counts (field label : string) (rows : list row) :
  inherited_property label = None →
  (∀ counts, tally native_source_tail field rows = Some counts →
     get counts label
     = if (occurrences field label rows =? 0)%nat then VUndef
       else VNum (Z.of_nat (occurrences field label rows)))
  ∧ (Forall (λ item, is_Some (template_of native_source_tail (get item field))) rows →
     is_Some (tally native_source_tail field rows)).
Proof.
  intros Hinh. split.
  - intros counts Hcounts. by apply tally_get.
  - intros Hrows. by apply reduce_is_Some.
Qed.

(** X11.  The two dashboard figures about running interventions agree: on
    the same rows, the count of active interventions is the number the status
    breakdown shows under [En cours] (0 when it shows none). *)
Theorem active_matches_status_breakdown (rows : list row) (counts : list (string * value)) :
  interventionsByStatus native_source_tail (Some rows) = Some counts →
  or_else (get counts "En cours") (VNum 0) = VNum (activeInterventions rows).
Proof.
  intros Hcounts. simpl in Hcounts.
  rewrite (tally_get "status" "En cours" rows counts eq_refl Hcounts).
  assert (Hsame : occurrences "status" "En cours" rows
                  = length (List.filter (λ i, strict_eq (get i "status") (VStr "En cours"))
                              rows)).
  { unfold occurrences. f_equal. apply List.filter_ext. intros item.
    unfold counts_under. destruct (get item "status") as [| |b|n|s|fields|b]; simpl;
      try done.
    all: try (destruct b; simpl; done).
    - destruct (n =? 0)%Z; simpl; [done|]. apply bool_decide_eq_false_2.
      intros [= H]. unfold number_to_string in H.
      destruct (Z.to_int n) as [d|d]; simpl in H; [|discriminate H].
      destruct d; discriminate H.
    - destruct (String.eqb_spec s "En cours") as [->|Hne].
      + by rewrite bool_decide_eq_true_2.
      + rewrite bool_decide_eq_false_2 by congruence. by rewrite andb_false_r.
    - destruct (own_property fields "toString"); by apply bool_decide_eq_false_2. }
  unfold activeInterventions. rewrite <- Hsame.
  destruct (Nat.eqb_spec (occurrences "status" "En cours" rows) 0) as [->|Hn]; [done|].
  unfold or_else. simpl.
  by replace (Z.of_nat _ =? 0)%Z with false by (symmetry; apply Z.eqb_neq; lia).
Qed.

End WithEngine.

(** Three devices, two of them computers. *)
Definition stock : list row :=
  [ [("id", VNum 1); ("category", VStr "Informatique")];
    [("id", VNum 2); ("category", VStr "Son")];
    [("id", VNum 3); ("category", VStr "Informatique")];
    [("id", VNum 4); ("category", VNull)] ].

Definition jobs : list row :=
  [ [("id", VNum 1); ("status", VStr "En cours")];
    [("id", VNum 2); ("status", VStr "Terminé")];
    [("id", VNum 3); ("status", VStr "En cours")] ].

Lemma tally_counts_witness :
  devicesByCategory Engine.v8_source_tail stock
  = Some [("Informatique", VNum 2); ("Son", VNum 1)]
  ∧ get [("Informatique", VNum 2); ("Son", VNum 1)] "Informatique" = VNum 2
  ∧ is_Some (tally Engine.v8_source_tail "category" stock).
Proof.
  assert (H : devicesByCategory Engine.v8_source_tail stock
              = Some [("Informatique", VNum 2); ("Son", VNum 1)]) by reflexivity.
  split; [exact H|].
  destruct (tally_counts Engine.v8_source_tail "category" "Informatique" stock eq_refl)
    as [Hget Hsome].
  split; [exact (Hget _ H)|].
  apply Hsome. repeat constructor; by eexists.
Defined.

Lemma active_matches_status_breakdown_witness :
  or_else (get [("En cours", VNum 2); ("Terminé", VNum 1)] "En cours") (VNum 0)
  = VNum (activeInterventions jobs).
Proof.
  apply (active_matches_status_breakdown Engine.v8_source_tail jobs). reflexivity.
Defined.

End DashboardFacts.

(** ** What the operations send *)

Module OperationFacts.
Import JS Backend Catalogue ListPageFacts.

(** *** Queries *)

Definition is_write (c : call) : bool :=
  match c with
  | Insert _ | Update _ | Delete | Upload _ | Remove _ => true
  | _ => false
  end.

(** A query that only reads. *)
Definition read_only (q : query) : bool := negb (existsb is_write q).

Definition changes_rows (c : call) : bool :=
  match c with
  | Update _ | Delete => true
  | _ => false
  end.

Definition is_id_filter (c : call) : bool :=
  match c with
  | Eq column _ => String.eqb column "id"
  | _ => false
  end.

(** An update or a delete carries the filter [.eq('id', ...)]. *)
Definition row_targeted (q : query) : bool :=
  implb (existsb changes_rows q) (existsb is_id_filter q).

Definition on_storage (q : query) : bool :=
  existsb (λ c, match c with StorageFrom _ => true | _ => false end) q.

(** Every query of the trace satisfies [P]. *)
Definition all_queries (P : query → bool) (t : trace) : bool :=
  forallb (λ ev, match ev with Called q _ => P q | _ => true end) t.

Lemma all_queries_app P t1 t2 :
  all_queries P (t1 ++ t2) = all_queries P t1 && all_queries P t2.
Proof. apply forallb_app. Qed.

Lemma all_queries_sent P t :
  all_queries P t = true ↔ Forall (λ q, P q = true) (queries_sent t).
Proof.
  unfold queries_sent. induction t as [|ev t IH]; simpl; [by split|].
  destruct ev; simpl; rewrite ?andb_true_iff, ?Forall_cons, IH; tauto.
Qed.

(** *** Computations all of whose queries satisfy [P] *)

Section SendsOnly.

Variable P : query → bool.

Definition sends_only {A} (m : M A) : Prop := ∀ w, all_queries P (m w).2 = true.

Lemma sends_only_ret {A} (a : A) : sends_only (mret a).
Proof. by intros w. Qed.

Lemma sends_only_emit ev :
  (∀ q a, ev ≠ Called q a) → sends_only (emit ev).
Proof. intros Hev w. destruct ev; simpl; try done. by destruct (Hev q a). Qed.

Lemma sends_only_await q : P q = true → sends_only (await q).
Proof.
  intros Hq w. unfold await, settle.
  destruct (backend w q) as [r|e]; simpl; by rewrite Hq.
Qed.

Lemma sends_only_bind {A B} (m : M A) (k : A → M B) :
  sends_only m → (∀ a, sends_only (k a)) → sends_only (m ≫= k).
Proof.
  intros Hm Hk w. specialize (Hm w). unfold mbind, M_bind, bind.
  destruct (m w) as [[a|e] t]; simpl in *; [|done].
  specialize (Hk a w). destruct (k a w) as [o t']; simpl in *.
  by rewrite all_queries_app, Hm, Hk.
Qed.

Lemma sends_only_both {A B} (m1 : M A) (m2 : M B) :
  sends_only m1 → sends_only m2 → sends_only (both m1 m2).
Proof.
  intros H1 H2 w. specialize (H1 w). specialize (H2 w). unfold both.
  destruct (m1 w) as [o1 t1], (m2 w) as [o2 t2]; simpl in *.
  by rewrite all_queries_app, H1, H2.
Qed.

Lemma sends_only_promise_all {A} (ms : list (M A)) :
  Forall sends_only ms → sends_only (promise_all ms).
Proof.
  induction 1 as [|m ms Hm _ IH]; [by intros w|].
  intros w. pose proof (sends_only_both _ _ Hm IH w) as H.
  cbn [promise_all]. by destruct (both m (promise_all ms) w) as [[[a l]|e] t].
Qed.

Lemma sends_only_recover {A} (m alternative : M A) :
  sends_only m → sends_only alternative → sends_only (recover m alternative).
Proof.
  intros H1 H2 w. specialize (H1 w). specialize (H2 w). unfold recover.
  destruct (m w) as [[a|e] t1]; simpl in *; [done|].
  destruct (alternative w) as [o t2]; simpl in *.
  by rewrite all_queries_app, H1, H2.
Qed.

Lemma sends_only_try_catch_finally body handler finalizer :
  sends_only body → (∀ e, sends_only (handler e)) → sends_only finalizer →
  sends_only (try_catch_finally body handler finalizer).
Proof.
  intros Hb Hh Hf w. specialize (Hb w). specialize (Hf w). unfold try_catch_finally.
  destruct (body w) as [[[]|e] t1]; simpl in *.
  - destruct (finalizer w) as [o3 t3]; simpl in *.
    by rewrite all_queries_app, Hb, Hf.
  - specialize (Hh e w). destruct (handler e w) as [o2 t2]; simpl in *.
    destruct (finalizer w) as [o3 t3]; simpl in *.
    by rewrite !all_queries_app, Hb, Hh, Hf.
Qed.

Lemma sends_only_throw_if_error {D} (r : response D) : sends_only (throw_if_error r).
Proof. intros w. unfold throw_if_error. by destruct (error_of r). Qed.

End SendsOnly.

(** The operators page: one query for the list, two counts per operator. *)
Lemma fetchOperators_sends_only P :
  P [From "operators"; Select "*"; Order "created_at" false] = true →
  (∀ v, P [From "devices"; SelectCount "id"; Eq "operator_id" v] = true) →
  (∀ v, P [From "interventions"; SelectCount "id"; Eq "operator_id" v] = true) →
  sends_only P Operators.fetchOperators.
Proof.
  intros Hlist Hdevices Hinterventions.
  apply sends_only_try_catch_finally; [|intros e; by apply sends_only_emit
                                        |by apply sends_only_emit].
  apply sends_only_bind; [by apply sends_only_await|intros r].
  apply sends_only_bind; [apply sends_only_throw_if_error|intros _].
  apply sends_only_bind; [|intros rows; by apply sends_only_emit].
  apply sends_only_promise_all, Forall_forall. intros m Hm.
  apply list_elem_of_In, in_map_iff in Hm as [operator [<- _]].
  unfold Operators.with_counts.
  apply sends_only_bind; [|intros [? ?]; apply sends_only_ret].
  apply sends_only_both; by apply sends_only_await.
Qed.

Lemma fetchDashboardData_sends_only P :
  (∀ q, read_only q = true → P q = true) →
  sends_only P Dashboard.fetchDashboardData.
Proof.
  intros HP.
  apply sends_only_try_catch_finally; [| |by apply sends_only_emit].
  - unfold Dashboard.reset_data.
    repeat (apply sends_only_bind; [by apply sends_only_emit|intros _]).
    apply sends_only_bind.
    + apply sends_only_promise_all.
      repeat first [apply Forall_nil_2 | apply Forall_cons_2];
        first [apply sends_only_await; by apply HP
              | apply sends_only_recover; apply sends_only_await; by apply HP].
    + intros results.
      do 7 (destruct results as [|? results]; [apply sends_only_ret|]).
      destruct results; [|apply sends_only_ret].
      repeat (apply sends_only_bind; [by apply sends_only_emit|intros _]).
      by apply sends_only_emit.
  - intros e. unfold Dashboard.reset_data.
    repeat (apply sends_only_bind; [by apply sends_only_emit|intros _]).
    by apply sends_only_emit.
Qed.

(** Case analysis on every answer of the backend and of the user. *)
Ltac run_cases :=
  ErrorHandling.unfold_monad; cbn; repeat (ErrorHandling.case_step; cbn).

Lemma Forall_filter_2 {A} (f : A → bool) (Q : A → Prop) l :
  Forall (λ x, f x = true → Q x) l → Forall Q (List.filter f l).
Proof.
  induction 1 as [|x l Hx _ IH]; simpl; [constructor|].
  destruct (f x); [constructor; auto|done].
Qed.

(** *** Reading never writes *)

(** The operations that load data: the [fetch...] functions and the
    dashboard search. *)
Definition loads (o : operation) : bool :=
  String.prefix "fetch" (name o) || String.eqb (name o) "performSearch".

Definition never_writes (o : operation) : Prop :=
  ∀ (i : inputs) (w : env), all_queries read_only (run (run_with o i) w).2 = true.

Lemma list_loads_never_write :
  Forall (λ o, loads o = true → never_writes o) list_operations.
Proof.
  unfold list_operations.
  ErrorHandling.each_operation ltac:(intros Hloads; first
    [ discriminate Hloads
    | intros i w; by apply fetchOperators_sends_only
    | intros i w; by apply fetchDashboardData_sends_only
    | cbv delta [Devices.fetchDevices Devices.fetchOperators Devices.fetchClients
        Clients.fetchClients Clients.fetchDevices
        QuotesInvoices.fetchQuotesInvoices Interventions.fetchInterventions
        Interventions.fetchOperators Interventions.fetchClients
        Dashboard.performSearch never_writes]; intros i w; run_cases; reflexivity ]).
Qed.

Lemma detail_loads_never_write :
  Forall (λ o, loads o = true → never_writes o) detail_operations.
Proof.
  unfold detail_operations.
  ErrorHandling.each_operation ltac:(intros Hloads; first
    [ discriminate Hloads
    | cbv delta [DeviceDetail.fetchDevice ClientDetail.fetchClient
        ClientDetail.fetchClientOrders ClientDetail.fetchQuotesInvoices
        ClientDetail.fetchInterventions OperatorDetail.fetchOperator
        InterventionDetail.fetchIntervention QuoteInvoiceDetail.fetchQuoteInvoice
        never_writes]; intros i w; run_cases; reflexivity ]).
Qed.

Lemma form_loads_never_write :
  Forall (λ o, loads o = true → never_writes o) form_operations.
Proof.
  unfold form_operations.
  ErrorHandling.each_operation ltac:(intros Hloads; first
    [ discriminate Hloads
    | cbv delta [DeviceForm.fetchClients DeviceForm.fetchDevice DeviceForm.fetchDeviceFiles
        InterventionForm.fetchDevices InterventionForm.fetchOperators
        InterventionForm.fetchClients InterventionForm.fetchIntervention
        InterventionForm.fetchInterventionFiles
        ClientForm.fetchClient QuoteInvoiceForm.fetchClients
        QuoteInvoiceForm.fetchQuoteInvoice OperatorForm.fetchOperator
        never_writes]; intros i w; run_cases; reflexivity ]).
Qed.

(** X12.  Loading never writes: whatever the backend answers, the 32
    [fetch...] operations of the pages and the dashboard search send only
    queries without [insert], [update], [delete], [upload] or [remove]. *)
Theorem loading_never_writes :
  Forall never_writes (List.filter loads operations)
  ∧ length (List.filter loads operations) = 32.
Proof.
  split; [|reflexivity].
  apply Forall_filter_2. unfold operations. rewrite !Forall_app.
  split; [apply list_loads_never_write|].
  split; [apply detail_loads_never_write|apply form_loads_never_write].
Qed.

(** *** No update or delete without an id *)

Lemma read_only_row_targeted q : read_only q = true → row_targeted q = true.
Proof.
  unfold read_only, row_targeted. intros Hread%negb_true_iff.
  destruct (existsb changes_rows q) eqn:Hchanges; [|done].
  apply existsb_exists in Hchanges as (c & Hin & Hc).
  assert (Hwrite : existsb is_write q = true).
  { apply existsb_exists. exists c. split; [done|]. by destruct c. }
  congruence.
Qed.

Definition writes_by_id (o : operation) : Prop :=
  ∀ (i : inputs) (w : env), all_queries row_targeted (run (run_with o i) w).2 = true.

Lemma list_operations_write_by_id : Forall writes_by_id list_operations.
Proof.
  unfold list_operations.
  ErrorHandling.each_operation ltac:(first
    [ intros i w; by apply fetchOperators_sends_only
    | intros i w; apply fetchDashboardData_sends_only; exact read_only_row_targeted
    | cbv delta [Devices.fetchDevices Devices.fetchOperators Devices.fetchClients
        Clients.fetchClients Clients.fetchDevices Clients.handleDelete
        QuotesInvoices.fetchQuotesInvoices Interventions.fetchInterventions
        Interventions.fetchOperators Interventions.fetchClients
        Dashboard.performSearch writes_by_id]; intros i w; run_cases; reflexivity ]).
Qed.

Lemma detail_operations_write_by_id : Forall writes_by_id detail_operations.
Proof.
  unfold detail_operations.
  ErrorHandling.each_operation ltac:(
    cbv delta [DeviceDetail.fetchDevice DeviceDetail.handleDelete
      ClientDetail.fetchClient ClientDetail.fetchClientOrders
      ClientDetail.fetchQuotesInvoices ClientDetail.fetchInterventions
      ClientDetail.handleDelete OperatorDetail.fetchOperator OperatorDetail.handleDelete
      InterventionDetail.fetchIntervention InterventionDetail.handleDelete
      QuoteInvoiceDetail.fetchQuoteInvoice QuoteInvoiceDetail.handleDelete
      writes_by_id]; intros i w; run_cases; reflexivity).
Qed.

Lemma form_operations_write_by_id : Forall writes_by_id form_operations.
Proof.
  unfold form_operations.
  ErrorHandling.each_operation ltac:(
    cbv delta [DeviceForm.fetchClients DeviceForm.fetchDevice DeviceForm.fetchDeviceFiles
      DeviceForm.handleFileUpload DeviceForm.handleDeleteFile DeviceForm.handleSaveClient
      DeviceForm.handleDeleteClient DeviceForm.handleSubmit
      InterventionForm.fetchDevices InterventionForm.fetchOperators
      InterventionForm.fetchClients InterventionForm.handleSaveClient
      InterventionForm.handleDeleteClient InterventionForm.fetchIntervention
      InterventionForm.fetchInterventionFiles InterventionForm.handleFileUpload
      InterventionForm.handleDeleteFile InterventionForm.handleSubmit
      ClientForm.fetchClient ClientForm.handleSubmit
      QuoteInvoiceForm.fetchClients QuoteInvoiceForm.fetchQuoteInvoice
      QuoteInvoiceForm.handleSubmit OperatorForm.fetchOperator OperatorForm.handleSubmit
      writes_by_id]; intros i w; run_cases; reflexivity).
Qed.

(** X13.  No operation of the pages updates or deletes more than the row
    it names: whatever the backend and the user answer, every query with an
    [update] or a [delete] that any of the 51 operations sends carries the
    filter [.eq('id', ...)]. *)
Theorem writes_name_their_row :
  Forall writes_by_id operations.
Proof.
  unfold operations. rewrite !Forall_app.
  split; [apply list_operations_write_by_id|].
  split; [apply detail_operations_write_by_id|apply form_operations_write_by_id].
Qed.

(** *** Declining the confirmation *)

(** A user who answers no to every dialog, with any backend. *)
Definition declining (backend : query → settled (list row))
    (backend_single : query → settled row) : env :=
  {| backend := backend; backend_single := backend_single; confirm := λ _, false |}.

(** The delete handlers. *)
Definition deletes (o : operation) : bool := String.prefix "handleDelete" (name o).

Definition does_nothing_when_declined (o : operation) : Prop :=
  ∀ backend backend_single (i : inputs),
    run (run_with o i) (declining backend backend_single) = (Returned (), []).

Lemma deletes_ask_first :
  Forall (λ o, deletes o = true → does_nothing_when_declined o) operations.
Proof.
  unfold operations, list_operations, detail_operations, form_operations.
  rewrite !Forall_app. repeat split;
    ErrorHandling.each_operation ltac:(intros Hdeletes; first
      [ discriminate Hdeletes
      | intros b bs i; cbv delta [Clients.handleDelete DeviceDetail.handleDelete
          ClientDetail.handleDelete OperatorDetail.handleDelete
          InterventionDetail.handleDelete QuoteInvoiceDetail.handleDelete
          DeviceForm.handleDeleteFile DeviceForm.handleDeleteClient
          InterventionForm.handleDeleteClient InterventionForm.handleDeleteFile
          declining];
        run_cases; reflexivity ]).
Qed.

(** X14.  The ten delete handlers ask first: when the user declines the
    confirmation, the handler sends no query, changes no state, logs nothing
    and shows nothing, whatever the backend would have answered. *)
Theorem declined_delete_does_nothing :
  Forall does_nothing_when_declined (List.filter deletes operations)
  ∧ List.map (λ o, (page o, name o)) (List.filter deletes operations)
    = [ ("Clients", "handleDelete"); ("DeviceDetail", "handleDelete");
        ("ClientDetail", "handleDelete"); ("OperatorDetail", "handleDelete");
        ("InterventionDetail", "handleDelete"); ("QuoteInvoiceDetail", "handleDelete");
        ("DeviceForm", "handleDeleteFile"); ("DeviceForm", "handleDeleteClient");
        ("InterventionForm", "handleDeleteClient");
        ("InterventionForm", "handleDeleteFile") ].
Proof.
  split; [|reflexivity]. apply Forall_filter_2, deletes_ask_first.
Qed.

(** *** Saving a form *)

(** A form page: its submit handler, the table it writes, the list it
    returns to, and the row it sends. *)
Record form : Type :=
  { submit : inputs → M unit;
    into : string;
    back_to : string;
    sent_row : inputs → row }.

Definition forms : list form :=
  [ {| submit := λ i, DeviceForm.handleSubmit (id i) (formData i);
       into := "devices"; back_to := "/devices"; sent_row := formData |};
    {| submit := λ i, InterventionForm.handleSubmit (id i) (formData i);
       into := "interventions"; back_to := "/interventions"; sent_row := formData |};
    {| submit := λ i, ClientForm.handleSubmit (rt i) (id i) (formData i);
       into := "clients"; back_to := "/clients";
       sent_row := λ i,
         spread_with (formData i)
           [("address", VStr (InterventionForm.full_address (rt i) (formData i)))] |};
    {| submit := λ i, QuoteInvoiceForm.handleSubmit (id i) (formData i);
       into := "quotes_invoices"; back_to := "/quotes-invoices";
       sent_row := λ i,
         spread_with (formData i)
           [("payment_date", or_else (get (formData i) "payment_date") VNull)] |};
    {| submit := λ i, OperatorForm.handleSubmit (id i) (formData i);
       into := "operators"; back_to := "/operators"; sent_row := formData |} ].

(** The one write of a save: an update of the row of the route when there
    is a route id, an insert otherwise. *)
Definition save_query (f : form) (i : inputs) : query :=
  if truthy (id i) then [From (into f); Update (sent_row f i); Eq "id" (id i)]
  else [From (into f); Insert (sent_row f i)].

(** The paths the trace navigates to. *)
Definition navigations (t : trace) : list string :=
  omap (λ ev, match ev with Navigate path => Some path | _ => None end) t.

(** X15.  Saving a form (device, intervention, client, quote or invoice,
    operator) sends exactly one query: an update filtered by the route id
    when editing, an insert when creating.  The page goes back to its list
    exactly when that write succeeded; when it failed the page stays, shows
    the error banner, and in both cases ends with [loading] set to false. *)
Theorem save_sends_one_write :
  Forall
    (λ f, ∀ (i : inputs) (w : env),
       let t := (run (submit f i) w).2 in
       queries_sent t = [save_query f i]
       ∧ navigations t = (if any_failed t then [] else [back_to f])
       ∧ shows_message t = any_failed t
       ∧ last t = Some (SetFlag "loading" false))
    forms.
Proof.
  unfold forms.
  repeat first [apply Forall_nil_2 | apply Forall_cons_2];
    intros i w; unfold save_query; cbn [submit into back_to sent_row];
    cbv delta [DeviceForm.handleSubmit InterventionForm.handleSubmit
      ClientForm.handleSubmit QuoteInvoiceForm.handleSubmit OperatorForm.handleSubmit];
    ErrorHandling.unfold_monad; cbn;
    destruct (truthy (id i)); cbn;
    match goal with
    | |- context [backend ?w ?q] => destruct (backend w q) as [[? [?|] ?]|?]
    end; by cbn.
Qed.

(** *** Attached files *)






(** The queries of [handleDeleteFile] on the device form. *)
Definition file_url_query (fileId : value) : query :=
  [From "device_files"; Select "file_url"; Eq "id" fileId; Single].
Definition remove_query (file_url : value) : query :=
  [StorageFrom "device-files"; Remove [file_url]].
Definition delete_record_query (fileId : value) : query :=
  [From "device_files"; Delete; Eq "id" fileId].

(** X17.  Deleting an attached file.  On the device form, once the user
    confirms and the record's [file_url] has been read, the stored file is
    removed and then the record is deleted, and the record is deleted even
    when the removal came back with an error (only a rejected promise stops
    the handler).  On the intervention form the handler never touches the
    storage: it deletes the record and leaves the file in the bucket. *)
Theorem delete_file_storage (id fileId : value) (w : env) :
  (∀ (record : row) (lookup_error : option error) (c : option Z)
     (removal : response (list row)),
     confirm w "Êtes-vous sûr de vouloir supprimer ce fichier ?" = true →
     backend_single w (file_url_query fileId)
     = Fulfilled {| data := Some record; error_of := lookup_error; count := c |} →
     truthy (get record "file_url") = true →
     backend w (remove_query (get record "file_url")) = Fulfilled removal →
     take 3 (queries_sent (run (DeviceForm.handleDeleteFile id fileId) w).2)
     = [ file_url_query fileId; remove_query (get record "file_url");
         delete_record_query fileId ])
  ∧ all_queries (λ q, negb (on_storage q))
      (run (InterventionForm.handleDeleteFile id fileId) w).2 = true.
Proof.
  split.
  - intros record lookup_error c removal Hconfirm Hlookup Hurl Hremoval.
    unfold file_url_query, remove_query, delete_record_query in *.
    cbv delta [DeviceForm.handleDeleteFile DeviceForm.fetchDeviceFiles].
    ErrorHandling.unfold_monad. cbn. rewrite Hconfirm. cbn. rewrite Hlookup. cbn.
    rewrite Hurl. cbn. rewrite Hremoval. cbn.
    repeat (ErrorHandling.case_step; cbn); reflexivity.
  - cbv delta [InterventionForm.handleDeleteFile InterventionForm.fetchInterventionFiles].
    run_cases; reflexivity.
Qed.

(** *** The loading flag *)

Lemma try_catch_finally_last body handler ev w :
  last (try_catch_finally body handler (emit ev) w).2 = Some ev.
Proof.
  unfold try_catch_finally, emit.
  destruct (body w) as [[[]|e] t1]; simpl.
  - by rewrite last_snoc.
  - destruct (handler e w) as [o2 t2]; simpl. by rewrite app_assoc, last_snoc.
Qed.

(** The page loads that show a spinner. *)
Definition page_loads : list (inputs → M unit) :=
  [ λ _, Devices.fetchDevices; λ _, Clients.fetchClients;
    λ _, QuotesInvoices.fetchQuotesInvoices; λ _, Interventions.fetchInterventions;
    λ _, Operators.fetchOperators; λ _, Dashboard.fetchDashboardData;
    λ i, DeviceDetail.fetchDevice (id i); λ i, ClientDetail.fetchClient (id i);
    λ i, OperatorDetail.fetchOperator (id i);
    λ i, InterventionDetail.fetchIntervention (id i);
    λ i, QuoteInvoiceDetail.fetchQuoteInvoice (id i) ].

(** X18.  The spinner never hangs: each of the eleven page loads (the five
    list pages, the dashboard and the five detail pages) ends by setting
    [loading] to false, whatever the backend answers, errors and rejected
    promises included. *)
Theorem loading_always_cleared :
  Forall (λ load, ∀ (i : inputs) (w : env),
            last (run (load i) w).2 = Some (SetFlag "loading" false))
    page_loads.
Proof.
  unfold page_loads.
  repeat first [apply Forall_nil_2 | apply Forall_cons_2];
    intros i w; apply try_catch_finally_last.
Qed.

(** *** The counts of the operators page *)

Definition operators_query : query :=
  [From "operators"; Select "*"; Order "created_at" false].
Definition device_count_query (operator : row) : query :=
  [From "devices"; SelectCount "id"; Eq "operator_id" (get operator "id")].
Definition intervention_count_query (operator : row) : query :=
  [From "interventions"; SelectCount "id"; Eq "operator_id" (get operator "id")].

(** [result.count || 0] for the answer to a count query. *)
Definition count_or_zero (w : env) (q : query) : Z :=
  match backend w q with
  | Fulfilled r => default 0%Z (count r)
  | RejectedWith _ => 0%Z
  end.

(** The row shown for an operator. *)
Definition counted (w : env) (operator : row) : row :=
  spread_with operator
    [ ("device_count", VNum (count_or_zero w (device_count_query operator)));
      ("intervention_count", VNum (count_or_zero w (intervention_count_query operator))) ].

Definition count_queries (operator : row) : list query :=
  [device_count_query operator; intervention_count_query operator].

Lemma rows_after_app var current t1 t2 :
  rows_after var current (t1 ++ t2) = rows_after var (rows_after var current t1) t2.
Proof.
  revert current. induction t1 as [|ev t1 IH]; intros current; simpl; [done|].
  destruct ev; by rewrite IH.
Qed.

Lemma promise_all_with_counts (w : env) (rows : list row) :
  (∀ q, ∃ r, backend w q = Fulfilled r) →
  ∃ t, promise_all (List.map Operators.with_counts rows) w
       = (Returned (List.map (counted w) rows), t)
     ∧ queries_sent t = flat_map count_queries rows
     ∧ logged t = false.
Proof.
  intros Hfulfilled. induction rows as [|operator rows (t & IH & Hsent & Hlog)].
  - by exists [].
  - destruct (Hfulfilled (device_count_query operator)) as [r1 H1].
    destruct (Hfulfilled (intervention_count_query operator)) as [r2 H2].
    exists ([Called (device_count_query operator) (answer_of (Fulfilled r1));
             Called (intervention_count_query operator) (answer_of (Fulfilled r2))] ++ t).
    cbn [List.map promise_all]. unfold both at 1. rewrite IH.
    unfold Operators.with_counts, counted, count_or_zero.
    fold (device_count_query operator). fold (intervention_count_query operator).
    unfold mbind, M_bind, bind, both, await, settle. rewrite H1, H2. cbn.
    split; [done|]. split.
    + unfold queries_sent in *. simpl. by rewrite Hsent.
    + exact Hlog.
Qed.

(** X19.  The operators page, when the list query succeeds and no promise
    rejects: after the list, two count queries are sent for each operator
    (1 + 2n queries for n operators); the page shows the fetched operators in
    order, each with its two counts, and a count query that came back with an
    error counts as 0 and is not logged. *)
Theorem fetchOperators_counts (w : env) (rows current : list row) (c : option Z) :
  (∀ q, ∃ r, backend w q = Fulfilled r) →
  backend w operators_query
  = Fulfilled {| data := Some rows; error_of := None; count := c |} →
  let t := (run Operators.fetchOperators w).2 in
  rows_after "operators" current t = List.map (counted w) rows
  ∧ queries_sent t = operators_query :: flat_map count_queries rows
  ∧ length (queries_sent t) = 1 + 2 * length rows
  ∧ logged t = false.
Proof.
  intros Hfulfilled Hlist t.
  destruct (promise_all_with_counts w rows Hfulfilled) as (tc & Hall & Hsent & Hlog).
  assert (Ht : t = [Called operators_query Succeeded] ++ tc
                   ++ [SetRows "operators" (List.map (counted w) rows);
                       SetFlag "loading" false]).
  { subst t. unfold Operators.fetchOperators, run, try_catch_finally.
    unfold mbind, M_bind, bind, await, settle, throw_if_error, emit.
    fold operators_query. rewrite Hlist. cbn. rewrite Hall. cbn.
    by rewrite <- app_assoc. }
  rewrite Ht. repeat split.
  - by rewrite !rows_after_app.
  - unfold queries_sent in *. simpl. rewrite omap_app, Hsent. simpl.
    by rewrite app_nil_r.
  - unfold queries_sent in *. simpl. rewrite omap_app, Hsent. simpl.
    rewrite app_nil_r. f_equal. clear. induction rows as [|r rows IH]; simpl; lia.
  - unfold logged in *. simpl. rewrite existsb_app, Hlog. done.
Qed.

(** *** The operations at work *)

(** A backend that finds the stored file of every record and answers every
    other query, the removal from storage included, with an error. *)
Definition failing_storage : env :=
  {| backend := λ _, Fulfilled {| data := None;
                                  error_of := Some {| message := "Object not found" |};
                                  count := None |};
     backend_single := λ _, Fulfilled {| data := Some [("file_url", VStr "7/photo.png")];
                                         error_of := None; count := None |};
     confirm := λ _, true |}.

Lemma delete_file_storage_witness :
  take 3 (queries_sent (run (DeviceForm.handleDeleteFile (VNum 7) (VNum 5))
                          failing_storage).2)
  = [ file_url_query (VNum 5); remove_query (VStr "7/photo.png");
      delete_record_query (VNum 5) ].
Proof.
  apply (proj1 (delete_file_storage (VNum 7) (VNum 5) failing_storage)
           [("file_url", VStr "7/photo.png")] None None
           {| data := None; error_of := Some {| message := "Object not found" |};
              count := None |});
    reflexivity.
Defined.

(** A backend with one operator, where every count is 2. *)
Definition counting : env :=
  {| backend := λ _, Fulfilled {| data := Some [ListFilterFacts.technician];
                                  error_of := None; count := Some 2%Z |};
     backend_single := λ _, Fulfilled {| data := None; error_of := None; count := None |};
     confirm := λ _, true |}.

Lemma fetchOperators_counts_witness :
  rows_after "operators" [] (run Operators.fetchOperators counting).2
  = [ spread_with ListFilterFacts.technician
        [("device_count", VNum 2); ("intervention_count", VNum 2)] ]
  ∧ length (queries_sent (run Operators.fetchOperators counting).2) = 3.
Proof.
  destruct (fetchOperators_counts counting [ListFilterFacts.technician] [] (Some 2%Z))
    as (Hrows & _ & Hlen & _); [by eexists|reflexivity|].
  split; [exact Hrows|exact Hlen].
Defined.

End OperationFacts.

(** ** What deleting an operator or a client does, and the integrity check *)

Module SchemaEffects.
Import Schema.

(** A device refers to an operator that does not exist:
    [d.operator_id IS NOT NULL AND NOT EXISTS (SELECT 1 FROM operators o
     WHERE o.id = d.operator_id)]. *)
Definition invalid_device_operator (s : db) (row : device) : bool :=
  match device_operator_id row with
  | Some k => bool_decide (k ∉ operators s)
  | None => false
  end.

(** [NOT EXISTS (SELECT 1 FROM devices d WHERE d.id = i.device_id)]. *)
Definition invalid_intervention_device (s : db) (row : intervention) : bool :=
  bool_decide (device_id row ∉ dom (devices s)).

(** [NOT EXISTS (SELECT 1 FROM operators o WHERE o.id = i.operator_id)]. *)
Definition invalid_intervention_operator (s : db) (row : intervention) : bool :=
  bool_decide (operator_id row ∉ operators s).

(** [SELECT COUNT( * ) FROM table WHERE condition]. *)
Definition count_where {A} (condition : A → bool) (table : gmap Z A) : nat :=
  length (List.filter (λ kv, condition kv.2) (map_to_list table)).

(** The function [check_data_integrity()] of the migrations: the rows it
    returns, [(table_name, issue, count)]. *)
Definition check_data_integrity (s : db) : list (string * string * nat) :=
  [ ("devices", "devices with invalid operator_id",
     count_where (invalid_device_operator s) (devices s));
    ("interventions", "interventions with invalid device_id",
     count_where (invalid_intervention_device s) (interventions s));
    ("interventions", "interventions with invalid operator_id",
     count_where (invalid_intervention_operator s) (interventions s)) ].

End SchemaEffects.

Module SchemaEffectFacts.
Import Schema SchemaFacts SchemaEffects.

Lemma count_where_zero {A} (condition : A → bool) (table : gmap Z A) :
  count_where condition table = 0 ↔
  ∀ id row, table !! id = Some row → condition row = false.
Proof.
  unfold count_where. rewrite length_zero_iff_nil. split.
  - intros Hnil id row Hrow. apply elem_of_map_to_list in Hrow.
    destruct (condition row) eqn:Hc; [|done].
    assert (Hin : In (id, row) (List.filter (λ kv, condition kv.2) (map_to_list table))).
    { apply filter_In. split; [by apply list_elem_of_In|done]. }
    rewrite Hnil in Hin. destruct Hin.
  - intros Hall.
    destruct (List.filter _ _) as [|[id row] rest] eqn:Hf; [done|].
    assert (Hin : In (id, row) (List.filter (λ kv, condition kv.2) (map_to_list table)))
      by (rewrite Hf; by left).
    apply filter_In in Hin as [Hin Hc]. simpl in Hc.
    apply list_elem_of_In, elem_of_map_to_list in Hin.
    by rewrite (Hall id row Hin) in Hc.
Qed.

(** X20.  [check_data_integrity()] finds nothing on a database that was only
    changed through statements the constraints accepted: its three counts
    (devices with an invalid operator, interventions with an invalid device,
    interventions with an invalid operator) are 0 after any sequence of
    inserts, updates and deletes from the empty tables; and the three counts
    are 0 exactly when those three references all have a target. *)
Theorem check_data_integrity_clean (sts : list statement) (s : db) :
  check_data_integrity (run_statements sts empty)
  = [ ("devices", "devices with invalid operator_id", 0);
      ("interventions", "interventions with invalid device_id", 0);
      ("interventions", "interventions with invalid operator_id", 0) ]
  ∧ (List.map snd (check_data_integrity s) = [0; 0; 0] ↔
     (∀ id row k, devices s !! id = Some row → device_operator_id row = Some k →
                  k ∈ operators s)
     ∧ (∀ id row, interventions s !! id = Some row →
                  device_id row ∈ dom (devices s) ∧ operator_id row ∈ operators s)).
Proof.
  assert (Hiff : ∀ s, List.map snd (check_data_integrity s) = [0; 0; 0] ↔
     (∀ id row k, devices s !! id = Some row → device_operator_id row = Some k →
                  k ∈ operators s)
     ∧ (∀ id row, interventions s !! id = Some row →
                  device_id row ∈ dom (devices s) ∧ operator_id row ∈ operators s)).
  { intros s0. unfold check_data_integrity. simpl. split.
    - intros [= H1 H2 H3].
      rewrite count_where_zero in H1. rewrite count_where_zero in H2.
      rewrite count_where_zero in H3. split.
      + intros id row k Hrow Hk. specialize (H1 id row Hrow).
        unfold invalid_device_operator in H1. rewrite Hk in H1.
        apply bool_decide_eq_false in H1. by apply dec_stable.
      + intros id row Hrow. split.
        * specialize (H2 id row Hrow). apply bool_decide_eq_false in H2.
          by apply dec_stable.
        * specialize (H3 id row Hrow). apply bool_decide_eq_false in H3.
          by apply dec_stable.
    - intros [Hd Hi].
      assert (H1 : count_where (invalid_device_operator s0) (devices s0) = 0).
      { apply count_where_zero. intros id row Hrow. unfold invalid_device_operator.
        destruct (device_operator_id row) as [k|] eqn:Hk; [|done].
        apply bool_decide_eq_false. intros Hnot. by apply Hnot, (Hd id row k). }
      assert (H2 : count_where (invalid_intervention_device s0) (interventions s0) = 0).
      { apply count_where_zero. intros id row Hrow.
        apply bool_decide_eq_false. intros Hnot. by apply Hnot, (Hi id row). }
      assert (H3 : count_where (invalid_intervention_operator s0) (interventions s0) = 0).
      { apply count_where_zero. intros id row Hrow.
        apply bool_decide_eq_false. intros Hnot. by apply Hnot, (Hi id row). }
      by rewrite H1, H2, H3. }
  split; [|apply Hiff].
  assert (Hs : referential_integrity (run_statements sts empty))
    by apply run_statements_integrity, empty_integrity.
  destruct Hs as (Hd & Hi & _).
  assert (Hzero : List.map snd (check_data_integrity (run_statements sts empty)) = [0; 0; 0]).
  { apply Hiff. split; [|exact Hi].
    intros id row k Hrow Hk. apply Hd, device_ok_spec in Hrow as [Hop _]. by apply Hop. }
  unfold check_data_integrity in *. simpl in Hzero. injection Hzero as -> -> ->. done.
Qed.


(** X22.  Deleting a client is always accepted and removes no operator,
    device, intervention or history row: the devices of the client stay, lose
    their client ([client_id] becomes NULL) and keep their operator.
    Referential integrity is kept. *)
Theorem delete_client_effect (s : db) (id : Z) :
  exec s (DeleteClient id) = Some (delete_client s id)
  ∧ clients (delete_client s id) = clients s ∖ {[id]}
  ∧ operators (delete_client s id) = operators s
  ∧ interventions (delete_client s id) = interventions s
  ∧ intervention_history (delete_client s id) = intervention_history s
  ∧ dom (devices (delete_client s id)) = dom (devices s)
  ∧ (∀ d row, devices s !! d = Some row →
       devices (delete_client s id) !! d
       = Some {| device_operator_id := device_operator_id row;
                 device_client_id :=
                   if decide (device_client_id row = Some id) then None
                   else device_client_id row |})
  ∧ (referential_integrity s → referential_integrity (delete_client s id)).
Proof.
  repeat (split; [done|]).
  split; [unfold delete_client; simpl; by rewrite dom_fmap_L|].
  split.
  { intros d row Hrow. unfold delete_client; simpl.
    rewrite lookup_fmap, Hrow. simpl. f_equal.
    case_decide; [done|]. by destruct row. }
  apply delete_client_integrity.
Qed.

End SchemaEffectFacts.

(** ** The view [clients_with_devices] *)

(** The view the Clients page reads, with [SELECT ... FROM ... LEFT JOIN ...
    GROUP BY ...] evaluated as PostgreSQL defines it: the joins build rows,
    [GROUP BY] partitions them, the aggregates run over each group. *)

Module Views.

(** The right rows matching a left row, or one NULL row when there is none:
    what a [LEFT JOIN] pairs the left row with. *)
Definition matched {B} (condition : B → bool) (right : list B) : list (option B) :=
  match List.filter condition right with
  | [] => [None]
  | matches => List.map Some matches
  end.

(** [left LEFT JOIN right ON on]. *)
Definition left_join {A B} (on : A → B → bool) (left : list A) (right : list B)
  : list (A * option B) :=
  flat_map (λ a, List.map (pair a) (matched (on a) right)) left.

(** [GROUP BY key]: one group for each value of the key. *)
Definition group_by {A} (key : A → Z) (rows : list A) : list (Z * list A) :=
  List.map (λ k, (k, List.filter (λ r, Z.eqb (key r) k) rows))
           (remove_dups (List.map key rows)).

(** [COUNT(DISTINCT column)]: NULLs are not counted. *)
Definition count_distinct (column : list (option Z)) : Z :=
  Z.of_nat (length (remove_dups (omap id column))).

(** [SUM(column)]: the sum of the values that are not NULL, NULL when there
    is none. *)
Definition sum (column : list (option Z)) : option Z :=
  match omap id column with
  | [] => None
  | values => Some (foldr Z.add 0%Z values)
  end.

(** [COALESCE(v, d)]. *)
Definition coalesce (v : option Z) (d : Z) : Z := default d v.

(** [a = b] in an [ON] clause: not true when [b] is NULL. *)
Definition equals (a : Z) (b : option Z) : bool :=
  match b with
  | Some k => Z.eqb a k
  | None => false
  end.

(** The columns the view reads.  A client is its [id] (the other columns
    of [c.*] are carried along unchanged).  The migrations do not create the
    table [quotes_invoices], so its columns are taken as nullable; amounts
    ([DECIMAL(10,2)] in [invoices_quotes]) are counted in cents. *)
Record device_row : Type := { d_id : Z; d_client_id : option Z }.
Record quote_invoice_row : Type :=
  { qi_id : Z; qi_client_id : option Z; qi_amount : option Z }.

Record client_with_devices : Type :=
  { c_id : Z;
    device_count : Z;
    quote_invoice_count : Z;
    total_amount : Z }.

(** [SELECT c.*, COALESCE(COUNT(DISTINCT d.id), 0) AS device_count,
            COALESCE(COUNT(DISTINCT qi.id), 0) AS quote_invoice_count,
            COALESCE(SUM(qi.amount), 0) AS total_amount
     FROM clients c
     LEFT JOIN devices d ON c.id = d.client_id
     LEFT JOIN quotes_invoices qi ON c.id = qi.client_id
     GROUP BY c.id]. *)
Definition clients_with_devices (clients : list Z) (devices : list device_row)
    (quotes_invoices : list quote_invoice_row) : list client_with_devices :=
  let c_d := left_join (λ c d, equals c (d_client_id d)) clients devices in
  let c_d_qi := left_join (λ cd qi, equals cd.1 (qi_client_id qi)) c_d quotes_invoices in
  List.map
    (λ '(c, group),
       {| c_id := c;
          device_count :=
            coalesce (Some (count_distinct (List.map (λ r, d_id <$> r.1.2) group))) 0;
          quote_invoice_count :=
            coalesce (Some (count_distinct (List.map (λ r, qi_id <$> r.2) group))) 0;
          total_amount :=
            coalesce (sum (List.map (λ r, r.2 ≫= qi_amount) group)) 0 |})
    (group_by (λ r, r.1.1) c_d_qi).

End Views.

Module ViewFacts.
Import Views.

Lemma matched_nonempty {B} (condition : B → bool) right :
  matched condition right ≠ [].
Proof. unfold matched. by destruct (List.filter condition right). Qed.

Lemma matched_length {B} (condition : B → bool) right :
  length (matched condition right)
  = Nat.max 1 (length (List.filter condition right)).
Proof.
  unfold matched. destruct (List.filter condition right) as [|b l]; [done|].
  rewrite length_map. simpl. lia.
Qed.

Lemma omap_Some {B C} (f : B → C) (ms : list B) :
  omap id (List.map (fmap f) (List.map Some ms)) = List.map f ms.
Proof.
  induction ms as [|m ms IH]; [done|].
  change (f m :: omap id (List.map (fmap f) (List.map Some ms)) = f m :: List.map f ms).
  by rewrite IH.
Qed.

Lemma omap_bind_Some {B C} (f : B → option C) (ms : list B) :
  omap id (List.map (λ o, o ≫= f) (List.map Some ms)) = omap f ms.
Proof.
  induction ms as [|m ms IH]; [done|].
  change (omap id (List.map (λ o, o ≫= f) (List.map Some (m :: ms))))
    with (match f m with
          | Some y => y :: omap id (List.map (λ o, o ≫= f) (List.map Some ms))
          | None => omap id (List.map (λ o, o ≫= f) (List.map Some ms))
          end).
  rewrite IH. simpl. by destruct (f m).
Qed.

Lemma omap_bind_matched {B C} (f : B → option C) (condition : B → bool) right :
  omap id (List.map (λ o, o ≫= f) (matched condition right))
  = omap f (List.filter condition right).
Proof.
  unfold matched. destruct (List.filter condition right) as [|b l]; [done|].
  apply omap_bind_Some.
Qed.

Lemma omap_matched {B C} (f : B → C) (condition : B → bool) right :
  omap id (List.map (fmap f) (matched condition right))
  = List.map f (List.filter condition right).
Proof.
  unfold matched. destruct (List.filter condition right) as [|b l]; [done|].
  apply omap_Some.
Qed.

(** The rows of one client after the two joins: each of its devices (or
    one NULL) with each of its quotes and invoices (or one NULL). *)
Definition client_rows (devices : list device_row) (quotes_invoices : list quote_invoice_row)
    (c : Z) : list (Z * option device_row * option quote_invoice_row) :=
  flat_map (λ od, List.map (pair (c, od))
                    (matched (λ qi, equals c (qi_client_id qi)) quotes_invoices))
           (matched (λ d, equals c (d_client_id d)) devices).

Lemma joined_rows clients devices quotes_invoices :
  left_join (λ cd qi, equals cd.1 (qi_client_id qi))
    (left_join (λ c d, equals c (d_client_id d)) clients devices) quotes_invoices
  = flat_map (client_rows devices quotes_invoices) clients.
Proof.
  unfold left_join, client_rows. induction clients as [|c clients IH]; [done|].
  simpl. rewrite flat_map_app, IH. f_equal.
  generalize (matched (λ d, equals c (d_client_id d)) devices). intros ds.
  induction ds as [|od ds IHds]; [done|]. simpl. by rewrite IHds.
Qed.

Lemma client_rows_key devices quotes_invoices c r :
  In r (client_rows devices quotes_invoices c) → r.1.1 = c.
Proof.
  unfold client_rows. intros (od & _ & Hr)%in_flat_map.
  by apply in_map_iff in Hr as (oq & <- & _).
Qed.

Lemma client_rows_nonempty devices quotes_invoices c :
  client_rows devices quotes_invoices c ≠ [].
Proof.
  unfold client_rows.
  pose proof (matched_nonempty (λ d, equals c (d_client_id d)) devices) as Hd.
  pose proof (matched_nonempty (λ qi, equals c (qi_client_id qi)) quotes_invoices) as Hq.
  destruct (matched (λ d, _) devices) as [|od ds]; [done|].
  destruct (matched (λ qi, _) quotes_invoices) as [|oq qs]; [done|]. done.
Qed.

Section Groups.
Context {A : Type}.
Variable key : A → Z.
Variable f : Z → list A.
Hypothesis f_key : ∀ c r, In r (f c) → key r = c.
Hypothesis f_nonempty : ∀ c, f c ≠ [].

Lemma filter_other c c' :
  c ≠ c' → List.filter (λ r, Z.eqb (key r) c) (f c') = [].
Proof.
  intros Hne. destruct (List.filter _ _) as [|r l] eqn:Hf; [done|].
  assert (Hin : In r (List.filter (λ r, Z.eqb (key r) c) (f c'))) by (rewrite Hf; by left).
  apply filter_In in Hin as [Hin Hk]. apply Z.eqb_eq in Hk.
  apply f_key in Hin. congruence.
Qed.

Lemma filter_same c : List.filter (λ r, Z.eqb (key r) c) (f c) = f c.
Proof.
  apply forallb_filter_id, forallb_forall. intros r Hr.
  apply Z.eqb_eq. by apply f_key.
Qed.

Lemma group_of c clients :
  NoDup clients → c ∈ clients →
  List.filter (λ r, Z.eqb (key r) c) (flat_map f clients) = f c.
Proof.
  intros Hnd Hc. induction Hnd as [|c' clients Hnotin Hnd IH]; [by apply elem_of_nil in Hc|].
  simpl. rewrite List.filter_app.
  apply elem_of_cons in Hc as [->|Hc].
  - rewrite filter_same.
    assert (Hrest : List.filter (λ r, Z.eqb (key r) c') (flat_map f clients) = []).
    { clear -Hnotin f_key. induction clients as [|c clients IH]; [done|].
      simpl. rewrite List.filter_app, filter_other, IH; [done| |].
      - intros Hin. apply Hnotin. by apply list_elem_of_further.
      - intros ->. apply Hnotin, list_elem_of_here. }
    by rewrite Hrest, app_nil_r.
  - rewrite filter_other, IH; [done|done|]. intros ->. done.
Qed.

Lemma keys_of clients :
  NoDup clients → remove_dups (List.map key (flat_map f clients)) = clients.
Proof.
  induction 1 as [|c clients Hnotin Hnd IH]; [done|].
  simpl. rewrite List.map_app.
  assert (Hkeys : ∀ k, In k (List.map key (f c)) → k = c).
  { intros k (r & <- & Hr)%in_map_iff. by apply f_key. }
  assert (Hne : List.map key (f c) ≠ []).
  { specialize (f_nonempty c). by destruct (f c). }
  assert (Hrest : c ∉ List.map key (flat_map f clients)).
  { intros Hin. apply list_elem_of_In, in_map_iff in Hin as (r & Hk & Hr).
    apply in_flat_map in Hr as (c' & Hc' & Hr). apply f_key in Hr.
    apply Hnotin. apply list_elem_of_In. congruence. }
  revert Hkeys Hne. generalize (List.map key (f c)). intros ks Hkeys Hne.
  induction ks as [|k ks IHks]; [done|].
  assert (k = c) as -> by (apply Hkeys; by left).
  cbn [app remove_dups]. destruct ks as [|k' ks].
  - destruct (decide_rel elem_of c _) as [Hin|Hnin]; [done|].
    cbn [app]. by rewrite IH.
  - destruct (decide_rel elem_of c _) as [Hin|Hnin].
    + apply IHks; [|done]. intros k Hk. apply Hkeys. by right.
    + destruct Hnin. assert (k' = c) as -> by (apply Hkeys; right; by left).
      apply list_elem_of_here.
Qed.

End Groups.

Lemma count_distinct_spec (column : list (option Z)) (ids : list Z) :
  NoDup ids → (∀ k, k ∈ omap id column ↔ k ∈ ids) →
  count_distinct column = Z.of_nat (length ids).
Proof.
  intros Hnd Hsame. unfold count_distinct. f_equal.
  apply Permutation_length, NoDup_Permutation; [apply NoDup_remove_dups|done|].
  intros k. by rewrite elem_of_remove_dups.
Qed.

Definition devices_of (devices : list device_row) (c : Z) : list device_row :=
  List.filter (λ d, equals c (d_client_id d)) devices.

Definition quotes_of (quotes_invoices : list quote_invoice_row) (c : Z) : list quote_invoice_row :=
  List.filter (λ qi, equals c (qi_client_id qi)) quotes_invoices.

Definition amounts_of (quotes_invoices : list quote_invoice_row) (c : Z) : Z :=
  foldr Z.add 0%Z (omap qi_amount (quotes_of quotes_invoices c)).

Lemma NoDup_map_filter {B} (f : B → Z) (p : B → bool) l :
  NoDup (List.map f l) → NoDup (List.map f (List.filter p l)).
Proof.
  induction l as [|b l IH]; simpl; [done|].
  intros [Hb Hl]%NoDup_cons. destruct (p b); simpl; [|by apply IH].
  apply NoDup_cons. split; [|by apply IH].
  intros Hin. apply Hb. apply list_elem_of_In, in_map_iff in Hin as (x & Hx & Hin).
  apply filter_In in Hin as [Hin _]. apply list_elem_of_In, in_map_iff. by exists x.
Qed.

Lemma device_column devices quotes_invoices c k :
  k ∈ omap id (List.map (λ r, d_id <$> r.1.2) (client_rows devices quotes_invoices c))
  ↔ k ∈ List.map d_id (devices_of devices c).
Proof.
  unfold devices_of.
  rewrite <- (omap_matched d_id (λ d, equals c (d_client_id d)) devices).
  unfold client_rows.
  pose proof (matched_nonempty (λ qi, equals c (qi_client_id qi)) quotes_invoices) as Hq.
  generalize (matched (λ d, equals c (d_client_id d)) devices). intros ds.
  destruct (matched (λ qi, _) quotes_invoices) as [|oq qs]; [done|]. clear Hq.
  rewrite !list_elem_of_omap. split.
  - intros (x & Hx & Hid). exists x. split; [|done].
    apply list_elem_of_In, in_map_iff in Hx as (r & <- & Hr).
    apply in_flat_map in Hr as (od & Hod & Hr).
    apply in_map_iff in Hr as (oq' & <- & _). simpl.
    apply list_elem_of_In, in_map_iff. by exists od.
  - intros (x & Hx & Hid). exists x. split; [|done].
    apply list_elem_of_In, in_map_iff in Hx as (od & <- & Hod).
    apply list_elem_of_In, in_map_iff. exists (c, od, oq). split; [done|].
    apply in_flat_map. exists od. split; [done|]. by left.
Qed.

Lemma quote_column devices quotes_invoices c k :
  k ∈ omap id (List.map (λ r, qi_id <$> r.2) (client_rows devices quotes_invoices c))
  ↔ k ∈ List.map qi_id (quotes_of quotes_invoices c).
Proof.
  unfold quotes_of.
  rewrite <- (omap_matched qi_id (λ qi, equals c (qi_client_id qi)) quotes_invoices).
  unfold client_rows.
  pose proof (matched_nonempty (λ d, equals c (d_client_id d)) devices) as Hd.
  generalize (matched (λ qi, equals c (qi_client_id qi)) quotes_invoices). intros qs.
  destruct (matched (λ d, _) devices) as [|od ds]; [done|]. clear Hd.
  rewrite !list_elem_of_omap. split.
  - intros (x & Hx & Hid). exists x. split; [|done].
    apply list_elem_of_In, in_map_iff in Hx as (r & <- & Hr).
    apply in_flat_map in Hr as (od' & Hod & Hr).
    apply in_map_iff in Hr as (oq & <- & Hoq). simpl.
    apply list_elem_of_In, in_map_iff. by exists oq.
  - intros (x & Hx & Hid). exists x. split; [|done].
    apply list_elem_of_In, in_map_iff in Hx as (oq & <- & Hoq).
    apply list_elem_of_In, in_map_iff. exists (c, od, oq). split; [done|].
    apply in_flat_map. exists od. split; [by left|].
    apply in_map_iff. by exists oq.
Qed.

Lemma sum_values (values : list Z) (column : list (option Z)) :
  omap id column = values → coalesce (sum column) 0 = foldr Z.add 0%Z values.
Proof. unfold sum. intros ->. by destruct values. Qed.

Lemma amount_column devices quotes_invoices c :
  coalesce (sum (List.map (λ r, r.2 ≫= qi_amount) (client_rows devices quotes_invoices c))) 0
  = (Z.of_nat (Nat.max 1 (length (devices_of devices c)))
     * amounts_of quotes_invoices c)%Z.
Proof.
  unfold devices_of.
  rewrite <- (matched_length (λ d, equals c (d_client_id d)) devices).
  erewrite sum_values; [|reflexivity].
  unfold client_rows, amounts_of, quotes_of.
  rewrite <- (omap_bind_matched qi_amount (λ qi, equals c (qi_client_id qi)) quotes_invoices).
  generalize (matched (λ qi, equals c (qi_client_id qi)) quotes_invoices). intros qs.
  generalize (matched (λ d, equals c (d_client_id d)) devices). intros ds.
  induction ds as [|od ds IH]; [done|].
  cbn [flat_map length]. rewrite List.map_app, omap_app, foldr_app.
  rewrite Nat2Z.inj_succ, Z.mul_succ_l, <- IH.
  assert (Hone : omap id (List.map (λ r : Z * option device_row * option quote_invoice_row,
                                      r.2 ≫= qi_amount)
                            (List.map (pair (c, od)) qs))
                 = omap id (List.map (λ o, o ≫= qi_amount) qs)).
  { f_equal. rewrite List.map_map. by apply List.map_ext. }
  rewrite Hone. generalize (omap id (List.map (λ o, o ≫= qi_amount) qs)).
  generalize (foldr Z.add 0%Z
                (omap id (List.map (λ r : Z * option device_row * option quote_invoice_row,
                                      r.2 ≫= qi_amount)
                            (flat_map (λ od0, List.map (pair (c, od0)) qs) ds)))).
  intros rest values. induction values as [|v values IHv]; simpl; lia.
Qed.

(** The row of the view for a client. *)
Definition view_row (devices : list device_row) (quotes_invoices : list quote_invoice_row)
    (c : Z) : client_with_devices :=
  {| c_id := c;
     device_count := Z.of_nat (length (devices_of devices c));
     quote_invoice_count := Z.of_nat (length (quotes_of quotes_invoices c));
     total_amount :=
       (Z.of_nat (Nat.max 1 (length (devices_of devices c)))
        * amounts_of quotes_invoices c)%Z |}.

(** X23.  The view [clients_with_devices], on tables whose ids are unique:
    it has one row for each client, whose [device_count] is the number of
    devices of the client and whose [quote_invoice_count] is the number of
    its quotes and invoices; but [total_amount] is the sum of their amounts
    multiplied by the number of devices of the client (by 1 when it has
    none): the two joins pair every device with every quote, so a client with
    two devices is shown twice what was invoiced. *)
Theorem clients_with_devices_rows
    (clients : list Z) (devices : list device_row) (quotes_invoices : list quote_invoice_row) :
  NoDup clients →
  NoDup (List.map d_id devices) →
  NoDup (List.map qi_id quotes_invoices) →
  clients_with_devices clients devices quotes_invoices
  ≡ₚ List.map (view_row devices quotes_invoices) clients.
Proof.
  intros Hclients Hdevices Hquotes.
  unfold clients_with_devices, group_by. rewrite joined_rows.
  rewrite (keys_of _ _ (client_rows_key devices quotes_invoices)
             (client_rows_nonempty devices quotes_invoices)) by done.
  rewrite List.map_map.
  match goal with
  | |- List.map ?F clients ≡ₚ _ =>
      enough (Heq : List.map F clients
                    = List.map (view_row devices quotes_invoices) clients)
        by by rewrite Heq
  end.
  apply List.map_ext_in. intros c Hc%list_elem_of_In.
  rewrite (group_of _ _ (client_rows_key devices quotes_invoices)) by done.
  unfold view_row. f_equal.
  - simpl. rewrite (count_distinct_spec _ (List.map d_id (devices_of devices c))).
    + by rewrite length_map.
    + by apply NoDup_map_filter.
    + apply device_column.
  - simpl. rewrite (count_distinct_spec _ (List.map qi_id (quotes_of quotes_invoices c))).
    + by rewrite length_map.
    + by apply NoDup_map_filter.
    + apply quote_column.
  - apply amount_column.
Qed.

(** One client with two devices and one invoice of 100.00: the view shows
    200.00 invoiced. *)
Lemma clients_with_devices_rows_witness :
  clients_with_devices [7%Z]
    [ {| d_id := 1; d_client_id := Some 7%Z |}; {| d_id := 2; d_client_id := Some 7%Z |} ]
    [ {| qi_id := 40; qi_client_id := Some 7%Z; qi_amount := Some 10000%Z |} ]
  ≡ₚ [ {| c_id := 7; device_count := 2; quote_invoice_count := 1;
          total_amount := 20000 |} ].
Proof.
  apply (clients_with_devices_rows [7%Z]
           [ {| d_id := 1; d_client_id := Some 7%Z |};
             {| d_id := 2; d_client_id := Some 7%Z |} ]
           [ {| qi_id := 40; qi_client_id := Some 7%Z; qi_amount := Some 10000%Z |} ]).
  - apply NoDup_singleton.
  - apply NoDup_cons. split; [|apply NoDup_singleton].
    intros [=]%list_elem_of_singleton.
  - apply NoDup_singleton.
Defined.

End ViewFacts.
